(** * UNVMe client library: the public facade of [src/unvme.c]

    A shallow embedding of the client interface functions of the UNVMe
    user-space NVMe driver ([unvme_openq], [unvme_open], [unvme_aread],
    [unvme_atranslate], [unvme_apoll], [unvme_read], [unvme_write],
    [unvme_flush], [unvme_translate_region]) and of the test program
    [test/nvme/nvme_set_features.c].

    The facade is a thin layer over the driver core declared in
    [unvme_core.h] ([unvme_do_open], [unvme_rw], [unvme_rw_extended],
    [unvme_aflush], [unvme_do_poll]).  The core is an interface here (a
    type class); every theorem about the facade holds for every
    implementation of it.  What the core itself does (polling, the open
    of a session) is stated on models of it written after the
    specification, [SpecCore] and [SpecSession].

    Further parts embed the programs around the facade: the region
    transfer [rw_region] and [unvme_read_embedding] of
    [test/unvme/unvme_embed_lib.c], the host-side column projection
    [translate_region] of [test/unvme/unvme_trans_test.c], the session
    bookkeeping of [test/unvme/unvme_mcd_test.c], and the completion
    queue and device name of the fio engine [ioengine/unvme_fio.c]. *)

From Stdlib Require Import ZArith Lia Ascii String.
From stdpp Require Import base list sets strings.

Local Open Scope Z_scope.

(** ** C integer types *)

Module CInt.

(** [unsigned int] / [u32]: arithmetic modulo 2^32. *)
Definition to_u32 (x : Z) : Z := x mod 2 ^ 32.

(** [int]: the two's-complement reading of the low 32 bits. *)
Definition to_int (x : Z) : Z :=
  let u := x mod 2 ^ 32 in if u <? 2 ^ 31 then u else u - 2 ^ 32.

Definition LONG_MAX : Z := 2 ^ 63 - 1.
Definition LONG_MIN : Z := - 2 ^ 63.
Definition ULONG_MAX : Z := 2 ^ 64 - 1.

(** C's [!!x]. *)
Definition notnot (x : Z) : Z := if x =? 0 then 0 else 1.

Definition is_u16 (x : Z) : Prop := 0 <= x < 2 ^ 16.
Definition is_u32 (x : Z) : Prop := 0 <= x < 2 ^ 32.

End CInt.

(** ** The C library routines the sources call

    [sscanf] with the directives [%x] and literal characters, and
    [strtol] with base 0, as the GNU C library carries them out on an
    LP64 target (the driver is built for Linux).  [strtol] is ISO C's
    (7.22.1.4).  The [%x] conversion is glibc's [vfscanf]: it takes a
    leading ["0x"] also when no digit follows (ISO C 7.21.6.2 has a
    matching failure there), and converts what it took with [strtoul]. *)

Module Libc.

Definition code (c : ascii) : Z := Z.of_N (Ascii.N_of_ascii c).

(** [isspace] in the "C" locale: space, and \t \n \v \f \r. *)
Definition isspace (c : ascii) : bool :=
  (code c =? 32) || ((9 <=? code c) && (code c <=? 13)).

Fixpoint skip_space (s : string) : string :=
  match s with
  | String c r => if isspace c then skip_space r else s
  | EmptyString => s
  end.

(** Value of a character as a digit, letters of either case. *)
Definition digit_val (c : ascii) : option Z :=
  let n := code c in
  if (48 <=? n) && (n <=? 57) then Some (n - 48)
  else if (97 <=? n) && (n <=? 122) then Some (n - 87)
  else if (65 <=? n) && (n <=? 90) then Some (n - 55)
  else None.

Definition digit_in (base : Z) (c : ascii) : option Z :=
  match digit_val c with
  | Some v => if v <? base then Some v else None
  | None => None
  end.

(** Consume the longest run of digits of [base]; [acc] is the value so
    far. *)
Fixpoint digits (base : Z) (acc : Z) (s : string) : Z * string :=
  match s with
  | String c r =>
      match digit_in base c with
      | Some v => digits base (acc * base + v) r
      | None => (acc, s)
      end
  | EmptyString => (acc, s)
  end.

Definition starts_with_digit (base : Z) (s : string) : bool :=
  match s with
  | String c _ => bool_decide (is_Some (digit_in base c))
  | EmptyString => false
  end.

(** Optional sign: [true] for a minus. *)
Definition sign (s : string) : bool * string :=
  match s with
  | String c r =>
      if code c =? 45 then (true, r)
      else if code c =? 43 then (false, r)
      else (false, s)
  | EmptyString => (false, s)
  end.

Definition is_x (c : ascii) : bool := (code c =? 120) || (code c =? 88).

(** [strtol]'s prefix: an ["0x"] or ["0X"] followed by a hexadecimal
    digit.  Without the digit the subject of [strtol] is the ["0"]
    alone and the rest begins at the [x]. *)
Definition hex_prefix (s : string) : option string :=
  match s with
  | String z (String x r) =>
      if (code z =? 48) && is_x x && starts_with_digit 16 r
      then Some r else None
  | _ => None
  end.

(** *** [strtol (s, &end, 0)]

    Returns the converted [long] and the unconverted rest.  With no
    digits to convert, the value is 0 and the rest is the whole input.
    The value saturates at [LONG_MIN] / [LONG_MAX]. *)
Definition clamp_long (v : Z) : Z :=
  if v <? CInt.LONG_MIN then CInt.LONG_MIN
  else if CInt.LONG_MAX <? v then CInt.LONG_MAX else v.

Definition strtol0 (s : string) : Z * string :=
  let '(neg, s2) := sign (skip_space s) in
  let '(base, s3) :=
    match hex_prefix s2 with
    | Some r => (16, r)
    | None =>
        match s2 with
        | String z _ => if code z =? 48 then (8, s2) else (10, s2)
        | EmptyString => (10, s2)
        end
    end in
  if starts_with_digit base s3 then
    let '(v, rest) := digits base 0 s3 in
    (clamp_long (if neg then - v else v), rest)
  else (0, s).

(** *** [sscanf] *)

Inductive directive : Type :=
| Dx                  (* %x *)
| Dlit (c : ascii).   (* an ordinary character *)

Inductive scan_result : Type :=
| ScanOk (v : Z) (rest : string)
| ScanInputFailure       (* end of input before the item *)
| ScanMatchingFailure.

(** What [vfscanf] does with a leading ["0"] of a number: the ["0"] is
    taken as a digit, and an [x] or [X] right behind it is read and
    dropped, whether or not a hexadecimal digit follows.  Returns whether
    a ["0"] was taken, and the input from which the digits are read. *)
Definition leading_0x (s : string) : bool * string :=
  match s with
  | String z r =>
      if code z =? 48 then
        (true,
         match r with
         | String x r' => if is_x x then r' else r
         | EmptyString => r
         end)
      else (false, s)
  | EmptyString => (false, s)
  end.

(** [strtoul] on the sign and digits taken: the negation is made in
    [unsigned long]; a magnitude above [ULONG_MAX] gives [ULONG_MAX],
    whatever the sign. *)
Definition strtoul_value (neg : bool) (v : Z) : Z :=
  if CInt.ULONG_MAX <? v then CInt.ULONG_MAX
  else if neg then - v else v.

(** The [%x] conversion: white space is skipped (end of input there is
    an input failure); an optional sign; a leading ["0"] with an
    optional [x]; the longest run of hexadecimal digits.  With no digit
    taken (a ["0"] counts) the conversion fails.  The value is stored
    through an [int*]: the low 32 bits of the [unsigned long], read as
    an [int]. *)
Definition scan_hex (s : string) : scan_result :=
  match skip_space s with
  | EmptyString => ScanInputFailure
  | s1 =>
      let '(neg, s2) := sign s1 in
      let '(zero, s3) := leading_0x s2 in
      let '(v, rest) := digits 16 0 s3 in
      if zero || starts_with_digit 16 s3 then
        ScanOk (CInt.to_int (strtoul_value neg v)) rest
      else ScanMatchingFailure
  end.

Definition EOF : Z := -1.

(** Number of items assigned so far, or [EOF] when the input ends before
    the first conversion. *)
Definition scan_count (input_failure : bool) (acc : list Z) : Z :=
  match acc with
  | [] => if input_failure then EOF else 0
  | _ => Z.of_nat (length acc)
  end.

(** Returns [sscanf]'s return value and the values assigned, in the
    order of the pointer arguments. *)
Fixpoint sscanf_from (fmt : list directive) (s : string) (acc : list Z)
  : Z * list Z :=
  match fmt with
  | [] => (scan_count false acc, acc)
  | Dx :: fmt' =>
      match scan_hex s with
      | ScanOk v rest => sscanf_from fmt' rest (acc ++ [v])
      | ScanInputFailure => (scan_count true acc, acc)
      | ScanMatchingFailure => (scan_count false acc, acc)
      end
  | Dlit c :: fmt' =>
      match s with
      | String c' rest =>
          if bool_decide (c = c') then sscanf_from fmt' rest acc
          else (scan_count false acc, acc)
      | EmptyString => (scan_count true acc, acc)
      end
  end.

Definition sscanf (s : string) (fmt : list directive) : Z * list Z :=
  sscanf_from fmt s [].


End Libc.

(** ** The driver core interface ([unvme_core.h], [unvme.h])

    The facade only forwards to these.  [World] is the whole state behind
    the interface (sessions, queues, descriptor tables, the device);
    [Desc] is a non-null [unvme_desc_t*], a null pointer is [None]. *)

Inductive nvme_opc : Type := NVME_CMD_FLUSH | NVME_CMD_WRITE | NVME_CMD_READ.

(** The fields of [unvme_ns_t] that the facade reads.  In [unvme.h] the
    three sizes are 16-bit unsigned. *)
Record unvme_ns_t : Type := mk_ns {
  id : Z;
  blocksize : Z;
  maxbpio : Z;
  maxiopq : Z
}.

Definition ns_wf (ns : unvme_ns_t) : Prop :=
  CInt.is_u16 (blocksize ns) /\ CInt.is_u16 (maxbpio ns) /\ CInt.is_u16 (maxiopq ns).

Class UnvmeCore (World Desc : Type) : Type := {
  (** default poll timeout in seconds, a macro of [unvme.h] *)
  UNVME_TIMEOUT : Z;
  (** [unvme_do_open (pci, nsid, qcount, qsize)] *)
  unvme_do_open : Z -> Z -> Z -> Z -> World -> option unvme_ns_t * World;
  (** [unvme_rw (ns, qid, opc, buf, slba, nlb)] *)
  unvme_rw :
    unvme_ns_t -> Z -> nvme_opc -> Z -> Z -> Z -> World -> option Desc * World;
  (** [unvme_rw_extended (ns, qid, opc, buf, slba, nlb, config)] *)
  unvme_rw_extended :
    unvme_ns_t -> Z -> nvme_opc -> Z -> Z -> Z -> Z -> World -> option Desc * World;
  (** [unvme_aflush (ns, qid)] *)
  unvme_aflush : unvme_ns_t -> Z -> World -> option Desc * World;
  (** [unvme_do_poll (desc, sec, cqe_cs)]; [cqe_cs] is [None] for NULL *)
  unvme_do_poll : Desc -> Z -> option Z -> World -> Z * World
}.

(** ** Calls into the core, recorded

    The facade functions run in a state monad over the world and a trace
    of the calls made, so that "what was submitted, in which order" is a
    property of the final state. *)

Inductive event (Desc : Type) : Type :=
| EvError (msg : string)
| EvOpen (pci nsid qcount qsize : Z)
| EvRw (qid : Z) (opc : nvme_opc) (buf slba nlb : Z) (r : option Desc)
| EvRwExtended (qid : Z) (opc : nvme_opc) (buf slba nlb config : Z)
    (r : option Desc)
| EvAflush (qid : Z) (r : option Desc)
| EvYield
| EvPoll (d : Desc) (sec : Z) (rc : Z).

Arguments EvError {Desc} msg.
Arguments EvOpen {Desc} pci nsid qcount qsize.
Arguments EvRw {Desc} qid opc buf slba nlb r.
Arguments EvRwExtended {Desc} qid opc buf slba nlb config r.
Arguments EvAflush {Desc} qid r.
Arguments EvYield {Desc}.
Arguments EvPoll {Desc} d sec rc.

Record state (World Desc : Type) : Type := mk_state {
  world : World;
  trace : list (event Desc)
}.

Arguments mk_state {World Desc} world trace.
Arguments world {World Desc} s.
Arguments trace {World Desc} s.

Definition M (World Desc A : Type) : Type :=
  state World Desc -> A * state World Desc.

Definition ret {World Desc A} (a : A) : M World Desc A := fun s => (a, s).

Definition bind {World Desc A B} (m : M World Desc A) (k : A -> M World Desc B)
  : M World Desc B :=
  fun s => let '(a, s') := m s in k a s'.

Notation "'let*' x ':=' m 'in' k" := (bind m (fun x => k))
  (at level 10, x pattern, m at level 100, k at level 200, only parsing).

(** Faults of the C abstract machine that [unvme_translate_region] can
    reach, and the outcome of running it with a bound on the number of
    iterations of its polling loop. *)
Inductive fault : Type :=
| DivByZero
| OutOfBounds (idx : Z)      (* desc[idx] outside the allocated array *)
| Indeterminate (idx : Z).   (* desc[idx] read before any store *)

Inductive outcome (A : Type) : Type :=
| Returns (a : A)
| Faults (f : fault)
| OutOfFuel.

Arguments Returns {A} a.
Arguments Faults {A} f.
Arguments OutOfFuel {A}.

Section Facade.

Context {World Desc : Type} {Core : UnvmeCore World Desc}.

Local Abbreviation ST := (state World Desc).
Local Abbreviation Mon := (M World Desc).

Definition emit (e : event Desc) : Mon unit :=
  fun s => (tt, mk_state (world s) (trace s ++ [e])).

(** The [ERROR] macro: a diagnostic on standard error. *)
Definition ERROR (msg : string) : Mon unit := emit (EvError msg).

Definition sched_yield : Mon unit := emit EvYield.

Definition call_do_open (pci nsid qcount qsize : Z) : Mon (option unvme_ns_t) :=
  fun s =>
    let '(r, w) := unvme_do_open pci nsid qcount qsize (world s) in
    (r, mk_state w (trace s ++ [EvOpen pci nsid qcount qsize])).

Definition call_rw (ns : unvme_ns_t) (qid : Z) (opc : nvme_opc)
    (buf slba nlb : Z) : Mon (option Desc) :=
  fun s =>
    let '(r, w) := unvme_rw ns qid opc buf slba nlb (world s) in
    (r, mk_state w (trace s ++ [EvRw qid opc buf slba nlb r])).

Definition call_rw_extended (ns : unvme_ns_t) (qid : Z) (opc : nvme_opc)
    (buf slba nlb config : Z) : Mon (option Desc) :=
  fun s =>
    let '(r, w) := unvme_rw_extended ns qid opc buf slba nlb config (world s) in
    (r, mk_state w (trace s ++ [EvRwExtended qid opc buf slba nlb config r])).

Definition call_aflush (ns : unvme_ns_t) (qid : Z) : Mon (option Desc) :=
  fun s =>
    let '(r, w) := unvme_aflush ns qid (world s) in
    (r, mk_state w (trace s ++ [EvAflush qid r])).

Definition call_do_poll (d : Desc) (sec : Z) (cqe_cs : option Z) : Mon Z :=
  fun s =>
    let '(rc, w) := unvme_do_poll d sec cqe_cs (world s) in
    (rc, mk_state w (trace s ++ [EvPoll d sec rc])).

(** *** [unvme_openq], [unvme_open] *)

Definition fmt_bdf_nsid : list Libc.directive :=
  [Libc.Dx; Libc.Dlit ":"; Libc.Dx; Libc.Dlit "."; Libc.Dx; Libc.Dlit "/";
   Libc.Dx].

Definition fmt_bdf : list Libc.directive :=
  [Libc.Dx; Libc.Dlit ":"; Libc.Dx; Libc.Dlit "."; Libc.Dx].

(** The locals [b], [d], [f] (not initialised) and [nsid] (initialised
    to 1). *)
Record pci_vars : Type := mk_vars {
  b : option Z;
  d : option Z;
  f : option Z;
  nsid : Z
}.

Definition assigned (new : option Z) (old : option Z) : option Z :=
  match new with Some v => Some v | None => old end.

(** [sscanf] stores the converted values through [&b, &d, &f, &nsid],
    in this order, as far as it got. *)
Definition store_vars (vals : list Z) (v : pci_vars) : pci_vars :=
  {| b := assigned (vals !! 0%nat) (b v);
     d := assigned (vals !! 1%nat) (d v);
     f := assigned (vals !! 2%nat) (f v);
     nsid := default (nsid v) (vals !! 3%nat) |}.

(** [(b << 16) + (d << 8) + f] in [int]. *)
Definition pci_of (b d f : Z) : Z :=
  CInt.to_int (Z.shiftl b 16 + Z.shiftl d 8 + f).

Definition invalid_queue_args (qcount qsize : Z) : bool :=
  (qcount <? 0) || (qsize <? 0) || (qsize =? 1).

Definition unvme_openq (pciname : string) (qcount qsize : Z)
  : Mon (option unvme_ns_t) :=
  if invalid_queue_args qcount qsize then
    let* _ := ERROR "invalid qcount or qsize" in
    ret None
  else
    let v0 := {| b := None; d := None; f := None; nsid := 1 |} in
    let r4 := Libc.sscanf pciname fmt_bdf_nsid in
    let v1 := store_vars r4.2 v0 in
    (* the second sscanf runs only when the first did not return 4 *)
    let r3 := Libc.sscanf pciname fmt_bdf in
    let v2 := if r4.1 =? 4 then v1 else store_vars r3.2 v1 in
    if negb (r4.1 =? 4) && negb (r3.1 =? 3) then
      let* _ := ERROR "invalid PCI (expect %x:%x.%x[/NSID] format)" in
      ret None
    else
      let pci := pci_of (default 0 (b v2)) (default 0 (d v2)) (default 0 (f v2)) in
      call_do_open pci (nsid v2) qcount qsize.

Definition unvme_open (pciname : string) : Mon (option unvme_ns_t) :=
  unvme_openq pciname 0 0.

(** *** Asynchronous submission and polling *)

Definition unvme_aread (ns : unvme_ns_t) (qid buf slba nlb : Z)
  : Mon (option Desc) :=
  call_rw ns qid NVME_CMD_READ buf slba nlb.

Definition unvme_awrite (ns : unvme_ns_t) (qid buf slba nlb : Z)
  : Mon (option Desc) :=
  call_rw ns qid NVME_CMD_WRITE buf slba nlb.

Definition unvme_atranslate (ns : unvme_ns_t) (qid buf slba : Z)
  : Mon (option Desc) :=
  call_rw_extended ns qid NVME_CMD_WRITE buf slba 1 1.

Definition unvme_atranslate_read (ns : unvme_ns_t) (qid buf slba nlb : Z)
  : Mon (option Desc) :=
  call_rw_extended ns qid NVME_CMD_READ buf slba nlb 1.

Definition unvme_apoll (iod : Desc) (timeout : Z) : Mon Z :=
  call_do_poll iod timeout None.

Definition unvme_apoll_cs (iod : Desc) (timeout : Z) (cqe_cs : Z) : Mon Z :=
  call_do_poll iod timeout (Some cqe_cs).

(** *** Synchronous read, write, flush *)

Definition unvme_read (ns : unvme_ns_t) (qid buf slba nlb : Z) : Mon Z :=
  let* desc := call_rw ns qid NVME_CMD_READ buf slba nlb in
  match desc with
  | Some desc =>
      let* _ := sched_yield in
      call_do_poll desc UNVME_TIMEOUT None
  | None => ret (-1)
  end.

Definition unvme_flush (ns : unvme_ns_t) (qid : Z) : Mon Z :=
  let* desc := call_aflush ns qid in
  match desc with
  | Some desc =>
      let* _ := sched_yield in
      call_do_poll desc UNVME_TIMEOUT None
  | None => ret (-1)
  end.

Definition unvme_write (ns : unvme_ns_t) (qid buf slba nlb : Z) : Mon Z :=
  let* desc := call_rw ns qid NVME_CMD_WRITE buf slba nlb in
  match desc with
  | Some desc =>
      let* _ := sched_yield in
      call_do_poll desc UNVME_TIMEOUT None
  | None => ret (-1)
  end.

End Facade.

(** ** [unvme_translate_region] *)

Section TranslateRegion.

Context {World Desc : Type} {Core : UnvmeCore World Desc}.

Local Abbreviation ST := (state World Desc).
Local Abbreviation Mon := (M World Desc).

(** One cell of the array [desc] obtained from [malloc]: not written yet,
    or holding a descriptor pointer ([None] is NULL). *)
Inductive slot : Type :=
| Uninit
| Ptr (p : option Desc).

(** The locals that change while the function runs. *)
Record locals : Type := mk_locals {
  desc : list slot;
  i : Z;
  j : Z;
  pending : Z;
  readOffset : Z
}.

(** [desc[k]] as an rvalue: outside the [maxiopq] cells that [malloc]
    returned, or in a cell never stored to, the read is a fault. *)
Definition desc_load (a : list slot) (k : Z) : option Desc + fault :=
  if (k <? 0) || (Z.of_nat (length a) <=? k) then inr (OutOfBounds k)
  else
    match a !! Z.to_nat k with
    | Some (Ptr p) => inl p
    | Some Uninit => inr (Indeterminate k)
    | None => inr (OutOfBounds k)
    end.

(** [desc[k] = p].  The source stores at [0] (checked in
    [translate_region_setup]), at [i < maxiopq] in the fill loop, and at
    a [j] whose load has just succeeded. *)
Definition desc_store (a : list slot) (k : Z) (p : option Desc) : list slot :=
  <[Z.to_nat k := Ptr p]> a.

(** [(nlb / ns->maxbpio) + !!(nlb % ns->maxbpio) + 1] in [unsigned int]. *)
Definition nrequests_of (ns : unvme_ns_t) (nlb : Z) : Z :=
  CInt.to_u32 (nlb / maxbpio ns + CInt.notnot (nlb mod maxbpio ns) + 1).

(** [(i == nrequests-1 && nlb % ns->maxbpio) ? nlb % ns->maxbpio
    : ns->maxbpio]; [i] is converted to [unsigned] for the comparison. *)
Definition read_nlb (ns : unvme_ns_t) (nlb nrequests i : Z) : Z :=
  if (CInt.to_u32 i =? CInt.to_u32 (nrequests - 1))
     && negb (nlb mod maxbpio ns =? 0)
  then nlb mod maxbpio ns else maxbpio ns.

(** The read submission that the source writes out twice (in the fill loop
    and in the polling loop), with [readOffset += maxbpio * blocksize]. *)
Definition submit_read (ns : unvme_ns_t) (qid buf slba nlb nrequests : Z)
    (l : locals) : Mon (option Desc) :=
  call_rw_extended ns qid NVME_CMD_READ (buf + readOffset l) slba
    (read_nlb ns nlb nrequests (i l)) 1.

Definition next_readOffset (ns : unvme_ns_t) (l : locals) : Z :=
  CInt.to_u32 (readOffset l + maxbpio ns * blocksize ns).

(** [for (i = 1; i < ns->maxiopq; i++) { if (i >= nrequests) break; ... }].
    [n] bounds the iterations; [maxiopq - 1] is always enough. *)
Fixpoint fill_window (n : nat) (ns : unvme_ns_t) (qid buf slba nlb nrequests : Z)
    (l : locals) : Mon locals :=
  match n with
  | O => ret l
  | S n' =>
      if i l <? maxiopq ns then
        if nrequests <=? CInt.to_u32 (i l) then ret l
        else
          let* r := submit_read ns qid buf slba nlb nrequests l in
          fill_window n' ns qid buf slba nlb nrequests
            {| desc := desc_store (desc l) (i l) r;
               i := CInt.to_int (i l + 1);
               j := j l;
               pending := pending l;
               readOffset := next_readOffset ns l |}
      else ret l
  end.

(** [if (++j == maxj) j = 0;] *)
Definition advance_j (maxj : Z) (l : locals) : locals :=
  let j' := CInt.to_int (j l + 1) in
  {| desc := desc l; i := i l; j := (if j' =? maxj then 0 else j');
     pending := pending l; readOffset := readOffset l |}.

(** The body of the [do ... while (pending > 0)] loop. *)
Definition poll_body (ns : unvme_ns_t) (qid buf slba nlb nrequests maxj : Z)
    (l : locals) : ST -> (locals + fault) * ST :=
  fun s =>
    match desc_load (desc l) (j l) with
    | inr flt => (inr flt, s)
    | inl None => (inl (advance_j maxj l), s)
    | inl (Some dj) =>
        let '(_, s1) := sched_yield s in
        let '(rc, s2) := call_do_poll dj UNVME_TIMEOUT None s1 in
        if rc =? 0 then
          if CInt.to_u32 (i l) <? nrequests then
            let '(r, s3) := submit_read ns qid buf slba nlb nrequests l s2 in
            (inl (advance_j maxj
                    {| desc := desc_store (desc l) (j l) r;
                       i := CInt.to_int (i l + 1);
                       j := j l;
                       pending := pending l;
                       readOffset := next_readOffset ns l |}), s3)
          else
            (inl (advance_j maxj
                    {| desc := desc_store (desc l) (j l) None;
                       i := i l;
                       j := j l;
                       pending := pending l - 1;
                       readOffset := readOffset l |}), s2)
        else (inl (advance_j maxj l), s2)
    end.

(** The polling loop, at most [fuel] iterations; after it, [free(desc);
    return 0]. *)
Fixpoint poll_loop (fuel : nat) (ns : unvme_ns_t)
    (qid buf slba nlb nrequests maxj : Z) (l : locals) (s : ST)
  : outcome Z * ST :=
  match fuel with
  | O => (OutOfFuel, s)
  | S fuel' =>
      match poll_body ns qid buf slba nlb nrequests maxj l s with
      | (inr flt, s') => (Faults flt, s')
      | (inl l', s') =>
          if 0 <? pending l'
          then poll_loop fuel' ns qid buf slba nlb nrequests maxj l' s'
          else (Returns 0, s')
      end
  end.

(** The state when the polling loop is entered: the config write in
    [desc[0]], the window filled, [pending = i], [j = 0]. *)
Definition translate_region_setup (ns : unvme_ns_t)
    (qid buf slba nlb config_nlb : Z) (s : ST) : (locals + fault) * ST :=
  if maxbpio ns =? 0 then (inr DivByZero, s)
  else
    let nrequests := nrequests_of ns nlb in
    let desc0 := replicate (Z.to_nat (maxiopq ns)) Uninit in
    let '(r, s1) :=
      call_rw_extended ns qid NVME_CMD_WRITE buf slba config_nlb 1 s in
    if maxiopq ns <=? 0 then (inr (OutOfBounds 0), s1)
    else
      let '(l1, s2) :=
        fill_window (Z.to_nat (maxiopq ns - 1)) ns qid buf slba nlb nrequests
          {| desc := desc_store desc0 0 r; i := 1; j := 0; pending := 0;
             readOffset := 0 |} s1 in
      (inl {| desc := desc l1; i := i l1; j := 0; pending := i l1;
              readOffset := readOffset l1 |}, s2).

(** [int maxj = (ns->maxbpio < nrequests) ? ns->maxbpio : nrequests;] *)
Definition maxj_of (ns : unvme_ns_t) (nrequests : Z) : Z :=
  CInt.to_int (if maxbpio ns <? nrequests then maxbpio ns else nrequests).

Definition unvme_translate_region (fuel : nat) (ns : unvme_ns_t)
    (qid buf slba nlb config_nlb : Z) (s : ST) : outcome Z * ST :=
  match translate_region_setup ns qid buf slba nlb config_nlb s with
  | (inr flt, s') => (Faults flt, s')
  | (inl l, s') =>
      let nrequests := nrequests_of ns nlb in
      poll_loop fuel ns qid buf slba nlb nrequests (maxj_of ns nrequests) l s'
  end.

End TranslateRegion.

Arguments slot Desc : clear implicits.
Arguments locals Desc : clear implicits.

(** ** A model of the driver core

    [unvme_core.c] is not part of the sources at hand; the facade's
    contract for polling is stated in the specification only.  This module
    gives one implementation of the interface, after the specification's
    words (descriptor table, completion sweep, poll). *)

Module SpecCore.

(** Modelled from the spec: the status word of an I/O descriptor (3),
    PENDING / OK / ERR(code); a FREE slot holds no descriptor. *)
Inductive iod_status : Type :=
| PENDING
| OK
| ERR (code : positive).

#[global] Instance iod_status_eq_dec : EqDecision iod_status.
Proof. solve_decision. Defined.

(** Modelled from the spec: a completion queue entry (4.3), reduced to
    the command id and the (unsigned) status field. *)
Record cqe : Type := mk_cqe {
  cqe_cid : nat;
  cqe_status : N
}.

(** Modelled from the spec: one queue and the device behind it (3, 4.6).
    [table] is the descriptor table
    ([None] is a FREE slot); [cq] holds the entries the device has posted
    and the driver has not yet swept; [script] is what the device will
    post during each further second of waiting. *)
Record sim : Type := mk_sim {
  dev_ns : unvme_ns_t;
  refcount : nat;
  table : list (option iod_status);
  cq : list cqe;
  script : list (list cqe)
}.

Definition with_table (w : sim) (t : list (option iod_status)) : sim :=
  {| dev_ns := dev_ns w; refcount := refcount w; table := t; cq := cq w;
     script := script w |}.

(** Modelled from the spec: the completion sweep (4.3), "set the
    descriptor's status to OK or ERR(status-field)". *)
Definition status_of (sf : N) : iod_status :=
  match sf with
  | N0 => OK
  | Npos p => ERR p
  end.

Definition complete (t : list (option iod_status)) (c : cqe)
  : list (option iod_status) :=
  match t !! cqe_cid c with
  | Some (Some PENDING) => <[cqe_cid c := Some (status_of (cqe_status c))]> t
  | _ => t
  end.

Definition sweep (w : sim) : sim :=
  {| dev_ns := dev_ns w; refcount := refcount w;
     table := foldl complete (table w) (cq w); cq := [];
     script := script w |}.

(** Modelled from the spec: one second of busy-waiting (5, "polling is
    a busy-wait"); the device posts its next batch. *)
Definition tick (w : sim) : sim :=
  {| dev_ns := dev_ns w; refcount := refcount w; table := table w;
     cq := cq w ++ hd [] (script w); script := tl (script w) |}.

Definition free_slot (cid : nat) (w : sim) : sim :=
  with_table w (<[cid := None]> (table w)).

(** Modelled from the spec: [unvme_do_poll], after 4.5 and 7, "return
    0/err when complete; -1 on timeout; frees the IOD on non-timeout";
    "poll returns 0 or a positive status code from the device, or -1 for
    TIMEOUT"; on timeout "the slot stays reserved". *)
Fixpoint poll_wait (budget : nat) (cid : nat) (w : sim) : Z * sim :=
  let w1 := sweep w in
  match table w1 !! cid with
  | Some (Some OK) => (0, free_slot cid w1)
  | Some (Some (ERR c)) => (Z.pos c, free_slot cid w1)
  | _ =>
      match budget with
      | O => (-1, w1)
      | S budget' => poll_wait budget' cid (tick w1)
      end
  end.

Definition do_poll (cid : nat) (sec : Z) (cqe_cs : option Z) (w : sim)
  : Z * sim :=
  poll_wait (Z.to_nat sec) cid w.

(** Modelled from the spec: submission (4.3, 4.6), "the next free slot is
    the lowest index with status=FREE"; "fails with QUEUE_FULL when no
    slot is free"; at most N-1 commands of a queue of depth N are in
    flight. *)
Fixpoint find_free (t : list (option iod_status)) : option nat :=
  match t with
  | [] => None
  | None :: _ => Some O
  | Some _ :: t' => S <$> find_free t'
  end.

Definition in_flight (t : list (option iod_status)) : nat :=
  length (filter is_Some t).

Definition submit (w : sim) : option nat * sim :=
  if bool_decide (S (in_flight (table w)) < length (table w))%nat then
    match find_free (table w) with
    | Some s => (Some s, with_table w (<[s := Some PENDING]> (table w)))
    | None => (None, w)
    end
  else (None, w).

(** Modelled from the spec: the argument constraint of 4.5, "nlb >= 1 and
    <= maxbpio", else BAD_ARG with no state change. *)
Definition rw (ns : unvme_ns_t) (nlb : Z) (w : sim) : option nat * sim :=
  if (1 <=? nlb) && (nlb <=? maxbpio ns) then submit w else (None, w).

(** Modelled from the spec: [unvme_do_open] (4.7), reduced to the
    reference count of the one device of the model. *)
Definition do_open (w : sim) : option unvme_ns_t * sim :=
  (Some (dev_ns w),
   {| dev_ns := dev_ns w; refcount := S (refcount w); table := table w;
      cq := cq w; script := script w |}).

(** Modelled from the spec: the device posts a completion entry. *)
Definition device_completes (c : cqe) (w : sim) : sim :=
  {| dev_ns := dev_ns w; refcount := refcount w; table := table w;
     cq := cq w ++ [c]; script := script w |}.

Definition core (default_timeout : Z) : UnvmeCore sim nat := {|
  UNVME_TIMEOUT := default_timeout;
  unvme_do_open := fun _ _ _ _ w => do_open w;
  unvme_rw := fun ns _ _ _ _ nlb w => rw ns nlb w;
  unvme_rw_extended := fun ns _ _ _ _ nlb _ w => rw ns nlb w;
  unvme_aflush := fun _ _ w => submit w;
  unvme_do_poll := do_poll
|}.

(** The three ways a poll of a live descriptor ends. *)
Definition poll_result (cid : nat) (r : Z * sim) : Prop :=
  (r.1 = 0 /\ table r.2 !! cid = Some None)
  \/ ((exists c, r.1 = Z.pos c) /\ table r.2 !! cid = Some None)
  \/ (r.1 = -1 /\ table r.2 !! cid = Some (Some PENDING) /\ cq r.2 = []).

(** What the device has to say, by second of waiting: batch 0 is what
    lies in the completion queue when the poll begins, batch [k] what the
    device posts during the [k]-th second. *)
Definition batches (w : sim) : list (list cqe) := cq w :: script w.

Definition batch_at (w : sim) (k : nat) : list cqe :=
  default [] (batches w !! k).

(** The status field of the first entry of [batch] for the command
    [cid]; [None] when the batch has no entry for it. *)
Definition answer (cid : nat) (batch : list cqe) : option N :=
  cqe_status <$> List.find (fun c => bool_decide (cqe_cid c = cid)) batch.

End SpecCore.

(** ** A model of the session open

    [unvme_do_open] is part of [unvme_core.c] too.  This module puts the
    queue model of [SpecCore] behind a controller with advertised limits,
    after the specification's words on the open of a session. *)

Module SpecSession.

(** Modelled from the spec: the hardware limits of the namespace handle
    (3, "max queue count, max queue size"), as the controller advertises
    them, and the defaults that stand in for a queue count and size the
    caller did not specify (4.4). *)
Record controller : Type := mk_controller {
  maxqcount : Z;
  maxqsize : Z;
  default_qcount : Z;
  default_qsize : Z
}.

(** Modelled from the spec: the "configured I/O queue count, configured
    queue size" of the namespace handle (3). *)
Record config : Type := mk_config {
  qcount : Z;
  qsize : Z
}.

(** Modelled from the spec: the device of a session (3), its
    controller, the configuration of the session if one is open, and the
    queue with its descriptors. *)
Record dev : Type := mk_dev {
  ctrl : controller;
  session : option config;
  queue : SpecCore.sim
}.

(** Modelled from the spec: 4.4, "creates the requested number of I/O
    queues.  If the caller did not specify qcount/qsize, defaults are
    clamped against controller-advertised maxima."  Not specified is 0. *)
Definition configured (requested default maximum : Z) : Z :=
  if requested =? 0 then Z.min default maximum else requested.

(** Modelled from the spec: [unvme_do_open] after 4.7, "if session
    exists, bump refcount and return its namespace handle; else allocate
    session, bring up the device, build queues". *)
Definition do_open (qcount qsize : Z) (w : dev) : option unvme_ns_t * dev :=
  let '(ns, q) := SpecCore.do_open (queue w) in
  let ses :=
    match session w with
    | Some c => c
    | None =>
        {| qcount := configured qcount (default_qcount (ctrl w))
                       (maxqcount (ctrl w));
           qsize := configured qsize (default_qsize (ctrl w))
                      (maxqsize (ctrl w)) |}
    end in
  (ns, {| ctrl := ctrl w; session := Some ses; queue := q |}).

(** An operation of the queue model, run on the queue of the device. *)
Definition on_queue {A : Type} (op : SpecCore.sim -> A * SpecCore.sim)
    (w : dev) : A * dev :=
  let '(a, q) := op (queue w) in
  (a, {| ctrl := ctrl w; session := session w; queue := q |}).

Definition core (default_timeout : Z) : UnvmeCore dev nat := {|
  UNVME_TIMEOUT := default_timeout;
  unvme_do_open := fun _ _ qcount qsize w => do_open qcount qsize w;
  unvme_rw := fun ns _ _ _ _ nlb w => on_queue (SpecCore.rw ns nlb) w;
  unvme_rw_extended := fun ns _ _ _ _ nlb _ w => on_queue (SpecCore.rw ns nlb) w;
  unvme_aflush := fun _ _ w => on_queue SpecCore.submit w;
  unvme_do_poll := fun cid sec cqe_cs w =>
    on_queue (SpecCore.do_poll cid sec cqe_cs) w
|}.

End SpecSession.

(** ** The test program [test/nvme/nvme_set_features.c] *)

Module SetFeatures.

(** What [main] uses from [nvme_common.c], [nvme.h] and the VFIO layer:
    the setup and cleanup of the device, the DMA allocation (the bus
    address of the buffer, or [None] for NULL), the admin command, and the
    constants.  The admin command takes the value of [*res] on entry and
    returns the error code and the value of [*res] on exit. *)
Class NvmeEnv (World : Type) : Type := {
  NVME_FEATURE_ARBITRATION : Z;
  NVME_FEATURE_POWER_MGMT : Z;
  NVME_FEATURE_LBA_RANGE : Z;
  NVME_FEATURE_TEMP_THRESHOLD : Z;
  NVME_FEATURE_ERROR_RECOVERY : Z;
  NVME_FEATURE_WRITE_CACHE : Z;
  NVME_FEATURE_NUM_QUEUES : Z;
  NVME_FEATURE_INT_COALESCING : Z;
  NVME_FEATURE_INT_VECTOR : Z;
  NVME_FEATURE_WRITE_ATOMICITY : Z;
  NVME_FEATURE_ASYNC_EVENT : Z;
  sizeof_nvme_feature_lba_data_t : Z;
  nvme_setup : string -> Z -> World -> World;
  vfio_dma_alloc : Z -> World -> option Z * World;
  nvme_acmd_get_features : Z -> Z -> Z -> Z -> Z -> World -> (Z * Z) * World;
  nvme_cleanup : World -> World
}.

Inductive io : Type :=
| Warnx (msg : string)
| Errx (msg : string)
| Setup (pciname : string) (aqsize : Z)
| DmaAlloc (size : Z)
| GetFeatures (nsid fid prp1 prp2 res_in : Z) (err res_out : Z)
| Printf (fid : Z) (res : Z)
| Cleanup.

Section Main.

Context {World : Type} {Env : NvmeEnv World}.

Definition usage : string := "Usage: %s PCINAME NSID FEATURE_ID FEATURE_ARG".

(** [argv[k]]; [main] only reads below [argc]. *)
Definition arg (argv : list string) (k : nat) : string :=
  default EmptyString (argv !! k).

Definition is_empty (s : string) : bool :=
  match s with EmptyString => true | String _ _ => false end.

(** The last [if ... else if] chain: one line for the feature [fid], read
    out of [res]. *)
Definition printed (fid : Z) : bool :=
  (fid =? NVME_FEATURE_ARBITRATION) || (fid =? NVME_FEATURE_POWER_MGMT)
  || (fid =? NVME_FEATURE_TEMP_THRESHOLD) || (fid =? NVME_FEATURE_ERROR_RECOVERY)
  || (fid =? NVME_FEATURE_WRITE_CACHE) || (fid =? NVME_FEATURE_NUM_QUEUES)
  || (fid =? NVME_FEATURE_INT_COALESCING) || (fid =? NVME_FEATURE_INT_VECTOR)
  || (fid =? NVME_FEATURE_WRITE_ATOMICITY) || (fid =? NVME_FEATURE_ASYNC_EVENT).

(** [main (argc, argv)] with [argc = length argv]; the result is the exit
    status, the final world and what the program did, in order. *)
Definition main (argv : list string) (w : World) : Z * World * list io :=
  let argc := Z.of_nat (length argv) in
  if argc <? 5 then (1, w, [Warnx usage])
  else
    let '(v, s) := Libc.strtol0 (arg argv 2) in
    let nsid := CInt.to_int v in
    if negb (is_empty s) then (1, w, [Warnx usage])
    else
      let '(v, s) := Libc.strtol0 (arg argv 3) in
      let fid := CInt.to_int v in
      if negb (is_empty s) then (1, w, [Warnx usage])
      else
        let '(v, s) := Libc.strtol0 (arg argv 3) in
        let res := CInt.to_u32 v in
        if negb (is_empty s) then (1, w, [Warnx usage])
        else if (fid <? NVME_FEATURE_ARBITRATION)
                || (NVME_FEATURE_ASYNC_EVENT <? fid)
                || (fid =? NVME_FEATURE_LBA_RANGE)
        then (1, w, [Errx "features_id not supported"])
        else
          let w1 := nvme_setup (arg argv 1) 8 w in
          let t1 := [Setup (arg argv 1) 8] in
          let '(dma, w2) := vfio_dma_alloc sizeof_nvme_feature_lba_data_t w1 in
          let t2 := t1 ++ [DmaAlloc sizeof_nvme_feature_lba_data_t] in
          match dma with
          | None => (1, w2, t2 ++ [Errx "vfio_dma_alloc"])
          | Some prp1 =>
              let '(err, res', w3) :=
                nvme_acmd_get_features nsid fid prp1 0 res w2 in
              let t3 := t2 ++ [GetFeatures nsid fid prp1 0 res err res'] in
              if negb (err =? 0) then (1, w3, t3 ++ [Errx "set_features failed"])
              else
                let t4 := if printed fid then t3 ++ [Printf fid res'] else t3 in
                (0, nvme_cleanup w3, t4 ++ [Cleanup])
          end.

End Main.

(** A device for running [main]: feature identifiers as NVMe numbers them
    (and as [main] prints them in front of each line), a command that
    always succeeds and replies with the world's current value. *)
Definition echo_env : NvmeEnv Z := {|
  NVME_FEATURE_ARBITRATION := 1;
  NVME_FEATURE_POWER_MGMT := 2;
  NVME_FEATURE_LBA_RANGE := 3;
  NVME_FEATURE_TEMP_THRESHOLD := 4;
  NVME_FEATURE_ERROR_RECOVERY := 5;
  NVME_FEATURE_WRITE_CACHE := 6;
  NVME_FEATURE_NUM_QUEUES := 7;
  NVME_FEATURE_INT_COALESCING := 8;
  NVME_FEATURE_INT_VECTOR := 9;
  NVME_FEATURE_WRITE_ATOMICITY := 10;
  NVME_FEATURE_ASYNC_EVENT := 11;
  sizeof_nvme_feature_lba_data_t := 4096;
  nvme_setup := fun _ _ w => w;
  vfio_dma_alloc := fun _ w => (Some 65536, w);
  nvme_acmd_get_features := fun _ _ _ _ _ w => (0, w, w);
  nvme_cleanup := fun w => w
|}.

End SetFeatures.

(** ** Vocabulary of the properties *)

Section Vocabulary.

Context {World Desc : Type} {Core : UnvmeCore World Desc}.

Local Abbreviation ST := (state World Desc).
Local Abbreviation Mon := (M World Desc).

(** "Submit then poll with default timeout": the synchronous operation as
    the specification words it, over the asynchronous submission
    [submit] and [unvme_apoll].  A failed submission gives -1. *)
Definition submit_then_poll (submit : Mon (option Desc)) : Mon Z :=
  let* iod := submit in
  match iod with
  | Some iod => unvme_apoll iod UNVME_TIMEOUT
  | None => ret (-1)
  end.

(** [sched_yield] changes nothing in the model but its own record in the
    trace; two runs are compared with these records erased. *)
Definition is_yield (e : event Desc) : bool :=
  match e with EvYield => true | _ => false end.

Definition erase_yield (tr : list (event Desc)) : list (event Desc) :=
  filter (fun e => is_yield e = false) tr.

Definition same_run {A : Type} (r1 r2 : A * ST) : Prop :=
  r1.1 = r2.1 /\ world r1.2 = world r2.2
  /\ erase_yield (trace r1.2) = erase_yield (trace r2.2).

Definition is_poll (e : event Desc) : bool :=
  match e with EvPoll _ _ _ => true | _ => false end.

(** Block count of a vendor-extended read submission. *)
Definition read_size (e : event Desc) : option Z :=
  match e with
  | EvRwExtended _ NVME_CMD_READ _ _ nlb _ _ => Some nlb
  | _ => None
  end.

Definition submitted_reads (tr : list (event Desc)) : list Z :=
  omap read_size tr.

(** Descriptors in flight after the calls of [tr]: every submission that
    returned a descriptor takes one, every poll that reported completion
    gives one back. *)
Definition flight_delta (e : event Desc) : Z :=
  match e with
  | EvRw _ _ _ _ _ (Some _) => 1
  | EvRwExtended _ _ _ _ _ _ (Some _) => 1
  | EvAflush _ (Some _) => 1
  | EvPoll _ _ rc => if rc =? 0 then -1 else 0
  | _ => 0
  end.

Definition in_flight (tr : list (event Desc)) : Z :=
  foldr (fun e n => flight_delta e + n) 0 tr.

(** [ceil (a / b)] for [b > 0]. *)
Definition ceil_div (a b : Z) : Z := (a + b - 1) / b.

(** The reads the specification plans: full reads of [maxbpio] blocks and
    a short last one when [nlb] is not a multiple. *)
Definition read_plan (ns : unvme_ns_t) (nlb : Z) : list Z :=
  replicate (Z.to_nat (nlb / maxbpio ns)) (maxbpio ns)
  ++ (if nlb mod maxbpio ns =? 0 then [] else [nlb mod maxbpio ns]).

Definition sum_list (l : list Z) : Z := foldr Z.add 0 l.



(** One of the two formats of [unvme_openq] matches the name. *)
Definition name_matches (pciname : string) : bool :=
  ((Libc.sscanf pciname fmt_bdf_nsid).1 =? 4)
  || ((Libc.sscanf pciname fmt_bdf).1 =? 3).

End Vocabulary.

(** ** Scenarios

    Concrete namespaces and device states on which the models are run. *)

Module Scenario.

(** The namespace of the specification's scenario S5: [maxbpio = 256],
    [maxiopq = 4], 4096-byte blocks. *)
Definition ns_s5 : unvme_ns_t := mk_ns 1 4096 256 4.

(** A namespace whose window and transfer limits agree:
    [maxbpio = maxiopq = 4], 512-byte blocks. *)
Definition ns_small : unvme_ns_t := mk_ns 1 512 4 4.

(** The narrowest namespace: one block per I/O, one I/O per queue. *)
Definition ns_one : unvme_ns_t := mk_ns 1 512 1 1.

Definition ok (cid : nat) : SpecCore.cqe := SpecCore.mk_cqe cid 0.

(** A queue of depth 8, idle, whose device completes the commands 0..3
    during the first second of waiting. *)
Definition prompt_device (ns : unvme_ns_t) : SpecCore.sim :=
  SpecCore.mk_sim ns 0 (replicate 8 None) [] [[ok 0; ok 1; ok 2; ok 3]].

(** The same queue on a device that completes nothing. *)
Definition silent_device (ns : unvme_ns_t) : SpecCore.sim :=
  SpecCore.mk_sim ns 0 (replicate 8 None) [] [].

(** The state of scenario S4 after its [awrite]: command 0 outstanding on
    a device that has not answered. *)
Definition one_pending (ns : unvme_ns_t) : SpecCore.sim :=
  SpecCore.mk_sim ns 0 (Some SpecCore.PENDING :: replicate 7 None) [] [].

Definition fresh (w : SpecCore.sim) : state SpecCore.sim nat := mk_state w [].

(** Command 0 outstanding on a device that answers during the third
    second of waiting, with status 5. *)
Definition slow_device (ns : unvme_ns_t) : SpecCore.sim :=
  SpecCore.mk_sim ns 0 (Some SpecCore.PENDING :: replicate 7 None) []
    [[]; []; [SpecCore.mk_cqe 0 5]].

(** A controller that advertises 4 queues of 64 entries, under a driver
    whose defaults are 8 queues of 32 entries; no session is open. *)
Definition closed_device (ns : unvme_ns_t) : SpecSession.dev :=
  SpecSession.mk_dev (SpecSession.mk_controller 4 64 8 32) None
    (silent_device ns).

End Scenario.

(** ** Invariants of [unvme_translate_region] *)

Section Invariants.

Context {World Desc : Type} {Core : UnvmeCore World Desc}.

Local Abbreviation ST := (state World Desc).

Variables (ns : unvme_ns_t) (qid buf slba nlb config_nlb : Z).

Local Abbreviation nreq := (nrequests_of ns nlb).
Local Abbreviation m := (maxiopq ns).

(** What holds of the counter [i] and of the trace from the config write
    on: the reads numbered [1 .. i-1] have been submitted, in order,
    after the config write. *)
Definition plan_inv (l : locals Desc) (s : ST) : Prop :=
  1 <= CInt.to_u32 (i l) <= nreq
  /\ submitted_reads (trace s)
     = read_nlb ns nlb nreq <$> seqZ 1 (CInt.to_u32 (i l) - 1)
  /\ exists d rest,
       trace s = EvRwExtended qid NVME_CMD_WRITE buf slba config_nlb 1 d :: rest.

Definition fill_inv (l : locals Desc) (s : ST) : Prop :=
  plan_inv l s /\ 1 <= i l <= Z.max 1 (maxiopq ns).

Definition loop_inv (l : locals Desc) (s : ST) : Prop :=
  plan_inv l s /\ (1 <= pending l \/ CInt.to_u32 (i l) = nreq).

(** The config write stays at the head of the trace. *)
Definition config_first (s : ST) : Prop :=
  exists d rest,
    trace s = EvRwExtended qid NVME_CMD_WRITE buf slba config_nlb 1 d :: rest.

(** The first [k] cells of [desc] have been stored to. *)
Definition stored_below (k : Z) (a : list (slot Desc)) : Prop :=
  forall n : nat, Z.of_nat n < k -> exists p, a !! n = Some (Ptr p).

(** Where the first [maxiopq] iterations of the polling loop stand:
    [j] counts them, the array is full, and [pending] cannot have
    reached 0, because the first completion refills its slot. *)
Definition window_inv (l : locals Desc) : Prop :=
  0 <= j l <= m
  /\ length (desc l) = Z.to_nat m
  /\ stored_below m (desc l)
  /\ ((pending l = m /\ CInt.to_u32 (i l) < nreq) \/ m - j l + 1 <= pending l).

(** Every prefix of the trace has at most [bound] descriptors in flight. *)
Definition prefixes_within (bound : Z) (tr : list (event Desc)) : Prop :=
  forall k : nat, in_flight (take k tr) <= bound.

(** During the fill loop at most [i] descriptors are out; in the polling
    loop at most [pending]. *)
Definition flight_inv (count : locals Desc -> Z) (l : locals Desc) (s : ST)
  : Prop :=
  prefixes_within m (trace s) /\ in_flight (trace s) <= count l /\ count l <= m.

(** Cells of [desc] that hold a descriptor. *)
Definition live1 (c : slot Desc) : Z :=
  match c with Ptr (Some _) => 1 | _ => 0 end.

Definition live_slots (a : list (slot Desc)) : Z :=
  foldr (fun c n => live1 c + n) 0 a.

(** Submissions that returned NULL. *)
Definition failed1 (e : event Desc) : Z :=
  match e with EvRwExtended _ _ _ _ _ _ None => 1 | _ => 0 end.

Definition failed_submissions (tr : list (event Desc)) : Z :=
  foldr (fun e n => failed1 e + n) 0 tr.

(** A submission that failed leaves a NULL in its cell, which is counted
    in [i] and [pending] and never polled. *)
Definition dead_inv (count : locals Desc -> Z) (l : locals Desc) (s : ST)
  : Prop :=
  failed_submissions (trace s) + live_slots (desc l) <= count l.

End Invariants.

Local Abbreviation stalled_world :=
  (SpecCore.mk_sim Scenario.ns_small 0
     (replicate 4 (Some SpecCore.PENDING) ++ replicate 4 None) [] []).

(** On a device that completes nothing, with 20 blocks to read in reads
    of 4 and a window of 4: the loop polls the four outstanding commands
    in turn, for ever. *)
Definition stalled_inv (l : locals nat) (s : state SpecCore.sim nat) : Prop :=
  world s = stalled_world
  /\ submitted_reads (trace s) = [4; 4; 4]
  /\ desc l = [Ptr (Some 0%nat); Ptr (Some 1%nat); Ptr (Some 2%nat);
               Ptr (Some 3%nat)]
  /\ 0 <= j l < 4
  /\ pending l = 4.

(** ** Further invariants of [unvme_translate_region] *)

Section StarvedInvariants.

Context {World Desc : Type} {Core : UnvmeCore World Desc}.

Local Abbreviation ST := (state World Desc).

Variables (ns : unvme_ns_t).

(** The cell [desc[k]] holds what a submission returned, and when that
    was NULL the trace has the failed submission. *)
Definition kept_slot (k : Z) (l : locals Desc) (s : ST) : Prop :=
  exists r,
    desc l !! Z.to_nat k = Some (Ptr r)
    /\ (r = None -> 1 <= failed_submissions (trace s)).

(** While the window is filled. *)
Definition starved_fill_inv (l : locals Desc) (s : ST) : Prop :=
  dead_inv i l s
  /\ 1 <= i l <= maxiopq ns
  /\ length (desc l) = Z.to_nat (maxiopq ns)
  /\ (maxbpio ns < i l -> kept_slot (maxbpio ns) l s).

(** In the polling loop, when [maxj = maxbpio] is inside the window: the
    index stays below [maxbpio], and the cell [desc[maxbpio]] is never
    looked at again. *)
Definition starved_inv (l : locals Desc) (s : ST) : Prop :=
  dead_inv pending l s
  /\ 0 <= j l < maxbpio ns
  /\ kept_slot (maxbpio ns) l s.

(** With a core that accepts every submission and completes every command
    at its first poll, the [pending] cells from [j] on, cyclically in a
    window of [w] cells, hold descriptors; while reads remain the window
    is full. *)
Definition live_at (a : list (slot Desc)) (k : Z) : Prop :=
  exists d, a !! Z.to_nat k = Some (Ptr (Some d)).

Definition prompt_inv (w nrequests : Z) (l : locals Desc) : Prop :=
  0 <= j l < w
  /\ 0 <= pending l <= w
  /\ Z.of_nat (length (desc l)) >= w
  /\ CInt.to_u32 (i l) <= nrequests
  /\ (CInt.to_u32 (i l) < nrequests -> pending l = w)
  /\ (forall t, 0 <= t < pending l -> live_at (desc l) ((j l + t) mod w)).

(** The core accepts every submission and every poll reports
    completion. *)
Definition always_prompt : Prop :=
  (forall ns qid opc buf slba nlb cfg w,
     is_Some (unvme_rw_extended ns qid opc buf slba nlb cfg w).1)
  /\ (forall d sec cs w, (unvme_do_poll d sec cs w).1 = 0).

(** The window while it is filled, on a core that accepts every
    submission. *)
Definition filled_inv (nlb : Z) (l : locals Desc) (s : ST) : Prop :=
  1 <= i l <= maxiopq ns /\ i l <= nrequests_of ns nlb
  /\ length (desc l) = Z.to_nat (maxiopq ns)
  /\ (forall k, 0 <= k < i l -> live_at (desc l) k).

End StarvedInvariants.

(** A core whose every submission succeeds and whose every poll reports
    completion; the world counts the descriptors handed out. *)
Definition ideal_core : UnvmeCore nat nat := {|
  UNVME_TIMEOUT := 60;
  unvme_do_open := fun _ _ _ _ w => (None, w);
  unvme_rw := fun _ _ _ _ _ _ w => (Some w, S w);
  unvme_rw_extended := fun _ _ _ _ _ _ _ w => (Some w, S w);
  unvme_aflush := fun _ _ w => (Some w, S w);
  unvme_do_poll := fun _ _ _ w => (0, w)
|}.

Module Scenario2.

(** Transfers of at most 2 blocks under a window of 4. *)
Definition ns_narrow : unvme_ns_t := mk_ns 1 512 2 4.

End Scenario2.

(** ** The region transfer of the embedding library
    ([test/unvme/unvme_embed_lib.c]; the same [io_submit] and [rw_region]
    are in [unvme_embed_test.c] and [unvme_trans_test.c], where [timeout]
    is set by the caller) *)

Module EmbedLib.

(** The time-stamp counter of [rdtsc.h]. *)
Class Rdtsc (World : Type) : Type := {
  rdtsc : World -> Z * World;
  rdtsc_second : World -> Z * World;
  rdtsc_elapse : Z -> World -> Z * World
}.

(** The fields [pagesize] and [nbpp] (blocks per page) of [unvme_ns_t]. *)
Record geometry : Type := mk_geometry {
  pagesize : Z;
  nbpp : Z
}.

(** [bw_page_t]; the fields are [buf], [lba], [iod], [tsc]. *)
Record bw_page (Desc : Type) : Type := mk_page {
  p_buf : Z;
  p_lba : Z;
  p_iod : option Desc;
  p_tsc : Z
}.

Arguments mk_page {Desc} p_buf p_lba p_iod p_tsc.
Arguments p_buf {Desc} b.
Arguments p_lba {Desc} b.
Arguments p_iod {Desc} b.
Arguments p_tsc {Desc} b.

(** How a run ends: by returning, by [errx], by a fault of the abstract
    machine, or not within the bound on the iterations. *)
Inductive result (A : Type) : Type :=
| Done (a : A)
| Errx (status : Z)
| Trap (f : fault)
| Unfinished.

Arguments Done {A} a.
Arguments Errx {A} status.
Arguments Trap {A} f.
Arguments Unfinished {A}.

(** [u64] arithmetic. *)
Definition to_u64 (x : Z) : Z := x mod 2 ^ 64.

Section Region.

Context {World Desc : Type} {Core : UnvmeCore World Desc} {Clock : Rdtsc World}.

Local Abbreviation ST := (state World Desc).

(** The globals [ns] (with its geometry) and [qsize]. *)
Variables (ns : unvme_ns_t) (geo : geometry) (qsize : Z).

Definition call_rdtsc (s : ST) : Z * ST :=
  let '(t, w) := rdtsc (world s) in (t, mk_state w (trace s)).

Definition call_rdtsc_second (s : ST) : Z * ST :=
  let '(t, w) := rdtsc_second (world s) in (t, mk_state w (trace s)).

Definition call_rdtsc_elapse (tsc : Z) (s : ST) : Z * ST :=
  let '(t, w) := rdtsc_elapse tsc (world s) in (t, mk_state w (trace s)).

(** [io_submit (q, rw, p)]: the page with its descriptor and time stamp,
    or the exit status of [IOERROR]. *)
Definition io_submit (q rw : Z) (p : bw_page Desc) (s : ST)
  : (bw_page Desc + Z) * ST :=
  let '(t, s1) := call_rdtsc s in
  let '(r, s2) :=
    if rw =? 0
    then unvme_aread ns q (p_buf p) (p_lba p) (nbpp geo) s1
    else unvme_awrite ns q (p_buf p) (p_lba p) (nbpp geo) s1 in
  match r with
  | Some d => (inl (mk_page (p_buf p) (p_lba p) (Some d) t), s2)
  | None => (inr 1, s2)
  end.

(** The first loop: [n] pages from [buf_p] and [lba] on, in memory that
    [calloc] has zeroed; also the final [buf_p] and [lba]. *)
Fixpoint init_pages (n : nat) (buf_p lba : Z) : list (bw_page Desc) * (Z * Z) :=
  match n with
  | O => ([], (buf_p, lba))
  | S n' =>
      let '(ps, fin) :=
        init_pages n' (buf_p + pagesize geo) (to_u64 (lba + nbpp geo)) in
      (mk_page buf_p lba None 0 :: ps, fin)
  end.

(** [pages[k]], inside the [qdepth] entries allocated. *)
Definition page_load (a : list (bw_page Desc)) (k : Z) : bw_page Desc + fault :=
  if (k <? 0) || (Z.of_nat (length a) <=? k) then inr (OutOfBounds k)
  else
    match a !! Z.to_nat k with
    | Some p => inl p
    | None => inr (OutOfBounds k)
    end.

(** The second loop: [for (i = 0; i < qdepth; i++) io_submit (q, rw,
    pages + i)], from [i = k] with [n] iterations left. *)
Fixpoint submit_pages (n : nat) (q rw : Z) (k : Z) (a : list (bw_page Desc))
    (s : ST) : result (list (bw_page Desc)) * ST :=
  match n with
  | O => (Done a, s)
  | S n' =>
      match page_load a k with
      | inr flt => (Trap flt, s)
      | inl p =>
          match io_submit q rw p s with
          | (inl p', s') =>
              submit_pages n' q rw (k + 1) (<[Z.to_nat k := p']> a) s'
          | (inr status, s') => (Errx status, s')
          end
      end
  end.

(** The locals of [rw_region] in its polling loop. *)
Record rw_locals : Type := mk_rw_locals {
  pages : list (bw_page Desc);
  idx : Z;          (* i *)
  rw_pending : Z;   (* pending *)
  buf_p : Z;
  cur_lba : Z       (* lba *)
}.

(** [if (++i == qdepth) i = 0;] *)
Definition next_idx (qdepth : Z) (l : rw_locals) : rw_locals :=
  let i' := CInt.to_int (idx l + 1) in
  {| pages := pages l; idx := (if i' =? qdepth then 0 else i');
     rw_pending := rw_pending l; buf_p := buf_p l; cur_lba := cur_lba l |}.

(** The body of the [do ... while (pending > 0)] loop. *)
Definition rw_body (slba nlb rw q qdepth timeout : Z) (l : rw_locals) (s : ST)
  : result rw_locals * ST :=
  match page_load (pages l) (idx l) with
  | inr flt => (Trap flt, s)
  | inl p =>
      match p_iod p with
      | None => (Done (next_idx qdepth l), s)
      | Some d =>
          let '(rc, s1) := unvme_apoll d 0 s in
          if rc =? 0 then
            if cur_lba l <? to_u64 (slba + nlb) then
              match io_submit q rw
                      (mk_page (buf_p l) (cur_lba l) (p_iod p) (p_tsc p)) s1 with
              | (inl p', s2) =>
                  (Done (next_idx qdepth
                           {| pages := <[Z.to_nat (idx l) := p']> (pages l);
                              idx := idx l;
                              rw_pending := rw_pending l;
                              buf_p := buf_p l + pagesize geo;
                              cur_lba := to_u64 (cur_lba l + nbpp geo) |}), s2)
              | (inr status, s2) => (Errx status, s2)
              end
            else
              (Done (next_idx qdepth
                       {| pages := <[Z.to_nat (idx l) :=
                                       mk_page (p_buf p) (p_lba p) None (p_tsc p)]>
                                     (pages l);
                          idx := idx l;
                          rw_pending := rw_pending l - 1;
                          buf_p := buf_p l;
                          cur_lba := cur_lba l |}), s1)
          else
            let '(e, s2) := call_rdtsc_elapse (p_tsc p) s1 in
            if timeout <? e then (Errx 1, s2)
            else (Done (next_idx qdepth l), s2)
      end
  end.

Fixpoint rw_loop (fuel : nat) (slba nlb rw q qdepth timeout : Z)
    (l : rw_locals) (s : ST) : result unit * ST :=
  match fuel with
  | O => (Unfinished, s)
  | S fuel' =>
      match rw_body slba nlb rw q qdepth timeout l s with
      | (Done l', s') =>
          if 0 <? rw_pending l'
          then rw_loop fuel' slba nlb rw q qdepth timeout l' s'
          else (Done tt, s')
      | (Errx status, s') => (Errx status, s')
      | (Trap flt, s') => (Trap flt, s')
      | (Unfinished, s') => (Unfinished, s')
      end
  end.

(** [rw_region (buf, slba, nlb, rw, q)], with at most [fuel] iterations
    of the polling loop.  Pointers are not wrapped. *)
Definition rw_region (fuel : nat) (buf slba nlb rw q : Z) (s : ST)
  : result unit * ST :=
  let '(sec, s0) := call_rdtsc_second s in
  let timeout := to_u64 (30 * sec) in
  let qdepth := CInt.to_int (qsize - 1) in
  let '(pages0, (buf_p0, lba0)) := init_pages (Z.to_nat qdepth) buf slba in
  match submit_pages (Z.to_nat qdepth) q rw 0 pages0 s0 with
  | (Done pages1, s1) =>
      rw_loop fuel slba nlb rw q qdepth timeout
        {| pages := pages1; idx := 0; rw_pending := qdepth;
           buf_p := buf_p0; cur_lba := lba0 |} s1
  | (Errx status, s1) => (Errx status, s1)
  | (Trap flt, s1) => (Trap flt, s1)
  | (Unfinished, s1) => (Unfinished, s1)
  end.

(** *** What a run of [rw_region] asks of the driver *)

(** The [unvme_rw] calls of a trace, oldest first: queue, opcode, buffer,
    first block, number of blocks. *)
Definition rw_call (e : event Desc) : option (Z * nvme_opc * Z * Z * Z) :=
  match e with
  | EvRw qid opc b sl n _ => Some (qid, opc, b, sl, n)
  | _ => None
  end.

Definition rw_calls (tr : list (event Desc)) : list (Z * nvme_opc * Z * Z * Z) :=
  omap rw_call tr.

Definition opc_of (rw : Z) : nvme_opc :=
  if rw =? 0 then NVME_CMD_READ else NVME_CMD_WRITE.

(** The transfers of the first [n] pages of the region at [buf] and
    [slba]. *)
Definition page_calls (buf slba rw q : Z) (n : Z)
  : list (Z * nvme_opc * Z * Z * Z) :=
  (fun k => (q, opc_of rw, buf + k * pagesize geo,
             to_u64 (slba + k * nbpp geo), nbpp geo)) <$> seqZ 0 n.

(** A submission the driver refused. *)
Definition refused (e : event Desc) : Prop :=
  match e with EvRw _ _ _ _ _ None => True | _ => False end.

(** The pages of the region: as many as the whole queue depth, or as many
    as cover [nlb] blocks if that is more. *)
Definition region_pages (nlb : Z) : Z :=
  Z.max (CInt.to_int (qsize - 1)) (ceil_div nlb (nbpp geo)).

(** The array and the index into it. *)
Definition pages_inv (l : rw_locals) : Prop :=
  length (pages l) = Z.to_nat (CInt.to_int (qsize - 1))
  /\ 0 <= idx l < CInt.to_int (qsize - 1).

(** After [n] submissions the trace holds the first [n] pages and the
    cursor is at page [n]. *)
Definition region_inv (buf slba rw q : Z) (n : Z) (l : rw_locals) (s : ST)
  : Prop :=
  0 <= n
  /\ rw_calls (trace s) = page_calls buf slba rw q n
  /\ buf_p l = buf + n * pagesize geo
  /\ cur_lba l = to_u64 (slba + n * nbpp geo).

(** The pending pages are the ones from [i] on, cyclically, and all of
    them while blocks remain. *)
Definition page_live (a : list (bw_page Desc)) (k : Z) : Prop :=
  exists p d, a !! Z.to_nat k = Some p /\ p_iod p = Some d.

Definition drain_inv (slba nlb : Z) (n : Z) (l : rw_locals) : Prop :=
  pages_inv l
  /\ 0 <= rw_pending l <= CInt.to_int (qsize - 1)
  /\ CInt.to_int (qsize - 1) <= n <= region_pages nlb
  /\ cur_lba l = slba + n * nbpp geo
  /\ (n < ceil_div nlb (nbpp geo) -> rw_pending l = CInt.to_int (qsize - 1))
  /\ (forall t, 0 <= t < rw_pending l ->
        page_live (pages l) ((idx l + t) mod CInt.to_int (qsize - 1))).

(** The driver accepts every [unvme_rw] and every poll reports
    completion. *)
Definition rw_prompt : Prop :=
  (forall ns' qid opc b sl n w, is_Some (unvme_rw ns' qid opc b sl n w).1)
  /\ (forall d sec cs w, (unvme_do_poll d sec cs w).1 = 0).

(** No [u64] addition of the run wraps. *)
Definition no_wrap (slba nlb : Z) : Prop :=
  0 <= slba /\ 0 <= nlb /\ 1 <= nbpp geo
  /\ slba + nlb < 2 ^ 64
  /\ slba + region_pages nlb * nbpp geo < 2 ^ 64.

(** No submission of the trace was refused. *)
Definition accepted (tr : list (event Desc)) : Prop :=
  Forall (fun e => ~ refused e) tr.

(** The submission loop before [pages[k]]. *)
Definition submit_inv (buf slba rw q : Z) (k : Z) (a : list (bw_page Desc))
    (s : ST) : Prop :=
  0 <= k
  /\ length a = Z.to_nat (CInt.to_int (qsize - 1))
  /\ accepted (trace s)
  /\ rw_calls (trace s) = page_calls buf slba rw q k
  /\ (forall j, k <= j < CInt.to_int (qsize - 1) ->
        a !! Z.to_nat j
        = Some (mk_page (buf + j * pagesize geo)
                  (to_u64 (slba + j * nbpp geo)) None 0)).

(** The polling loop at its head. *)
Definition run_inv (buf slba nlb rw q : Z) (l : rw_locals) (s : ST) : Prop :=
  pages_inv l
  /\ 1 <= rw_pending l
  /\ accepted (trace s)
  /\ exists n,
       region_inv buf slba rw q n l s
       /\ CInt.to_int (qsize - 1) <= n
       /\ (no_wrap slba nlb -> n <= region_pages nlb).

(** What holds of every run, however it ends. *)
Definition run_post (buf slba nlb rw q : Z) (r : result unit * ST) : Prop :=
  (forall flt, r.1 <> Trap flt)
  /\ (accepted (trace r.2)
      \/ (r.1 = Errx 1
          /\ exists pre e,
               trace r.2 = pre ++ [e] /\ refused e /\ accepted pre))
  /\ exists n,
       0 <= n
       /\ rw_calls (trace r.2) = page_calls buf slba rw q n
       /\ (r.1 = Done tt ->
           CInt.to_int (qsize - 1) <= n
           /\ to_u64 (slba + nlb) <= to_u64 (slba + n * nbpp geo)
           /\ (no_wrap slba nlb -> n <= region_pages nlb)).

End Region.

End EmbedLib.

(** A counter that never advances. *)
Definition still_clock : EmbedLib.Rdtsc nat := {|
  EmbedLib.rdtsc := fun w => (0, w);
  EmbedLib.rdtsc_second := fun w => (1000, w);
  EmbedLib.rdtsc_elapse := fun _ w => (0, w)
|}.

(** A driver that refuses every submission. *)
Definition refusing_core : UnvmeCore nat nat := {|
  UNVME_TIMEOUT := 60;
  unvme_do_open := fun _ _ _ _ w => (None, w);
  unvme_rw := fun _ _ _ _ _ _ w => (None, w);
  unvme_rw_extended := fun _ _ _ _ _ _ _ w => (None, w);
  unvme_aflush := fun _ _ w => (None, w);
  unvme_do_poll := fun _ _ _ w => (0, w)
|}.

Module Scenario3.

(** Pages of 4096 bytes, 8 blocks of 512 bytes each. *)
Definition geo_4k : EmbedLib.geometry := EmbedLib.mk_geometry 4096 8.

End Scenario3.

(** ** [sprintf] with [%x] and [%02x], and the device names printed with
    them

    [ioengine/unvme_fio.c] and [test/unvme/unvme_mcd_test.c] print a
    device name from its fields and hand it to [unvme_open], which parses
    it again. *)

Module Printf.

(** The lower-case hexadecimal digit of value [v]. *)
Definition hex_digit (v : Z) : ascii :=
  Ascii.ascii_of_N (Z.to_N (if v <? 10 then 48 + v else 87 + v)).

(** The digits of [n], most significant first, in front of [acc];
    [fuel] bounds their number. *)
Fixpoint hex_digits (fuel : nat) (n : Z) (acc : string) : string :=
  match fuel with
  | O => acc
  | S fuel' =>
      let acc' := String (hex_digit (n mod 16)) acc in
      if n / 16 =? 0 then acc' else hex_digits fuel' (n / 16) acc'
  end.

(** [%x] of an [int] argument: the value as [unsigned int], without
    leading zeros. *)
Definition print_x (v : Z) : string :=
  hex_digits 8 (CInt.to_u32 v) EmptyString.

(** [%02x]: at least two digits, padded with a zero. *)
Definition print_02x (v : Z) : string :=
  let s := print_x v in
  if (String.length s <? 2)%nat then String "0" s else s.

End Printf.

(** The string that [sprintf (pciname, "%x:%x.%x/%x", b, d, f, n)]
    produces in [do_unvme_init] ([ioengine/unvme_fio.c]); the buffer it
    is written to has 32 bytes. *)
Definition fio_pciname (b d f n : Z) : string :=
  Printf.print_x b +:+ ":" +:+ Printf.print_x d +:+ "." +:+ Printf.print_x f
  +:+ "/" +:+ Printf.print_x n.

(** [sprintf (ses[i].pciname, "%02x:%02x.%x/%x", b, d, f, n)] in [main] of
    [test/unvme/unvme_mcd_test.c]; the buffer has 16 bytes. *)
Definition mcd_pciname (b d f n : Z) : string :=
  Printf.print_02x b +:+ ":" +:+ Printf.print_02x d +:+ "." +:+ Printf.print_x f
  +:+ "/" +:+ Printf.print_x n.

(** The input ends or goes on with a character that is neither a
    hexadecimal digit nor an [x]. *)
Definition stops_hex (s : string) : Prop :=
  match s with
  | EmptyString => True
  | String c _ => Libc.digit_in 16 c = None /\ Libc.is_x c = false
  end.

(** [sscanf (td->o.filename, "%x.%x.%x.%x", &b, &d, &f, &n)] *)
Definition fmt_fio : list Libc.directive :=
  [Libc.Dx; Libc.Dlit "."; Libc.Dx; Libc.Dlit "."; Libc.Dx; Libc.Dlit ".";
   Libc.Dx].

(** How the opening of the device in [do_unvme_init] goes. *)
Inductive init_open (A : Type) : Type :=
| Opens (m : A)              (* [unvme_open] is called *)
| PrintsIndeterminate        (* [b], [d] or [f] is printed, never assigned *)
| OverrunsName (len : nat).  (* [len + 1] bytes are written to [pciname[32]] *)

Arguments Opens {A} m.
Arguments PrintsIndeterminate {A}.
Arguments OverrunsName {A} len.

Section FioInit.

Context {World Desc : Type} {Core : UnvmeCore World Desc}.

(** The opening of the device in [do_unvme_init], when no session is
    open yet: the fields are scanned from the fio file name ([n] is
    initialised to 1, the return value of [sscanf] is not checked), the
    device name is printed from them into [char pciname[32]] and handed
    to [unvme_open].  The name and its closing NUL fit the buffer when
    the name has fewer than 32 characters. *)
Definition do_unvme_init_open (filename : string)
  : init_open (M World Desc (option unvme_ns_t)) :=
  let v := store_vars (Libc.sscanf filename fmt_fio).2
             {| b := None; d := None; f := None; nsid := 1 |} in
  match b v, d v, f v with
  | Some vb, Some vd, Some vf =>
      let pciname := fio_pciname vb vd vf (nsid v) in
      if (String.length pciname <? 32)%nat then Opens (unvme_open pciname)
      else OverrunsName (String.length pciname)
  | _, _, _ => PrintsIndeterminate
  end.

End FioInit.

(** ** The fio engine ([ioengine/unvme_fio.c]): completions *)

Module Fio.

(** The field of fio's [struct io_u] that the engine keeps its
    descriptor in. *)
Record io_u (Desc : Type) : Type := mk_io_u {
  engine_data : option Desc
}.

Arguments mk_io_u {Desc} engine_data.
Arguments engine_data {Desc} i.

(** [unvme_data_t]: the completion queue of a thread.  A cell holds a
    pointer to an [io_u], here its index in [td->io_u_all], or NULL. *)
Record unvme_data_t : Type := mk_udata {
  iocq : list (option nat);
  head : Z;
  tail : Z
}.

(** What the engine uses of [struct thread_data]: the queue of all
    [io_u]s of the thread and [io_ops_data]. *)
Record thread_data (Desc : Type) : Type := mk_td {
  io_u_all : list (io_u Desc);
  io_ops_data : unvme_data_t
}.

Arguments mk_td {Desc} io_u_all io_ops_data.
Arguments io_u_all {Desc} t.
Arguments io_ops_data {Desc} t.

(** How a call ends: by returning, by [error (1, 0, ...)], by a fault of
    the abstract machine, or not within the bound on the iterations. *)
Inductive run (A : Type) : Type :=
| Ret (a : A)
| Exit (status : Z)
| Fault (flt : fault)
| Spinning.

Arguments Ret {A} a.
Arguments Exit {A} status.
Arguments Fault {A} flt.
Arguments Spinning {A}.

(** [fio_unvme_init], when both allocations succeed: [calloc] gives
    [iodepth + 1] NULL cells and zero indices. *)
Definition fio_unvme_init (iodepth : Z) : unvme_data_t :=
  {| iocq := replicate (Z.to_nat (iodepth + 1)) None; head := 0; tail := 0 |}.

(** [if (++k > td->o.iodepth) k = 0;] *)
Definition bump (iodepth k : Z) : Z :=
  let k' := CInt.to_int (k + 1) in if iodepth <? k' then 0 else k'.

Definition in_iocq (u : unvme_data_t) (k : Z) : bool :=
  (0 <=? k) && (k <? Z.of_nat (length (iocq u))).

(** [fio_unvme_event]: the [io_u] returned, NULL when the queue is
    empty. *)
Definition fio_unvme_event (iodepth : Z) (u : unvme_data_t)
  : (option nat * unvme_data_t) + fault :=
  if head u =? tail u then inl (None, u)
  else if in_iocq u (head u) then
    inl (default None (iocq u !! Z.to_nat (head u)),
         {| iocq := iocq u; head := bump iodepth (head u); tail := tail u |})
  else inr (OutOfBounds (head u)).

(** [udata->iocq[udata->tail] = io_u; if (++udata->tail > iodepth)
    udata->tail = 0;] in [fio_unvme_getevents]. *)
Definition iocq_put (iodepth : Z) (u : unvme_data_t) (p : nat)
  : unvme_data_t + fault :=
  if in_iocq u (tail u) then
    inl {| iocq := <[Z.to_nat (tail u) := Some p]> (iocq u);
           head := head u;
           tail := bump iodepth (tail u) |}
  else inr (OutOfBounds (tail u)).

(** The locals [events] and [endtsc] of [fio_unvme_getevents]. *)
Record ge_locals : Type := mk_ge {
  events : Z;
  endtsc : Z
}.

Section Getevents.

Context {World Desc : Type} {Core : UnvmeCore World Desc}
  {Clock : EmbedLib.Rdtsc World}.

Local Abbreviation ST := (state World Desc).

(** [td->o.iodepth], the argument [min] and [unvme.rdtsc_timeout]; the
    code does not use its arguments [max] and [t]. *)
Variables (iodepth min rdtsc_timeout : Z).

(** The body of the iteration over [td->io_u_all], for the [io_u] at
    index [i]: [Some events] when the function returns from inside the
    loop. *)
Definition reap (i : nat) (td : thread_data Desc) (l : ge_locals) (s : ST)
  : run (option Z * thread_data Desc * ge_locals) * ST :=
  match io_u_all td !! i with
  | None => (Fault (OutOfBounds (Z.of_nat i)), s)
  | Some io =>
      match engine_data io with
      | None => (Ret (None, td, l), s)
      | Some d =>
          let '(stat, s1) := unvme_apoll d 0 s in
          if stat =? 0 then
            match iocq_put iodepth (io_ops_data td) i with
            | inr flt => (Fault flt, s1)
            | inl u' =>
                let td' := {| io_u_all := <[i := mk_io_u None]> (io_u_all td);
                              io_ops_data := u' |} in
                let ev := CInt.to_int (events l + 1) in
                let l' := {| events := ev; endtsc := endtsc l |} in
                if min <=? CInt.to_u32 ev then (Ret (Some ev, td', l'), s1)
                else (Ret (None, td', l'), s1)
            end
          else if stat =? -1 then
            if endtsc l =? 0 then
              let '(t, s2) := EmbedLib.call_rdtsc s1 in
              (Ret (None, td,
                    {| events := events l;
                       endtsc := EmbedLib.to_u64 (t + rdtsc_timeout) |}), s2)
            else (Ret (None, td, l), s1)
          else (Exit 1, s1)
      end
  end.

(** [io_u_qiter (&td->io_u_all, io_u, i) { ... }] from index [i], with
    [n] [io_u]s left. *)
Fixpoint qiter (n : nat) (i : nat) (td : thread_data Desc) (l : ge_locals)
    (s : ST) : run (option Z * thread_data Desc * ge_locals) * ST :=
  match n with
  | O => (Ret (None, td, l), s)
  | S n' =>
      match reap i td l s with
      | (Ret (None, td', l'), s') => qiter n' (S i) td' l' s'
      | r => r
      end
  end.

(** The [do ... while (rdtsc () < endtsc)] loop with what follows it. *)
Fixpoint getevents_loop (fuel : nat) (td : thread_data Desc) (l : ge_locals)
    (s : ST) : run (Z * thread_data Desc) * ST :=
  match fuel with
  | O => (Spinning, s)
  | S fuel' =>
      match qiter (length (io_u_all td)) 0 td l s with
      | (Ret (Some ev, td', _), s') => (Ret (ev, td'), s')
      | (Ret (None, td', l'), s') =>
          let '(_, s1) := sched_yield s' in
          let '(t, s2) := EmbedLib.call_rdtsc s1 in
          if t <? endtsc l' then getevents_loop fuel' td' l' s2
          else (Exit 1, s2)
      | (Exit status, s') => (Exit status, s')
      | (Fault flt, s') => (Fault flt, s')
      | (Spinning, s') => (Spinning, s')
      end
  end.

(** [fio_unvme_getevents (td, min, max, t)], with at most [fuel] passes
    over the [io_u]s. *)
Definition fio_unvme_getevents (fuel : nat) (td : thread_data Desc) (s : ST)
  : run (Z * thread_data Desc) * ST :=
  getevents_loop fuel td {| events := 0; endtsc := 0 |} s.

End Getevents.

(** *** The completion queue as a list *)

(** The indices are in the array, which has [iodepth + 1] cells. *)
Definition ring_wf (iodepth : Z) (u : unvme_data_t) : Prop :=
  length (iocq u) = Z.to_nat (iodepth + 1)
  /\ 0 <= head u <= iodepth
  /\ 0 <= tail u <= iodepth.

(** The number of cells from [head] up to [tail], cyclically. *)
Definition ring_size (iodepth : Z) (u : unvme_data_t) : Z :=
  (tail u - head u) mod (iodepth + 1).

(** Their contents, oldest first. *)
Definition ring_list (iodepth : Z) (u : unvme_data_t) : list (option nat) :=
  (fun k => default None (iocq u !! Z.to_nat ((head u + k) mod (iodepth + 1))))
    <$> seqZ 0 (ring_size iodepth u).

(** The [io_u]s with an I/O in flight. *)
Definition in_flight_at {Desc : Type} (a : list (io_u Desc)) (i : nat) : Prop :=
  exists io d, a !! i = Some io /\ engine_data io = Some d.

Definition flying {Desc : Type} (a : list (io_u Desc)) : Z :=
  foldr (fun io n => match engine_data io with Some _ => 1 | None => 0 end + n)
    0 a.

(** [fio_unvme_getevents] between two [io_u]s, in a call entered with
    [td0]: the completions reaped so far are queued behind what the queue
    held, in the order of their polls. *)
Definition reaped {Desc : Type} (iodepth : Z) (td0 td : thread_data Desc)
    (new : list nat) : Prop :=
  ring_list iodepth (io_ops_data td)
  = ring_list iodepth (io_ops_data td0) ++ (Some <$> new)
  /\ Forall (fun i => in_flight_at (io_u_all td0) i
                      /\ io_u_all td !! i = Some (mk_io_u None)) new.

Definition ge_inv {Desc : Type} (iodepth min : Z) (td0 td : thread_data Desc)
    (l : ge_locals) : Prop :=
  ring_wf iodepth (io_ops_data td)
  /\ length (io_u_all td) = length (io_u_all td0)
  /\ ring_size iodepth (io_ops_data td) + flying (io_u_all td) <= iodepth
  /\ 0 <= events l
  /\ (events l = 0 \/ events l < min)
  /\ (forall i, in_flight_at (io_u_all td) i -> in_flight_at (io_u_all td0) i)
  /\ exists new, reaped iodepth td0 td new /\ Z.of_nat (length new) = events l.

(** What holds of every call that starts with room in the queue for all
    the I/Os in flight. *)
Definition ge_post {Desc : Type} (iodepth min : Z) (td0 : thread_data Desc)
    (r : run (Z * thread_data Desc)) : Prop :=
  match r with
  | Ret (n, td) =>
      n = Z.max 1 min
      /\ ring_wf iodepth (io_ops_data td)
      /\ exists new, reaped iodepth td0 td new /\ Z.of_nat (length new) = n
  | Exit status => status = 1
  | Fault _ => False
  | Spinning => True
  end.

End Fio.

Module Scenario4.

(** A thread with [iodepth = 2]: two I/Os in flight, an empty completion
    queue. *)
Definition td_two : Fio.thread_data nat :=
  Fio.mk_td [Fio.mk_io_u (Some 0%nat); Fio.mk_io_u (Some 1%nat)]
    (Fio.fio_unvme_init 2).

(** The same thread with nothing in flight. *)
Definition td_idle : Fio.thread_data nat :=
  Fio.mk_td [Fio.mk_io_u None; Fio.mk_io_u None] (Fio.fio_unvme_init 2).

(** A completion queue that holds [io_u] 1 and then [io_u] 0. *)
Definition udata_two : Fio.unvme_data_t :=
  Fio.mk_udata [Some 1%nat; Some 0%nat; None] 0 2.

End Scenario4.

(** ** The host-side column projection of the translation test
    ([translate_region] in [test/unvme/unvme_trans_test.c]) *)

Module TransTest.

(** [trans_config_t]; [column_group_list] has 1021 entries. *)
Record trans_config_t : Type := mk_config {
  attribute_size : Z;
  number_of_columns : Z;
  number_of_rows : Z;
  column_group_list : list Z
}.

(** The end of the list of column groups, [0xffffffff]. *)
Definition END : Z := 4294967295.

Section Translate.

(** A [struct attribute]: [attribute_size] bytes, copied as a whole. *)
Context {A : Type}.

(** [config.column_group_list[k]] *)
Definition group_load (config : trans_config_t) (k : Z) : Z + fault :=
  if (k <? 0) || (Z.of_nat (length (column_group_list config)) <=? k)
  then inr (OutOfBounds k)
  else
    match column_group_list config !! Z.to_nat k with
    | Some v => inl v
    | None => inr (OutOfBounds k)
    end.

(** [fromBase[k]], in the table that [scratchpad] points to. *)
Definition attr_load (table : list A) (k : Z) : A + fault :=
  if (k <? 0) || (Z.of_nat (length table) <=? k) then inr (OutOfBounds k)
  else
    match table !! Z.to_nat k with
    | Some a => inl a
    | None => inr (OutOfBounds k)
    end.

(** The innermost loop from [listidx] on, with [n] columns of the group
    left; [out] holds what has been stored through [toAtr]. *)
Fixpoint copy_columns (n : nat) (config : trans_config_t) (table : list A)
    (groupidx row listidx : Z) (out : list A) : list A + fault :=
  match n with
  | O => inl out
  | S n' =>
      let colidx := CInt.to_u32 (groupidx + 1 + listidx) in
      match group_load config colidx with
      | inr flt => inr flt
      | inl col =>
          match attr_load table
                  (CInt.to_u32 (row * number_of_columns config) + col) with
          | inr flt => inr flt
          | inl a =>
              copy_columns n' config table groupidx row
                (CInt.to_u32 (listidx + 1)) (out ++ [a])
          end
      end
  end.

(** The loop over the rows from [row] on, with [n] rows left; [width] is
    [config.column_group_list[groupidx]]. *)
Fixpoint copy_rows (n : nat) (config : trans_config_t) (table : list A)
    (groupidx width row : Z) (out : list A) : list A + fault :=
  match n with
  | O => inl out
  | S n' =>
      match copy_columns (Z.to_nat width) config table groupidx row 0 out with
      | inr flt => inr flt
      | inl out' =>
          copy_rows n' config table groupidx width (CInt.to_u32 (row + 1)) out'
      end
  end.

(** The loop over the column groups from [groupidx] on, with at most
    [fuel] groups. *)
Fixpoint copy_groups (fuel : nat) (config : trans_config_t) (table : list A)
    (groupidx : Z) (out : list A) : outcome (list A) :=
  match fuel with
  | O => OutOfFuel
  | S fuel' =>
      match group_load config groupidx with
      | inr flt => Faults flt
      | inl width =>
          if width =? END then Returns out
          else
            match copy_rows (Z.to_nat (number_of_rows config)) config table
                    groupidx width 0 out with
            | inr flt => Faults flt
            | inl out' =>
                copy_groups fuel' config table
                  (CInt.to_u32 (groupidx + (1 + width))) out'
            end
      end
  end.

(** [translate_region (scratchpad, buf, config)]: what it stores in
    [buf], in order.  [buf] is taken to be large enough. *)
Definition translate_region (fuel : nat) (table : list A)
    (config : trans_config_t) : outcome (list A) :=
  copy_groups fuel config table 0 [].

End Translate.

(** *** The layout asked for *)

(** A list of column groups as [column_group_list] holds it: each group
    after its length, then [END]. *)
Definition encode_groups (groups : list (list Z)) : list Z :=
  concat ((fun g : list Z => Z.of_nat (length g) :: g) <$> groups) ++ [END].

(** The table indices of the PAX layout: group after group, in each
    group row after row, in each row the columns of the group. *)
Definition pax_indices (ncols nrows : Z) (groups : list (list Z)) : list Z :=
  concat ((fun g : list Z =>
             concat ((fun row => (fun col => row * ncols + col) <$> g)
                       <$> seqZ 0 nrows)) <$> groups).

(** The groups name columns of the table. *)
Definition groups_wf (ncols : Z) (groups : list (list Z)) : Prop :=
  Forall (Forall (fun col => 0 <= col < ncols)) groups.

(** The groups that [run_test] writes into [column_group_list] for the
    first [n] columns ([*col_list++ = 1; *col_list++ = i;] for each
    [i < ncols]): one group for each column. *)
Definition first_columns (n : Z) : list (list Z) :=
  (fun i => [i]) <$> seqZ 0 n.

End TransTest.

Module Scenario5.

(** A table of 2 rows and 3 columns. *)
Definition table_2x3 : list Z := [10; 11; 12; 20; 21; 22].

(** Columns 2 and 0 as one group, then column 1. *)
Definition config_pax : TransTest.trans_config_t :=
  TransTest.mk_config 8 3 2
    (TransTest.encode_groups [[2; 0]; [1]] ++ replicate 1015 0).

(** The first two columns, as [run_test] asks for them. *)
Definition config_first2 : TransTest.trans_config_t :=
  TransTest.mk_config 8 3 2
    (TransTest.encode_groups (TransTest.first_columns 2) ++ replicate 1016 0).

End Scenario5.

(** ** Reading one embedding ([unvme_read_embedding] in
    [test/unvme/unvme_embed_lib.c]) *)

Module Embedding.

(** The store [*time_ptr = (float)telapse / (float)rdtsc_second ()]: the
    byte offset of [time_ptr] from [fromPageAlloc] and the two operands
    of the quotient. *)
Record time_store : Type := mk_store {
  st_offset : Z;
  st_telapse : Z;
  st_second : Z
}.

Section ReadEmbedding.

Context {World Desc : Type} {Core : UnvmeCore World Desc}
  {Clock : EmbedLib.Rdtsc World}.

Local Abbreviation ST := (state World Desc).

(** The globals [ns], [slba], [table_stride] and [fromPageAlloc]; the
    latter points to the 4096 bytes that [open_unvme] allocates. *)
Variables (ns : unvme_ns_t) (slba table_stride fromPageAlloc : Z).

(** [a / b] and [a % b] in [int]. *)
Definition int_div (a b : Z) : Z + fault :=
  if b =? 0 then inr DivByZero else inl (CInt.to_int (Z.quot a b)).

Definition int_rem (a b : Z) : Z + fault :=
  if b =? 0 then inr DivByZero else inl (CInt.to_int (Z.rem a b)).

(** [unvme_read_embedding (embedidx, vector_length, table_id, qid)]:
    the byte offset of the pointer returned from [fromPageAlloc], and
    the store through [time_ptr].  The return value of [unvme_read] is
    not looked at. *)
Definition unvme_read_embedding (embedidx vector_length table_id qid : Z)
    (s : ST) : EmbedLib.result (Z * time_store) * ST :=
  let attribute_size := 4 in
  let width := CInt.to_int (attribute_size * vector_length) in
  match int_div 4096 width with
  | inr flt => (EmbedLib.Trap flt, s)
  | inl per_page =>
      match int_rem embedidx per_page with
      | inr flt => (EmbedLib.Trap flt, s)
      | inl slot =>
          let embedding := CInt.to_int (slot * width) in
          let '(tstart, s1) := EmbedLib.call_rdtsc s in
          let page := CInt.to_int (Z.quot (CInt.to_int (width * embedidx)) 4096) in
          let lba :=
            EmbedLib.to_u64
              (CInt.to_int
                 (CInt.to_int (slba + CInt.to_int (table_id * table_stride))
                  + page)) in
          let '(_, s2) := unvme_read ns qid fromPageAlloc lba 1 s1 in
          let '(telapse, s3) := EmbedLib.call_rdtsc_elapse tstart s2 in
          let time_ptr := embedding + 4 * vector_length in
          let '(tsec, s4) := EmbedLib.call_rdtsc_second s3 in
          if (time_ptr <? 0) || (4096 <? time_ptr + 4)
          then (EmbedLib.Trap (OutOfBounds time_ptr), s4)
          else (EmbedLib.Done (embedding, mk_store time_ptr telapse tsec), s4)
      end
  end.

End ReadEmbedding.

End Embedding.

(** ** The instances of a device in the multi-device test ([main] of
    [test/unvme/unvme_mcd_test.c]) *)

Module McdTest.

(** The fields of [ses_t] that the two passes of [main] work on. *)
Record ses_t : Type := mk_ses {
  pci : Z;
  ins : Z;
  inscount : Z
}.

(** What the first loop of [main] leaves for a device: instance 0, one
    instance. *)
Definition new_ses (p : Z) : ses_t := mk_ses p 0 1.

(** [if (ses[k].ins == 0 && ses[k].pci == ses[i].pci) { ses[k].ins++;
    ses[i].inscount++; }] *)
Definition count_step (i k : nat) (ses : list ses_t) : list ses_t :=
  match ses !! k, ses !! i with
  | Some sk, Some si =>
      if (ins sk =? 0) && (pci sk =? pci si) then
        let ses1 :=
          <[k := mk_ses (pci sk) (CInt.to_int (ins sk + 1)) (inscount sk)]> ses in
        match ses1 !! i with
        | Some si1 =>
            <[i := mk_ses (pci si1) (ins si1) (CInt.to_int (inscount si1 + 1))]>
              ses1
        | None => ses1
        end
      else ses
  | _, _ => ses
  end.

(** [if (ses[k].pci == ses[i].pci) ses[k].inscount = ses[i].inscount;] *)
Definition copy_step (i k : nat) (ses : list ses_t) : list ses_t :=
  match ses !! k, ses !! i with
  | Some sk, Some si =>
      if pci sk =? pci si
      then <[k := mk_ses (pci sk) (ins sk) (inscount si)]> ses
      else ses
  | _, _ => ses
  end.

(** [for (k = ...; k < numses; k++) body], with [n] iterations left. *)
Fixpoint for_k (body : nat -> nat -> list ses_t -> list ses_t) (n : nat)
    (i k : nat) (ses : list ses_t) : list ses_t :=
  match n with
  | O => ses
  | S n' => for_k body n' i (S k) (body i k ses)
  end.

(** [for (i = ...; i < numses - 1; i++) for (k = i + 1; k < numses; k++)
    body], with [n] iterations of the outer loop left. *)
Fixpoint for_i (body : nat -> nat -> list ses_t -> list ses_t) (n : nat)
    (numses i : nat) (ses : list ses_t) : list ses_t :=
  match n with
  | O => ses
  | S n' =>
      for_i body n' numses (S i) (for_k body (numses - S i) i (S i) ses)
  end.

(** The two passes over [ses]. *)
Definition count_instances (ses : list ses_t) : list ses_t :=
  let numses := length ses in
  for_i copy_step (numses - 1) numses 0
    (for_i count_step (numses - 1) numses 0 ses).

(** [int qcount = ns->qcount / ses->inscount; int q = qcount * ses->ins;]
    in [test_session]: the first queue and the number of queues that the
    session works on. *)
Definition session_queues (ns_qcount : Z) (s : ses_t) : (Z * Z) + fault :=
  if inscount s =? 0 then inr DivByZero
  else
    let qcount := CInt.to_int (Z.quot ns_qcount (inscount s)) in
    inl (CInt.to_int (qcount * ins s), qcount).

(** *** What the passes compute *)

(** The number of sessions on device [p]. *)
Definition occ (p : Z) (l : list Z) : Z :=
  Z.of_nat (length (filter (fun x => x = p) l)).

(** Whether an earlier session is on device [p]. *)
Definition has (p : Z) (l : list Z) : bool := bool_decide (p ∈ l).

Definition b2z (c : bool) : Z := if c then 1 else 0.

(** How far the loops have compared session [j] with earlier ones when
    the outer loop is at [i] and the inner one at [k]. *)
Definition reach (i k j : nat) : nat :=
  Nat.min (if (j <? k)%nat then S i else i) j.

(** How many later sessions have been counted for session [j]. *)
Definition counted (numses i k j : nat) : nat :=
  if (j <? i)%nat then numses
  else if (j =? i)%nat then (k - S i)%nat else O.

(** Session [j] during the first pass. *)
Definition during_count (pcis : list Z) (i k j : nat) (p : Z) : ses_t :=
  mk_ses p (b2z (has p (take (reach i k j) pcis)))
    (if has p (take j pcis) then 1
     else 1 + occ p (take (counted (length pcis) i k j) (drop (S j) pcis))).

(** Session [j] during the second pass. *)
Definition during_copy (pcis : list Z) (i k j : nat) (p : Z) : ses_t :=
  mk_ses p (b2z (has p (take j pcis)))
    (if has p (take j pcis)
     then (if has p (take (reach i k j) pcis) then occ p pcis else 1)
     else 1 + occ p (drop (S j) pcis)).

End McdTest.

(** ** Properties of the C library model *)

Section LibcFacts.

Lemma scan_count_spec (fl : bool) (acc : list Z) :
  (acc = [] /\ Libc.scan_count fl acc <= 0)
  \/ (acc <> [] /\ Libc.scan_count fl acc = Z.of_nat (length acc)).
Proof.
  destruct acc as [|a acc]; [left|right]; split; try done.
  unfold Libc.scan_count, Libc.EOF. destruct fl; lia.
Qed.

Lemma sscanf_from_count (fmt : list Libc.directive) :
  forall (s : string) (acc : list Z),
    let r := Libc.sscanf_from fmt s acc in
    (r.2 = [] /\ r.1 <= 0) \/ (r.2 <> [] /\ r.1 = Z.of_nat (length r.2)).
Proof.
  induction fmt as [|dir fmt IH]; intros s acc; cbn [Libc.sscanf_from].
  - apply scan_count_spec.
  - destruct dir as [|c].
    + destruct (Libc.scan_hex s) as [v rest| |]; [apply IH| |];
        apply scan_count_spec.
    + destruct s as [|c' rest]; [apply scan_count_spec|].
      case_bool_decide; [apply IH|apply scan_count_spec].
Qed.


(** A positive return value is the number of values assigned. *)
Lemma sscanf_count_values (s : string) (fmt : list Libc.directive) (n : nat) :
  (0 < n)%nat ->
  (Libc.sscanf s fmt).1 = Z.of_nat n ->
  length (Libc.sscanf s fmt).2 = n.
Proof.
  intros Hn Hc. unfold Libc.sscanf in *.
  destruct (sscanf_from_count fmt s []) as [[_ H]|[_ H]]; cbn zeta in H; lia.
Qed.

End LibcFacts.

(** ** The session facade: [unvme_openq], [unvme_open] *)

Section OpenFacts.

Context {World Desc : Type} {Core : UnvmeCore World Desc}.

Local Abbreviation ST := (state World Desc).

Lemma invalid_queue_args_iff (qcount qsize : Z) :
  invalid_queue_args qcount qsize = true <-> qcount < 0 \/ qsize < 0 \/ qsize = 1.
Proof.
  unfold invalid_queue_args.
  rewrite !orb_true_iff, !Z.ltb_lt, Z.eqb_eq. tauto.
Qed.

Lemma valid_queue_args (qcount qsize : Z) :
  0 <= qcount -> 0 <= qsize -> qsize <> 1 ->
  invalid_queue_args qcount qsize = false.
Proof.
  intros H1 H2 H3. apply not_true_is_false.
  rewrite invalid_queue_args_iff. lia.
Qed.

Lemma openq_rejected (pciname : string) (qcount qsize : Z) (s : ST) :
  invalid_queue_args qcount qsize = true ->
  unvme_openq pciname qcount qsize s
  = (None, mk_state (world s) (trace s ++ [EvError "invalid qcount or qsize"])).
Proof. intros H. unfold unvme_openq. rewrite H. reflexivity. Qed.


Lemma openq_with_nsid (pciname : string) (qcount qsize : Z) (s : ST) :
  invalid_queue_args qcount qsize = false ->
  (Libc.sscanf pciname fmt_bdf_nsid).1 = 4 ->
  exists b d f n,
    (Libc.sscanf pciname fmt_bdf_nsid).2 = [b; d; f; n]
    /\ unvme_openq pciname qcount qsize s
       = call_do_open (pci_of b d f) n qcount qsize s.
Proof.
  intros H H4.
  pose proof (sscanf_count_values pciname fmt_bdf_nsid 4 ltac:(lia) H4) as Hl.
  destruct (Libc.sscanf pciname fmt_bdf_nsid) as [k vals] eqn:E. cbn [fst snd] in *.
  destruct vals as [|b [|d [|f [|n [|? ?]]]]]; try discriminate Hl.
  exists b, d, f, n. split; [done|].
  unfold unvme_openq. rewrite H, E. cbn [fst snd]. subst k. reflexivity.
Qed.



End OpenFacts.

(** ** Claims about the session facade *)

Section OpenClaims.

Context {World Desc : Type} {Core : UnvmeCore World Desc}.

Local Abbreviation ST := (state World Desc).


(** C6.  [unvme_open (pciname)] is [unvme_openq (pciname, 0, 0)]; the
    arguments 0, 0 pass the validation, and every call of
    [unvme_do_open] that results carries [qcount = 0] and [qsize = 0].
    On the model of the session open, where 0 is a queue count or size
    that was not specified: a name that matches opens the session with
    the default queue count and the default queue size, each clamped
    against the maximum the controller advertises, so neither exceeds
    it; a name that does not match opens nothing.  A queue count and
    size given to [unvme_openq] are configured as they are. *)
Theorem open_is_openq_0_0 (pciname : string) (s : ST) (default_timeout : Z)
    (c : SpecSession.controller) (q : SpecCore.sim) (tr : list (event nat)) :
  unvme_open pciname s = unvme_openq pciname 0 0 s
  /\ invalid_queue_args 0 0 = false
  /\ (exists e,
       trace (unvme_open pciname s).2 = trace s ++ [e]
       /\ ((exists msg, e = EvError msg)
           \/ (exists pci nsid, e = EvOpen pci nsid 0 0)))
  /\ (let r := unvme_open (Core := SpecSession.core default_timeout) pciname
                 (mk_state (SpecSession.mk_dev c None q) tr) in
      (name_matches pciname = true ->
       is_Some r.1
       /\ SpecSession.session (world r.2)
          = Some (SpecSession.mk_config
                    (Z.min (SpecSession.default_qcount c) (SpecSession.maxqcount c))
                    (Z.min (SpecSession.default_qsize c) (SpecSession.maxqsize c)))
       /\ (forall cfg, SpecSession.session (world r.2) = Some cfg ->
             SpecSession.qcount cfg <= SpecSession.maxqcount c
             /\ SpecSession.qsize cfg <= SpecSession.maxqsize c))
      /\ (name_matches pciname = false ->
          r.1 = None /\ world r.2 = SpecSession.mk_dev c None q))
  /\ (forall qcount qsize,
        0 < qcount -> 1 < qsize -> name_matches pciname = true ->
        SpecSession.session
          (world (unvme_openq (Core := SpecSession.core default_timeout)
                    pciname qcount qsize
                    (mk_state (SpecSession.mk_dev c None q) tr)).2)
        = Some (SpecSession.mk_config qcount qsize)).
Proof.
  split; [reflexivity|]. split; [reflexivity|]. split_and!.
  - unfold unvme_open, unvme_openq.
    cbn [invalid_queue_args Z.ltb Z.eqb orb Z.compare]. cbn zeta.
    destruct (negb _ && negb _).
    + eexists. split; [reflexivity|]. left. by eexists.
    + unfold call_do_open.
      destruct (unvme_do_open _ _ 0 0 (world s)) as [r w]. cbn [snd trace].
      eexists. split; [reflexivity|]. right. by do 2 eexists.
  - cbn zeta. unfold name_matches, unvme_open, unvme_openq.
    cbn [invalid_queue_args Z.ltb Z.eqb orb Z.compare]. cbn zeta.
    destruct ((Libc.sscanf pciname fmt_bdf_nsid).1 =? 4);
      destruct ((Libc.sscanf pciname fmt_bdf).1 =? 3);
      cbn [negb andb orb]; (split; intros Hm; [try done|try done]).
    all: unfold call_do_open, bind, ERROR, emit, ret; cbn [world trace].
    all: cbn [unvme_do_open SpecSession.core].
    all: unfold SpecSession.do_open, SpecCore.do_open, SpecSession.configured.
    all: cbn [SpecSession.session SpecSession.queue SpecSession.ctrl Z.eqb
              fst snd world].
    all: try (split; [done|]); try (split; [by eexists|]).
    all: try (split; [reflexivity|]); try (intros cfg [= <-]).
    all: try (cbn [SpecSession.qcount SpecSession.qsize]; lia).
  - intros qcount qsize Hqc Hqs. unfold name_matches, unvme_openq.
    rewrite valid_queue_args by lia. cbn zeta.
    destruct ((Libc.sscanf pciname fmt_bdf_nsid).1 =? 4);
      destruct ((Libc.sscanf pciname fmt_bdf).1 =? 3);
      cbn [negb andb orb]; try done; intros _.
    all: unfold call_do_open; cbn [world trace unvme_do_open SpecSession.core].
    all: unfold SpecSession.do_open, SpecCore.do_open, SpecSession.configured.
    all: cbn [SpecSession.session SpecSession.queue SpecSession.ctrl snd world].
    all: destruct (Z.eqb_spec qcount 0); [lia|].
    all: destruct (Z.eqb_spec qsize 0); [lia|done].
Qed.

(** C9.  With [qcount < 0], [qsize < 0] or [qsize = 1], [unvme_openq]
    returns NULL whatever the name is: the world is untouched and the
    only thing done is the diagnostic.  Every other pair of queue
    arguments passes: with such a pair the name ["01:00.0"] reaches
    [unvme_do_open]. *)
Theorem openq_rejects_bad_queue_args (pciname : string) (qcount qsize : Z)
    (s : ST) :
  (qcount < 0 \/ qsize < 0 \/ qsize = 1 ->
   unvme_openq pciname qcount qsize s
   = (None, mk_state (world s) (trace s ++ [EvError "invalid qcount or qsize"])))
  /\ (0 <= qcount -> 0 <= qsize -> qsize <> 1 ->
      unvme_openq "01:00.0" qcount qsize s
      = call_do_open (pci_of 1 0 0) 1 qcount qsize s).
Proof.
  split.
  - intros H. apply openq_rejected. by apply invalid_queue_args_iff.
  - intros H1 H2 H3.
    unfold unvme_openq. rewrite valid_queue_args by done. reflexivity.
Qed.

End OpenClaims.



(** A controller that advertises 4 queues of 64 entries, under defaults
    of 8 queues of 32 entries: [unvme_open] configures 4 queues of 32
    entries; [unvme_openq] with 2 and 16 configures these. *)
Lemma open_is_openq_0_0_witness :
  SpecSession.session
    (world (unvme_open (Core := SpecSession.core 60) "01:00.0"
              (mk_state (Scenario.closed_device Scenario.ns_s5) [])).2)
  = Some (SpecSession.mk_config 4 32)
  /\ SpecSession.session
       (world (unvme_openq (Core := SpecSession.core 60) "01:00.0" 2 16
                 (mk_state (Scenario.closed_device Scenario.ns_s5) [])).2)
     = Some (SpecSession.mk_config 2 16).
Proof.
  destruct (open_is_openq_0_0 (Core := SpecCore.core 60) "01:00.0"
              (Scenario.fresh (Scenario.prompt_device Scenario.ns_s5)) 60
              (SpecSession.mk_controller 4 64 8 32)
              (Scenario.silent_device Scenario.ns_s5) [])
    as (_ & _ & _ & [H _] & H2).
  split.
  - destruct (H eq_refl) as (_ & Hs & _). exact Hs.
  - apply H2; [lia|lia|reflexivity].
Defined.

Lemma openq_rejects_bad_queue_args_witness :
  unvme_openq (Core := SpecCore.core 60) "01:00.0" 0 1
    (Scenario.fresh (Scenario.prompt_device Scenario.ns_s5))
  = (None, mk_state (Scenario.prompt_device Scenario.ns_s5)
             [EvError "invalid qcount or qsize"])
  /\ unvme_openq (Core := SpecCore.core 60) "01:00.0" 0 2
      (Scenario.fresh (Scenario.prompt_device Scenario.ns_s5))
    = call_do_open (Core := SpecCore.core 60) 65536 1 0 2
        (Scenario.fresh (Scenario.prompt_device Scenario.ns_s5)).
Proof.
  split.
  - apply (openq_rejects_bad_queue_args (Core := SpecCore.core 60) "01:00.0" 0 1
             (Scenario.fresh (Scenario.prompt_device Scenario.ns_s5))).
    right; right; reflexivity.
  - apply (openq_rejects_bad_queue_args (Core := SpecCore.core 60) "01:00.0" 0 2
             (Scenario.fresh (Scenario.prompt_device Scenario.ns_s5))); lia.
Defined.

(** ** Claims about submission and the synchronous operations *)

Section IoClaims.

Context {World Desc : Type} {Core : UnvmeCore World Desc}.

Local Abbreviation ST := (state World Desc).

Lemma erase_yield_app (t1 t2 : list (event Desc)) :
  erase_yield (t1 ++ t2) = erase_yield t1 ++ erase_yield t2.
Proof. unfold erase_yield. apply filter_app. Qed.

Lemma same_run_refl {A : Type} (r : A * ST) : same_run r r.
Proof. by repeat split. Qed.

(** The shape shared by [unvme_read], [unvme_write] and [unvme_flush]:
    submit, and when a descriptor comes back, yield and poll once. *)
Lemma sync_shape (submit : M World Desc (option Desc)) (s : ST) :
  same_run
    (bind submit (fun desc =>
       match desc with
       | Some desc =>
           bind sched_yield (fun _ => call_do_poll desc UNVME_TIMEOUT None)
       | None => ret (-1)
       end) s)
    (submit_then_poll submit s).
Proof.
  unfold submit_then_poll, bind, unvme_apoll.
  destruct (submit s) as [[iod|] s1]; [|apply same_run_refl].
  unfold sched_yield, emit, call_do_poll. cbn [world trace].
  destruct (unvme_do_poll iod UNVME_TIMEOUT None (world s1)) as [rc w].
  repeat split. cbn [snd trace].
  rewrite !erase_yield_app. cbn. by rewrite app_nil_r.
Qed.

Lemma sync_failed_shape (submit : M World Desc (option Desc)) (s : ST) :
  (submit s).1 = None ->
  bind submit (fun desc =>
    match desc with
    | Some desc =>
        bind sched_yield (fun _ => call_do_poll desc UNVME_TIMEOUT None)
    | None => ret (-1)
    end) s
  = (-1, (submit s).2).
Proof.
  unfold bind. destruct (submit s) as [[iod|] s1]; cbn [fst snd]; [done|].
  reflexivity.
Qed.

(** C4.  Each synchronous operation gives the result, the world and (the
    scheduler yield apart) the calls of its asynchronous submission
    followed by one [unvme_apoll] with [UNVME_TIMEOUT]; when the submission
    returns no descriptor the result is -1 and the state is the one the
    submission left, so nothing was polled. *)
Theorem sync_is_submit_then_poll (ns : unvme_ns_t) (qid buf slba nlb : Z)
    (s : ST) :
  same_run (unvme_read ns qid buf slba nlb s)
           (submit_then_poll (unvme_aread ns qid buf slba nlb) s)
  /\ same_run (unvme_write ns qid buf slba nlb s)
              (submit_then_poll (unvme_awrite ns qid buf slba nlb) s)
  /\ same_run (unvme_flush ns qid s)
              (submit_then_poll (call_aflush ns qid) s)
  /\ ((unvme_aread ns qid buf slba nlb s).1 = None ->
      unvme_read ns qid buf slba nlb s
      = (-1, (unvme_aread ns qid buf slba nlb s).2))
  /\ ((unvme_awrite ns qid buf slba nlb s).1 = None ->
      unvme_write ns qid buf slba nlb s
      = (-1, (unvme_awrite ns qid buf slba nlb s).2))
  /\ ((call_aflush ns qid s).1 = None ->
      unvme_flush ns qid s = (-1, (call_aflush ns qid s).2)).
Proof.
  repeat split; try apply sync_shape; try apply (sync_shape _ s).
  all: intros Hnone; by apply sync_failed_shape.
Qed.

(** A submission alone never polls. *)
Lemma submission_does_not_poll (ns : unvme_ns_t) (qid buf slba nlb : Z)
    (opc : nvme_opc) (s : ST) :
  filter (fun e => is_poll e = true) (trace (call_rw ns qid opc buf slba nlb s).2)
  = filter (fun e => is_poll e = true) (trace s)
  /\ filter (fun e => is_poll e = true) (trace (call_aflush ns qid s).2)
     = filter (fun e => is_poll e = true) (trace s).
Proof.
  unfold call_rw, call_aflush.
  destruct (unvme_rw _ _ _ _ _ _ _) as [r w].
  destruct (unvme_aflush _ _ _) as [r' w']. cbn [snd trace].
  rewrite !filter_app. cbn. by rewrite !app_nil_r.
Qed.

(** C7.  [unvme_atranslate] makes exactly one call of the core: a
    vendor-extended WRITE of one block with the config flag set.
    [unvme_atranslate_read] makes exactly one: a vendor-extended READ of
    [nlb] blocks with the config flag set.  Each returns what that call
    returns. *)
Theorem atranslate_submits_one_extended (ns : unvme_ns_t)
    (qid buf slba nlb : Z) (s : ST) :
  (let r := unvme_rw_extended ns qid NVME_CMD_WRITE buf slba 1 1 (world s) in
   unvme_atranslate ns qid buf slba s
   = (r.1, mk_state r.2
             (trace s ++ [EvRwExtended qid NVME_CMD_WRITE buf slba 1 1 r.1])))
  /\ (let r := unvme_rw_extended ns qid NVME_CMD_READ buf slba nlb 1 (world s) in
      unvme_atranslate_read ns qid buf slba nlb s
      = (r.1, mk_state r.2
                (trace s ++ [EvRwExtended qid NVME_CMD_READ buf slba nlb 1 r.1]))).
Proof.
  unfold unvme_atranslate, unvme_atranslate_read, call_rw_extended.
  split; cbn zeta; by destruct (unvme_rw_extended _ _ _ _ _ _ _ _).
Qed.

End IoClaims.

Lemma sync_is_submit_then_poll_witness :
  unvme_read (Core := SpecCore.core 60) Scenario.ns_s5 0 0 0 0
    (Scenario.fresh (Scenario.prompt_device Scenario.ns_s5))
  = (-1, mk_state (Scenario.prompt_device Scenario.ns_s5)
           [EvRw 0 NVME_CMD_READ 0 0 0 None]).
Proof.
  apply (sync_is_submit_then_poll (Core := SpecCore.core 60) Scenario.ns_s5 0 0 0 0
           (Scenario.fresh (Scenario.prompt_device Scenario.ns_s5))).
  reflexivity.
Defined.

(** A read of one block on the prompt device, run both ways. *)
Example sync_read_runs :
  unvme_read (Core := SpecCore.core 60) Scenario.ns_s5 0 0 0 1
    (Scenario.fresh (Scenario.prompt_device Scenario.ns_s5))
  = (0, mk_state
          (SpecCore.mk_sim Scenario.ns_s5 0 (replicate 8 None) [] [])
          [EvRw 0 NVME_CMD_READ 0 0 1 (Some 0%nat); EvYield; EvPoll 0%nat 60 0]).
Proof. vm_compute. reflexivity. Qed.

(** ** Polling, on the model of the core *)

Module PollFacts.

Import SpecCore.

Lemma complete_lookup (t : list (option iod_status)) (c : cqe) (k : nat) :
  complete t c !! k
  = if bool_decide (k = cqe_cid c /\ t !! k = Some (Some PENDING))
    then Some (Some (status_of (cqe_status c)))
    else t !! k.
Proof.
  unfold complete. case_bool_decide as Hk.
  - destruct Hk as [-> Hp]. rewrite Hp.
    apply list_lookup_insert_eq. by eapply lookup_lt_Some.
  - destruct (t !! cqe_cid c) as [[[| |code]|]|] eqn:E; try done.
    destruct (decide (k = cqe_cid c)) as [->|Hne].
    + exfalso. apply Hk. by split.
    + by rewrite list_lookup_insert_ne.
Qed.

(** A sweep never touches a FREE slot nor a completed one, and leaves a
    reserved slot reserved. *)
Lemma sweep_settled (cs : list cqe) :
  forall (t : list (option iod_status)) (k : nat) (o : option iod_status),
    t !! k = Some o -> o <> Some PENDING ->
    foldl complete t cs !! k = Some o.
Proof.
  induction cs as [|c cs IH]; intros t k o Hk Hnp; cbn [foldl]; [done|].
  apply IH; [|done]. rewrite complete_lookup.
  case_bool_decide as H; [|done]. destruct H as [_ H]. congruence.
Qed.

Lemma sweep_live (cs : list cqe) :
  forall (t : list (option iod_status)) (k : nat) (st : iod_status),
    t !! k = Some (Some st) ->
    exists st', foldl complete t cs !! k = Some (Some st').
Proof.
  induction cs as [|c cs IH]; intros t k st Hk; cbn [foldl]; [by eexists|].
  pose proof (complete_lookup t c k) as Hc.
  case_bool_decide; eapply IH; rewrite Hc; [reflexivity|exact Hk].
Qed.

Lemma free_slot_lookup (cid : nat) (w : sim) (o : option iod_status) :
  table w !! cid = Some o -> table (free_slot cid w) !! cid = Some None.
Proof.
  intros H. unfold free_slot, with_table. cbn [table].
  apply list_lookup_insert_eq. by eapply lookup_lt_Some.
Qed.

Lemma poll_wait_live (budget : nat) :
  forall (w : sim) (cid : nat) (st : iod_status),
    table w !! cid = Some (Some st) ->
    poll_result cid (poll_wait budget cid w).
Proof.
  induction budget as [|budget IH]; intros w cid st Hlive; cbn [poll_wait].
  all: destruct (sweep_live (cq w) (table w) cid st Hlive) as [st' Hs].
  all: change (table (sweep w)) with (foldl complete (table w) (cq w)).
  all: rewrite Hs; destruct st' as [| |code].
  - right; right. cbn [fst snd]. by repeat split.
  - left. split; [done|]. by eapply free_slot_lookup.
  - right; left. split; [by eexists|]. by eapply free_slot_lookup.
  - eapply IH. cbn [tick table sweep]. exact Hs.
  - left. split; [done|]. by eapply free_slot_lookup.
  - right; left. split; [by eexists|]. by eapply free_slot_lookup.
Qed.

Lemma poll_wait_completed (budget : nat) (w : sim) (cid : nat)
    (st : iod_status) :
  table w !! cid = Some (Some st) -> st <> PENDING ->
  (poll_wait budget cid w).1
  = match st with OK => 0 | ERR c => Z.pos c | PENDING => -1 end.
Proof.
  intros Hlive Hst.
  assert (table (sweep w) !! cid = Some (Some st)) as Hs.
  { apply sweep_settled; [done|congruence]. }
  destruct budget; cbn [poll_wait]; rewrite Hs; by destruct st.
Qed.

(** After a timeout the completion is still taken: once the device posts
    the entry, any further poll reports it and frees the slot. *)
Lemma poll_wait_after_completion (budget : nat) (w : sim) (cid : nat) (sf : N) :
  table w !! cid = Some (Some PENDING) -> cq w = [] ->
  let r := poll_wait budget cid (device_completes (mk_cqe cid sf) w) in
  r.1 = Z.of_N sf /\ table r.2 !! cid = Some None.
Proof.
  intros Hp Hcq. cbn zeta.
  assert (table (sweep (device_completes (mk_cqe cid sf) w)) !! cid
          = Some (Some (status_of sf))) as Hs.
  { cbn [sweep device_completes table cq]. rewrite Hcq. cbn [app foldl].
    rewrite complete_lookup. cbn [cqe_cid cqe_status].
    by rewrite bool_decide_eq_true_2. }
  destruct budget; cbn [poll_wait]; rewrite Hs.
  all: destruct sf as [|p]; cbn [status_of fst snd].
  all: split; [reflexivity|by eapply free_slot_lookup].
Qed.

(** What a sweep makes of a pending command: the status of the first
    entry for it, if there is one. *)
Lemma sweep_answer (cid : nat) (batch : list cqe) :
  forall t : list (option iod_status),
    t !! cid = Some (Some PENDING) ->
    foldl complete t batch !! cid
    = Some (Some (match answer cid batch with
                  | Some sf => status_of sf
                  | None => PENDING
                  end)).
Proof.
  induction batch as [|c batch IH]; intros t Hp; cbn [foldl]; [done|].
  unfold answer. cbn [List.find].
  case_bool_decide as Hcid; pose proof (complete_lookup t c cid) as Hc.
  - rewrite bool_decide_eq_true_2 in Hc by (split; [done|by rewrite Hp]).
    cbn [fmap option_fmap option_map].
    apply sweep_settled; [done|]. by destruct (cqe_status c).
  - rewrite bool_decide_eq_false_2 in Hc by (intros [? _]; congruence).
    apply IH. by rewrite Hc.
Qed.

Lemma batch_at_tick (w : sim) (j : nat) :
  batch_at (tick (sweep w)) j = batch_at w (S j).
Proof.
  unfold batch_at, batches. cbn [tick sweep cq script app lookup].
  destruct (script w) as [|b0 bs]; destruct j; cbn; try done.
Qed.

(** A pending command whose first answer comes in batch [k], within the
    budget: the poll returns its status field and frees the slot. *)
Lemma poll_wait_answered (cid : nat) (sf : N) (budget : nat) :
  forall (w : sim) (k : nat),
    table w !! cid = Some (Some PENDING) ->
    (k <= budget)%nat ->
    (forall j, (j < k)%nat -> answer cid (batch_at w j) = None) ->
    answer cid (batch_at w k) = Some sf ->
    (poll_wait budget cid w).1 = Z.of_N sf
    /\ table (poll_wait budget cid w).2 !! cid = Some None.
Proof.
  induction budget as [|budget IH]; intros w k Hp Hk Hsilent Hans.
  all: pose proof (sweep_answer cid (cq w) (table w) Hp) as Hs.
  all: change (foldl complete (table w) (cq w)) with (table (sweep w)) in Hs.
  all: change (cq w) with (batch_at w 0) in Hs.
  - assert (k = 0%nat) as -> by lia. rewrite Hans in Hs.
    cbn [poll_wait]. rewrite Hs.
    destruct sf as [|p]; cbn [status_of fst snd];
      (split; [done|by eapply free_slot_lookup]).
  - destruct k as [|k].
    + rewrite Hans in Hs. cbn [poll_wait]. rewrite Hs.
      destruct sf as [|p]; cbn [status_of fst snd];
        (split; [done|by eapply free_slot_lookup]).
    + rewrite (Hsilent 0%nat) in Hs by lia.
      cbn [poll_wait]. rewrite Hs.
      apply (IH (tick (sweep w)) k); [exact Hs|lia| |].
      * intros j Hj. rewrite batch_at_tick. apply Hsilent. lia.
      * by rewrite batch_at_tick.
Qed.

(** A pending command with no answer in the batches 0 to [budget]: the
    poll times out and leaves the slot as it is. *)
Lemma poll_wait_unanswered (cid : nat) (budget : nat) :
  forall w : sim,
    table w !! cid = Some (Some PENDING) ->
    (forall k, (k <= budget)%nat -> answer cid (batch_at w k) = None) ->
    (poll_wait budget cid w).1 = -1.
Proof.
  induction budget as [|budget IH]; intros w Hp Hsilent.
  all: pose proof (sweep_answer cid (cq w) (table w) Hp) as Hs.
  all: change (foldl complete (table w) (cq w)) with (table (sweep w)) in Hs.
  all: change (cq w) with (batch_at w 0) in Hs.
  all: rewrite (Hsilent 0%nat) in Hs by lia.
  all: cbn [poll_wait]; rewrite Hs; try done.
  apply IH; [exact Hs|].
  intros k Hk. rewrite batch_at_tick. apply Hsilent. lia.
Qed.

(** C3.  On the model of the core, for a live descriptor [iod]:
    [unvme_apoll] returns 0, a positive status code, or -1; it returns 0
    when the command has completed OK and the device's code when it has
    completed with an error; on any return but -1 the slot of [iod] is
    FREE; on -1 the slot is still reserved (PENDING), and when the device
    then posts the completion, a further poll of the same [iod], with any
    timeout, returns that completion's status and frees the slot.  For a
    command still pending when the poll begins, the timeout decides: if
    the device's first answer for [iod] comes within [timeout] seconds
    (in the completion queue already, or posted during one of the first
    [timeout] seconds of waiting), the poll returns its status field, 0
    for OK and the code otherwise; if no answer comes within [timeout]
    seconds, the poll returns -1. *)
Theorem apoll_contract (default_timeout : Z) (w : sim) (iod : nat)
    (timeout : Z) (tr : list (event nat)) (st : iod_status) :
  table w !! iod = Some (Some st) ->
  let r := unvme_apoll (Core := core default_timeout) iod timeout
             (mk_state w tr) in
  (r.1 = 0 \/ 0 < r.1 \/ r.1 = -1)
  /\ (st = OK -> r.1 = 0)
  /\ (forall c, st = ERR c -> r.1 = Z.pos c)
  /\ (r.1 <> -1 -> table (world r.2) !! iod = Some None)
  /\ (r.1 = -1 ->
      table (world r.2) !! iod = Some (Some PENDING)
      /\ forall (sf : N) (timeout' : Z) (tr' : list (event nat)),
           let r' := unvme_apoll (Core := core default_timeout) iod timeout'
                       (mk_state (device_completes (mk_cqe iod sf) (world r.2))
                          tr') in
           r'.1 = Z.of_N sf /\ table (world r'.2) !! iod = Some None)
  /\ (st = PENDING ->
      forall (k : nat) (sf : N),
        (k <= Z.to_nat timeout)%nat ->
        (forall j, (j < k)%nat -> answer iod (batch_at w j) = None) ->
        answer iod (batch_at w k) = Some sf ->
        r.1 = Z.of_N sf /\ table (world r.2) !! iod = Some None)
  /\ (st = PENDING ->
      (forall k, (k <= Z.to_nat timeout)%nat ->
                 answer iod (batch_at w k) = None) ->
      r.1 = -1 /\ table (world r.2) !! iod = Some (Some PENDING)).
Proof.
  intros Hlive. cbn zeta.
  unfold unvme_apoll, call_do_poll. cbn [unvme_do_poll core world trace].
  unfold do_poll.
  pose proof (poll_wait_live (Z.to_nat timeout) w iod st Hlive) as Hres.
  pose proof (poll_wait_completed (Z.to_nat timeout) w iod st Hlive) as Hdone.
  pose proof (fun sf k => poll_wait_answered iod sf (Z.to_nat timeout) w k)
    as Hans.
  pose proof (poll_wait_unanswered iod (Z.to_nat timeout) w) as Hnone.
  destruct (poll_wait (Z.to_nat timeout) iod w) as [rc w'] eqn:E.
  cbn [fst snd world] in *. unfold poll_result in Hres. cbn [fst snd] in Hres.
  split_and!.
  - destruct Hres as [[-> _]|[[[c ->] _]|[-> _]]]; lia.
  - intros ->. by apply Hdone.
  - intros c ->. by apply Hdone.
  - intros Hrc. destruct Hres as [[_ H]|[[_ H]|[H _]]]; done.
  - intros Hrc.
    destruct Hres as [[H _]|[[[c H] _]|[_ [Hp Hcq]]]]; [lia|lia|].
    split; [done|]. intros sf timeout' tr'.
    pose proof (poll_wait_after_completion (Z.to_nat timeout') w' iod sf Hp Hcq)
      as Hre.
    cbn zeta in Hre.
    destruct (poll_wait (Z.to_nat timeout') iod _) as [rc' w'']. apply Hre.
  - intros -> k sf Hk Hsilent Hk_ans. by apply (Hans sf k).
  - intros -> Hsilent. specialize (Hnone Hlive Hsilent). split; [done|].
    destruct Hres as [[H _]|[[[c H] _]|[_ [Hp _]]]]; [lia|lia|done].
Qed.

End PollFacts.

(** Scenario S4: a poll with timeout 0 before the device answers, then a
    poll with timeout 5 after it has.  And a device that answers during
    the third second, with status 5: a poll with timeout 2 returns -1, a
    poll with timeout 3 returns 5. *)
Lemma apoll_contract_witness :
  (unvme_apoll (Core := SpecCore.core 60) 0%nat 0
     (Scenario.fresh (Scenario.one_pending Scenario.ns_s5))).1 = -1
  /\ (unvme_apoll (Core := SpecCore.core 60) 0%nat 5
        (Scenario.fresh
           (SpecCore.device_completes (Scenario.ok 0)
              (world (unvme_apoll (Core := SpecCore.core 60) 0%nat 0
                        (Scenario.fresh
                           (Scenario.one_pending Scenario.ns_s5))).2)))).1
     = 0
  /\ (unvme_apoll (Core := SpecCore.core 60) 0%nat 2
        (Scenario.fresh (Scenario.slow_device Scenario.ns_s5))).1 = -1
  /\ (unvme_apoll (Core := SpecCore.core 60) 0%nat 3
        (Scenario.fresh (Scenario.slow_device Scenario.ns_s5))).1 = 5.
Proof.
  destruct (PollFacts.apoll_contract 60 (Scenario.one_pending Scenario.ns_s5)
              0%nat 0 [] SpecCore.PENDING eq_refl) as (_ & _ & _ & _ & H & _).
  split; [reflexivity|]. split.
  { destruct (H eq_refl) as [_ H']. apply (H' 0%N 5 []). }
  split.
  - destruct (PollFacts.apoll_contract 60 (Scenario.slow_device Scenario.ns_s5)
                0%nat 2 [] SpecCore.PENDING eq_refl)
      as (_ & _ & _ & _ & _ & _ & Hnone).
    apply Hnone; [done|].
    intros [|[|[|k]]] Hk; try reflexivity.
    exfalso. change (Z.to_nat 2) with 2%nat in Hk. lia.
  - destruct (PollFacts.apoll_contract 60 (Scenario.slow_device Scenario.ns_s5)
                0%nat 3 [] SpecCore.PENDING eq_refl)
      as (_ & _ & _ & _ & _ & Hans & _).
    apply (Hans eq_refl 3%nat 5%N).
    + change (Z.to_nat 3) with 3%nat. lia.
    + intros [|[|[|j]]] Hj; try reflexivity. lia.
    + reflexivity.
Defined.

(** ** The set-features test program *)

Section CIntFacts.

Lemma to_u32_range (x : Z) : 0 <= CInt.to_u32 x < 2 ^ 32.
Proof. unfold CInt.to_u32. apply Z.mod_pos_bound. lia. Qed.

Lemma to_u32_small (x : Z) : 0 <= x < 2 ^ 32 -> CInt.to_u32 x = x.
Proof. intros H. unfold CInt.to_u32. by apply Z.mod_small. Qed.

Lemma to_int_small (x : Z) : 0 <= x < 2 ^ 31 -> CInt.to_int x = x.
Proof.
  intros H. unfold CInt.to_int. rewrite Z.mod_small by lia.
  destruct (Z.ltb_spec x (2 ^ 31)); lia.
Qed.

(** Converting an [int] to [unsigned] gives back the low 32 bits. *)
Lemma to_u32_to_int (x : Z) : CInt.to_u32 (CInt.to_int x) = CInt.to_u32 x.
Proof.
  unfold CInt.to_int, CInt.to_u32.
  destruct (Z.ltb_spec (x mod 2 ^ 32) (2 ^ 31)).
  - apply Z.mod_mod. lia.
  - rewrite <- (Z.mod_add _ 1) by lia.
    replace (x mod 2 ^ 32 - 2 ^ 32 + 1 * 2 ^ 32) with (x mod 2 ^ 32) by lia.
    apply Z.mod_mod. lia.
Qed.

End CIntFacts.

Module SetFeaturesFacts.

Import SetFeatures.

Section WithEnv.

Context {World : Type} {Env : NvmeEnv World}.

(** [main] reads [argv[1]], [argv[2]] and [argv[3]] and nothing else of
    [argv] but its length. *)
Lemma main_ignores_argv4 (argv : list string) (x : string) (w : World) :
  main (<[4%nat := x]> argv) w = main argv w.
Proof.
  unfold main, arg. rewrite length_insert.
  by rewrite !list_lookup_insert_ne by lia.
Qed.

Ltac run_main :=
  unfold main;
  repeat match goal with
    | |- context [if ?c then _ else _] => destruct c eqn:?
    | |- context [let '(_, _) := ?p in _] => destruct p eqn:?
    | |- context [match ?o with Some _ => _ | None => _ end] => destruct o eqn:?
    end.

(** What [main] does once the checks of its arguments have passed and
    the DMA buffer is there. *)
Lemma main_issues_command (argv : list string) (w : World) (prp1 : Z) :
  (5 <= length argv)%nat ->
  let nsid := CInt.to_int (Libc.strtol0 (arg argv 2)).1 in
  let fid := CInt.to_int (Libc.strtol0 (arg argv 3)).1 in
  let res := CInt.to_u32 (Libc.strtol0 (arg argv 3)).1 in
  let alloc := vfio_dma_alloc sizeof_nvme_feature_lba_data_t
                 (nvme_setup (arg argv 1) 8 w) in
  let reply := nvme_acmd_get_features nsid fid prp1 0 res alloc.2 in
  (Libc.strtol0 (arg argv 2)).2 = EmptyString ->
  (Libc.strtol0 (arg argv 3)).2 = EmptyString ->
  (fid <? NVME_FEATURE_ARBITRATION) || (NVME_FEATURE_ASYNC_EVENT <? fid)
  || (fid =? NVME_FEATURE_LBA_RANGE) = false ->
  alloc.1 = Some prp1 ->
  (main argv w).2
  = [Setup (arg argv 1) 8; DmaAlloc sizeof_nvme_feature_lba_data_t;
     GetFeatures nsid fid prp1 0 res reply.1.1 reply.1.2]
    ++ (if reply.1.1 =? 0
        then (if printed fid then [Printf fid reply.1.2] else []) ++ [Cleanup]
        else [Errx "set_features failed"]).
Proof.
  intros Hargc. cbn zeta. intros H2 H3 Hfid Hdma. unfold main.
  destruct (Z.ltb_spec (Z.of_nat (length argv)) 5) as [Hlt|_]; [lia|].
  destruct (Libc.strtol0 (arg argv 2)) as [v2 s2].
  destruct (Libc.strtol0 (arg argv 3)) as [v3 s3].
  cbn [fst snd] in *. subst s2 s3. cbn [is_empty negb].
  rewrite Hfid.
  destruct (vfio_dma_alloc _ _) as [dma w2]. cbn [fst snd] in *. subst dma.
  destruct (nvme_acmd_get_features _ _ _ _ _ _) as [[err res'] w3].
  cbn [fst snd].
  destruct (err =? 0); cbn [negb snd]; [|done].
  by destruct (printed _).
Qed.

(** C8.  In [main] of the set-features program, called with at least the
    four arguments: the run does not depend on [argv[4]] (FEATURE_ARG);
    whenever the features command is issued, the value of [res] it is
    given is [strtol (argv[3])] (FEATURE_ID) as an [u32], which is the
    feature identifier [fid] itself; and the value printed afterwards is
    the one the command left in [res].  The command is issued, once,
    whenever NSID and FEATURE_ID are numbers, the feature is a supported
    one and the DMA buffer is allocated: the run is then the setup, the
    allocation, the command with [res] from [argv[3]], and, if the
    command returns 0, the line printed from the value the command left
    in [res] (for a feature that has a line) and the cleanup. *)
Theorem set_features_res_from_feature_id (argv : list string) (w : World) :
  (5 <= length argv)%nat ->
  (forall x : string, main (<[4%nat := x]> argv) w = main argv w)
  /\ (forall nsid fid prp1 prp2 res_in err res_out,
        GetFeatures nsid fid prp1 prp2 res_in err res_out ∈ (main argv w).2 ->
        fid = CInt.to_int (Libc.strtol0 (arg argv 3)).1
        /\ res_in = CInt.to_u32 (Libc.strtol0 (arg argv 3)).1
        /\ res_in = CInt.to_u32 fid)
  /\ (forall fid v,
        Printf fid v ∈ (main argv w).2 ->
        exists nsid prp1 prp2 res_in,
          GetFeatures nsid fid prp1 prp2 res_in 0 v ∈ (main argv w).2)
  /\ (let nsid := CInt.to_int (Libc.strtol0 (arg argv 2)).1 in
      let fid := CInt.to_int (Libc.strtol0 (arg argv 3)).1 in
      let res := CInt.to_u32 (Libc.strtol0 (arg argv 3)).1 in
      let alloc := vfio_dma_alloc sizeof_nvme_feature_lba_data_t
                     (nvme_setup (arg argv 1) 8 w) in
      forall prp1 : Z,
        (Libc.strtol0 (arg argv 2)).2 = EmptyString ->
        (Libc.strtol0 (arg argv 3)).2 = EmptyString ->
        (fid <? NVME_FEATURE_ARBITRATION) || (NVME_FEATURE_ASYNC_EVENT <? fid)
        || (fid =? NVME_FEATURE_LBA_RANGE) = false ->
        alloc.1 = Some prp1 ->
        let reply := nvme_acmd_get_features nsid fid prp1 0 res alloc.2 in
        (main argv w).2
        = [Setup (arg argv 1) 8; DmaAlloc sizeof_nvme_feature_lba_data_t;
           GetFeatures nsid fid prp1 0 res reply.1.1 reply.1.2]
          ++ (if reply.1.1 =? 0
              then (if printed fid then [Printf fid reply.1.2] else [])
                   ++ [Cleanup]
              else [Errx "set_features failed"])).
Proof.
  intros Hargc. split_and!.
  - intros x. apply main_ignores_argv4.
  - intros nsid fid prp1 prp2 res_in err res_out.
    run_main; cbn [snd]; intros Hin; set_unfold in Hin;
      destruct_or?; simplify_eq.
    all: injection Hin as -> -> -> -> -> -> ->.
    all: cbn [fst]; rewrite to_u32_to_int; by repeat split.
  - intros fid v.
    run_main; cbn [snd]; intros Hin; set_unfold in Hin;
      destruct_or?; simplify_eq.
    match goal with
    | H : negb (?e =? 0) = false |- _ =>
        apply negb_false_iff, Z.eqb_eq in H; subst e
    end.
    do 4 eexists.
    rewrite !elem_of_app, !list_elem_of_singleton. left; left; right.
    reflexivity.
  - cbn zeta. intros prp1 H2 H3 Hfid Hdma.
    by apply main_issues_command.
Qed.

End WithEnv.

End SetFeaturesFacts.

(** FEATURE_ID 7 with FEATURE_ARG 0x20002 on a device that replies 99:
    the command is given 7, the line is printed from 99, and the run is
    the one with FEATURE_ARG 0. *)
Lemma set_features_res_from_feature_id_witness :
  SetFeatures.main (Env := SetFeatures.echo_env)
    (<[4%nat := "0"]> ["prog"; "01:00.0"; "1"; "7"; "0x20002"]) 99
  = SetFeatures.main (Env := SetFeatures.echo_env)
      ["prog"; "01:00.0"; "1"; "7"; "0x20002"] 99
  /\ (forall nsid fid prp1 prp2 res_in err res_out,
        SetFeatures.GetFeatures nsid fid prp1 prp2 res_in err res_out
        ∈ (SetFeatures.main (Env := SetFeatures.echo_env)
             ["prog"; "01:00.0"; "1"; "7"; "0x20002"] 99).2 ->
        res_in = 7)
  /\ (SetFeatures.main (Env := SetFeatures.echo_env)
        ["prog"; "01:00.0"; "1"; "7"; "0x20002"] 99).2
     = [SetFeatures.Setup "01:00.0" 8; SetFeatures.DmaAlloc 4096;
        SetFeatures.GetFeatures 1 7 65536 0 7 0 99;
        SetFeatures.Printf 7 99; SetFeatures.Cleanup].
Proof.
  destruct (SetFeaturesFacts.set_features_res_from_feature_id
              (Env := SetFeatures.echo_env)
              ["prog"; "01:00.0"; "1"; "7"; "0x20002"] 99)
    as (H1 & H2 & _ & H4).
  - cbn. lia.
  - split; [apply H1|]. split.
    + intros nsid fid prp1 prp2 res_in err res_out Hin.
      destruct (H2 _ _ _ _ _ _ _ Hin) as (_ & Hres & _). exact Hres.
    + apply (H4 65536); reflexivity.
Defined.

(** ** [unvme_translate_region]: loops and invariants *)

Section RegionLoops.

Context {World Desc : Type} {Core : UnvmeCore World Desc}.

Local Abbreviation ST := (state World Desc).

Variables (ns : unvme_ns_t) (qid buf slba nlb : Z).

(** An invariant of the fill loop carries over to its end. *)
Lemma fill_window_inv (P : locals Desc -> ST -> Prop) (nrequests : Z) :
  (forall l s r s',
     P l s -> i l < maxiopq ns -> CInt.to_u32 (i l) < nrequests ->
     submit_read ns qid buf slba nlb nrequests l s = (r, s') ->
     P {| desc := desc_store (desc l) (i l) r;
          i := CInt.to_int (i l + 1);
          j := j l;
          pending := pending l;
          readOffset := next_readOffset ns l |} s') ->
  forall n l s,
    P l s ->
    P (fill_window n ns qid buf slba nlb nrequests l s).1
      (fill_window n ns qid buf slba nlb nrequests l s).2.
Proof.
  intros Hstep. induction n as [|n IH]; intros l s HP; cbn [fill_window].
  - exact HP.
  - destruct (Z.ltb_spec (i l) (maxiopq ns)); [|exact HP].
    destruct (Z.leb_spec nrequests (CInt.to_u32 (i l))); [exact HP|].
    unfold bind.
    destruct (submit_read ns qid buf slba nlb nrequests l s) as [r s'] eqn:E.
    apply IH. by eapply Hstep.
Qed.

(** The fault of the polling body is raised by the load of [desc[j]],
    before anything else is done. *)
Lemma poll_body_fault (nrequests maxj : Z) (l : locals Desc) (s s' : ST)
    (flt : fault) :
  poll_body ns qid buf slba nlb nrequests maxj l s = (inr flt, s') ->
  s' = s /\ desc_load (desc l) (j l) = inr flt.
Proof.
  unfold poll_body.
  destruct (desc_load (desc l) (j l)) as [[dj|]|flt'] eqn:E.
  - destruct (sched_yield s) as [u s1].
    destruct (call_do_poll dj UNVME_TIMEOUT None s1) as [rc s2].
    destruct (rc =? 0); [|discriminate].
    destruct (CInt.to_u32 (i l) <? nrequests); [|discriminate].
    by destruct (submit_read _ _ _ _ _ _ _ _).
  - discriminate.
  - intros [= -> ->]. by split.
Qed.

(** An invariant of the polling body holds in the last state of the
    loop, however the loop ends; when it ends by returning, the value is
    0 and [pending] has reached 0. *)
Lemma poll_loop_inv (P : locals Desc -> ST -> Prop) (nrequests maxj : Z) :
  (forall l s l' s',
     P l s ->
     poll_body ns qid buf slba nlb nrequests maxj l s = (inl l', s') ->
     P l' s') ->
  forall fuel l s,
    P l s ->
    let r := poll_loop fuel ns qid buf slba nlb nrequests maxj l s in
    (exists l', P l' r.2)
    /\ (forall rc, r.1 = Returns rc ->
        rc = 0 /\ exists l', P l' r.2 /\ pending l' <= 0).
Proof.
  intros Hstep. induction fuel as [|fuel IH]; intros l s HP; cbn [poll_loop].
  - cbn. split; [by exists l|]. intros rc [=].
  - destruct (poll_body ns qid buf slba nlb nrequests maxj l s)
      as [[l'|flt] s'] eqn:E.
    + pose proof (Hstep _ _ _ _ HP E) as HP'.
      destruct (Z.ltb_spec 0 (pending l')).
      * by apply IH.
      * cbn. split; [by exists l'|]. intros rc [= <-]. split; [done|].
        exists l'. by split.
    + apply poll_body_fault in E as [-> _]. cbn.
      split; [by exists l|]. intros rc [=].
Qed.

End RegionLoops.

(** ** [unvme_translate_region]: the request plan *)

Section RegionPlan.

Context {World Desc : Type} {Core : UnvmeCore World Desc}.

Local Abbreviation ST := (state World Desc).

Variables (ns : unvme_ns_t) (qid buf slba nlb config_nlb : Z).

Local Abbreviation nreq := (nrequests_of ns nlb).

Lemma ceil_div_split (a m : Z) :
  0 <= a -> 1 <= m -> ceil_div a m = a / m + CInt.notnot (a mod m).
Proof.
  intros Ha Hm. unfold ceil_div, CInt.notnot.
  pose proof (Z.div_mod a m ltac:(lia)) as Hdm.
  pose proof (Z.mod_pos_bound a m ltac:(lia)) as Hr.
  destruct (Z.eqb_spec (a mod m) 0) as [H0|H0].
  - symmetry. apply (Z.div_unique _ _ _ (m - 1)); lia.
  - symmetry. apply (Z.div_unique _ _ _ (a mod m - 1)); lia.
Qed.

Lemma nrequests_of_ceil :
  0 <= nlb -> 1 <= maxbpio ns -> ceil_div nlb (maxbpio ns) + 1 < 2 ^ 32 ->
  nreq = ceil_div nlb (maxbpio ns) + 1.
Proof.
  intros Hn Hm Hfit. unfold nrequests_of.
  rewrite <- ceil_div_split by done.
  apply to_u32_small.
  assert (0 <= ceil_div nlb (maxbpio ns)); [|lia].
  unfold ceil_div. apply Z.div_pos; lia.
Qed.

Lemma read_nlb_u32 (k : Z) :
  read_nlb ns nlb nreq k = read_nlb ns nlb nreq (CInt.to_u32 k).
Proof.
  unfold read_nlb, CInt.to_u32. by rewrite Z.mod_mod by lia.
Qed.

Lemma to_u32_succ (x : Z) :
  CInt.to_u32 x + 1 < 2 ^ 32 ->
  CInt.to_u32 (CInt.to_int (x + 1)) = CInt.to_u32 x + 1.
Proof.
  intros H. rewrite to_u32_to_int. unfold CInt.to_u32 in *.
  rewrite <- Z.add_mod_idemp_l by lia. apply Z.mod_small.
  pose proof (Z.mod_pos_bound x (2 ^ 32) ltac:(lia)). lia.
Qed.

(** The reads in closed form. *)
Lemma planned_reads :
  0 <= nlb -> 1 <= maxbpio ns -> ceil_div nlb (maxbpio ns) + 1 < 2 ^ 32 ->
  read_nlb ns nlb nreq <$> seqZ 1 (nreq - 1) = read_plan ns nlb.
Proof.
  intros Hn Hm Hfit.
  pose proof (nrequests_of_ceil Hn Hm Hfit) as Hnreq.
  rewrite Hnreq. rewrite ceil_div_split in * by done.
  pose proof (Z.div_pos nlb (maxbpio ns) Hn ltac:(lia)) as Hq.
  set (q := nlb / maxbpio ns) in *. set (r := nlb mod maxbpio ns) in *.
  assert (read_nlb ns nlb (q + CInt.notnot r + 1) <$> seqZ 1 q
          = replicate (Z.to_nat q) (maxbpio ns)) as Hfull.
  { symmetry. apply replicate_as_Forall. rewrite length_fmap, length_seqZ.
    split; [done|]. apply Forall_fmap, Forall_seqZ. intros k Hk. cbn.
    unfold read_nlb. fold r.
    destruct (Z.eqb_spec r 0) as [->|Hr]; [by rewrite andb_false_r|].
    rewrite (proj2 (Z.eqb_neq _ _)); [done|].
    unfold CInt.notnot in *. rewrite (proj2 (Z.eqb_neq r 0)) in * by done.
    rewrite !to_u32_small; lia. }
  unfold read_plan. fold q r. unfold CInt.notnot in *.
  destruct (Z.eqb_spec r 0) as [Hr|Hr].
  - replace (q + 0 + 1 - 1) with q by lia. rewrite app_nil_r.
    rewrite <- Hfull. by replace (q + 0 + 1) with (q + 1) by lia.
  - replace (q + 1 + 1 - 1) with (q + 1) by lia.
    rewrite seqZ_app, fmap_app by lia. rewrite Hfull. f_equal.
    rewrite seqZ_cons, seqZ_nil by lia. cbn [fmap list_fmap].
    unfold read_nlb. fold r.
    rewrite (proj2 (Z.eqb_eq _ _)), (proj2 (Z.eqb_neq r 0)) by (done || f_equal; lia).
    reflexivity.
Qed.

Lemma sum_list_app (l1 l2 : list Z) :
  sum_list (l1 ++ l2) = sum_list l1 + sum_list l2.
Proof. unfold sum_list. induction l1 as [|x l1 IH]; cbn; lia. Qed.

Lemma sum_list_replicate (n : nat) (x : Z) :
  sum_list (replicate n x) = Z.of_nat n * x.
Proof. unfold sum_list. induction n as [|n IH]; cbn [replicate foldr]; lia. Qed.

Lemma read_plan_total :
  0 <= nlb -> 1 <= maxbpio ns ->
  sum_list (read_plan ns nlb) = nlb
  /\ Z.of_nat (length (read_plan ns nlb)) = ceil_div nlb (maxbpio ns).
Proof.
  intros Hn Hm. rewrite ceil_div_split by done. unfold read_plan, CInt.notnot.
  pose proof (Z.div_mod nlb (maxbpio ns) ltac:(lia)) as Hdm.
  pose proof (Z.div_pos nlb (maxbpio ns) Hn ltac:(lia)) as Hq.
  rewrite sum_list_app, sum_list_replicate, length_app, length_replicate.
  destruct (Z.eqb_spec (nlb mod maxbpio ns) 0); cbn [sum_list foldr length]; lia.
Qed.

End RegionPlan.

Section RegionPlanInv.

Context {World Desc : Type} {Core : UnvmeCore World Desc}.

Local Abbreviation ST := (state World Desc).

Variables (ns : unvme_ns_t) (qid buf slba nlb config_nlb : Z).

Local Abbreviation nreq := (nrequests_of ns nlb).

Lemma seqZ_snoc (m n : Z) : 0 <= n -> seqZ m (n + 1) = seqZ m n ++ [m + n].
Proof.
  intros Hn. rewrite seqZ_app by lia. reflexivity.
Qed.

Lemma plan_inv_submit (l l' : locals Desc) (s s' : ST) (r : option Desc) :
  plan_inv ns qid buf slba nlb config_nlb l s -> CInt.to_u32 (i l) < nreq ->
  submit_read ns qid buf slba nlb nreq l s = (r, s') ->
  i l' = CInt.to_int (i l + 1) ->
  plan_inv ns qid buf slba nlb config_nlb l' s'.
Proof.
  intros (Hu & Hreads & d & rest & Htr) Hlt Hsub Hi.
  unfold submit_read, call_rw_extended in Hsub.
  destruct (unvme_rw_extended _ _ _ _ _ _ _ _) as [r' w'].
  injection Hsub as -> <-.
  assert (nreq < 2 ^ 32) as Hn by (unfold nrequests_of; apply to_u32_range).
  unfold plan_inv. cbn [trace]. rewrite Hi, to_u32_succ by lia.
  split_and!; try lia.
  - unfold submitted_reads in *. rewrite omap_app, Hreads. cbn [omap read_size].
    replace (CInt.to_u32 (i l) + 1 - 1) with (CInt.to_u32 (i l) - 1 + 1) by lia.
    rewrite seqZ_snoc, fmap_app by lia. cbn [fmap list_fmap].
    rewrite (read_nlb_u32 ns nlb (i l)).
    by replace (1 + (CInt.to_u32 (i l) - 1)) with (CInt.to_u32 (i l)) by lia.
  - rewrite Htr. by eexists _, _.
Qed.

Lemma plan_inv_poll (l l' : locals Desc) (s s1 s2 : ST) (dj : Desc) (rc : Z)
    (u : unit) :
  plan_inv ns qid buf slba nlb config_nlb l s ->
  sched_yield s = (u, s1) ->
  call_do_poll dj UNVME_TIMEOUT None s1 = (rc, s2) ->
  i l' = i l ->
  plan_inv ns qid buf slba nlb config_nlb l' s2.
Proof.
  intros (Hu & Hreads & d & rest & Htr) Hy Hp Hi.
  unfold sched_yield, emit in Hy. injection Hy as _ <-.
  unfold call_do_poll in Hp. cbn [world trace] in Hp.
  destruct (unvme_do_poll _ _ _ _) as [rc' w']. injection Hp as -> <-.
  unfold plan_inv. rewrite Hi. cbn [trace]. split_and!; try lia.
  - unfold submitted_reads in *. rewrite !omap_app, Hreads. cbn.
    by rewrite !app_nil_r.
  - rewrite Htr. by eexists _, _.
Qed.

Lemma loop_inv_body (maxj : Z) (l l' : locals Desc) (s s' : ST) :
  loop_inv ns qid buf slba nlb config_nlb l s ->
  poll_body ns qid buf slba nlb nreq maxj l s = (inl l', s') ->
  loop_inv ns qid buf slba nlb config_nlb l' s'.
Proof.
  intros [Hplan Hpend]. unfold poll_body.
  destruct (desc_load (desc l) (j l)) as [[dj|]|flt]; [| |discriminate].
  - destruct (sched_yield s) as [u s1] eqn:Hy.
    destruct (call_do_poll dj UNVME_TIMEOUT None s1) as [rc s2] eqn:Hp.
    destruct (rc =? 0).
    + destruct (Z.ltb_spec (CInt.to_u32 (i l)) nreq) as [Hlt|Hge].
      * destruct (submit_read ns qid buf slba nlb nreq l s2) as [r s3] eqn:Hs.
        intros [= <- <-]. split.
        -- eapply (plan_inv_submit l); [|done|exact Hs|reflexivity].
           by eapply (plan_inv_poll l l).
        -- left. cbn [advance_j pending].
           destruct Hpend as [?|?]; [done|lia].
      * intros [= <- <-]. split.
        -- by eapply (plan_inv_poll l).
        -- right. cbn [advance_j i]. destruct Hplan as [? _]. lia.
    + intros [= <- <-]. split; [by eapply (plan_inv_poll l)|done].
  - intros [= <- <-]. done.
Qed.

Lemma fill_inv_step (l : locals Desc) (s s' : ST) (r : option Desc) :
  CInt.is_u16 (maxiopq ns) ->
  fill_inv ns qid buf slba nlb config_nlb l s ->
  i l < maxiopq ns -> CInt.to_u32 (i l) < nreq ->
  submit_read ns qid buf slba nlb nreq l s = (r, s') ->
  fill_inv ns qid buf slba nlb config_nlb
    {| desc := desc_store (desc l) (i l) r;
              i := CInt.to_int (i l + 1);
              j := j l;
              pending := pending l;
              readOffset := next_readOffset ns l |} s'.
Proof.
  intros Hm [Hplan Hi] Hlt Hltn Hs. split.
  - by eapply (plan_inv_submit l).
  - cbn [i]. unfold CInt.is_u16 in Hm. rewrite to_int_small; lia.
Qed.

(** The state in which the polling loop is entered. *)
Lemma setup_loop_inv (l : locals Desc) (s s' : ST) :
  CInt.is_u16 (maxiopq ns) -> 1 <= nreq ->
  trace s = [] ->
  translate_region_setup ns qid buf slba nlb config_nlb s = (inl l, s') ->
  loop_inv ns qid buf slba nlb config_nlb l s'.
Proof.
  intros Hm Hn Hnil. unfold translate_region_setup.
  destruct (maxbpio ns =? 0); [discriminate|].
  destruct (call_rw_extended _ _ _ _ _ _ _ s) as [r s1] eqn:Hc.
  destruct (maxiopq ns <=? 0); [discriminate|].
  set (l0 := {| desc := _; i := 1; j := 0; pending := 0; readOffset := 0 |}).
  assert (fill_inv ns qid buf slba nlb config_nlb l0 s1) as H0.
  { unfold call_rw_extended in Hc.
    destruct (unvme_rw_extended _ _ _ _ _ _ _ _) as [r' w'].
    injection Hc as -> <-. split; [|cbn; lia].
    unfold plan_inv. cbn [i trace l0]. rewrite Hnil, (to_u32_small 1) by lia.
    split_and!; [lia|lia|reflexivity|by eexists _, _]. }
  pose proof (fill_window_inv ns qid buf slba nlb
                (fill_inv ns qid buf slba nlb config_nlb) nreq
                (fun l s r s' => fill_inv_step l s s' r Hm)
                (Z.to_nat (maxiopq ns - 1)) l0 s1 H0) as Hf.
  destruct (fill_window _ _ _ _ _ _ _ l0 s1) as [l1 s2].
  intros [= <- <-]. cbn [fst snd] in Hf. destruct Hf as [Hplan Hi].
  split; [exact Hplan|]. left. cbn [pending]. lia.
Qed.

Lemma config_first_snoc (s : ST) (w' : World) (e : event Desc) :
  config_first qid buf slba config_nlb s ->
  config_first qid buf slba config_nlb (mk_state w' (trace s ++ [e])).
Proof.
  intros (d & rest & Htr). unfold config_first. cbn [trace]. rewrite Htr.
  by eexists _, _.
Qed.

Lemma config_first_submit (l : locals Desc) (s s' : ST) (r : option Desc) :
  config_first qid buf slba config_nlb s ->
  submit_read ns qid buf slba nlb nreq l s = (r, s') ->
  config_first qid buf slba config_nlb s'.
Proof.
  intros HQ Hs. unfold submit_read, call_rw_extended in Hs.
  destruct (unvme_rw_extended _ _ _ _ _ _ _ _) as [r' w'].
  injection Hs as _ <-. by apply config_first_snoc.
Qed.

Lemma config_first_body (maxj : Z) (l l' : locals Desc) (s s' : ST) :
  config_first qid buf slba config_nlb s ->
  poll_body ns qid buf slba nlb nreq maxj l s = (inl l', s') ->
  config_first qid buf slba config_nlb s'.
Proof.
  intros HQ. unfold poll_body.
  destruct (desc_load (desc l) (j l)) as [[dj|]|flt]; [| |discriminate].
  - unfold sched_yield, emit, call_do_poll. cbn [world trace].
    destruct (unvme_do_poll _ _ _ _) as [rc w'].
    assert (config_first qid buf slba config_nlb
              (mk_state w' ((trace s ++ [EvYield])
                            ++ [EvPoll dj UNVME_TIMEOUT rc]))) as HQ2.
    { apply (config_first_snoc (mk_state (world s) (trace s ++ [EvYield]))).
      by apply config_first_snoc. }
    destruct (rc =? 0); [|by intros [= <- <-]].
    destruct (_ <? _); [|by intros [= <- <-]].
    destruct (submit_read _ _ _ _ _ _ _ _) as [r s3] eqn:Hs.
    intros [= <- <-]. by eapply config_first_submit.
  - by intros [= <- <-].
Qed.

(** Every trace of [unvme_translate_region] begins with the config
    write. *)
Lemma config_write_first (fuel : nat) (w : World) :
  maxbpio ns <> 0 ->
  config_first qid buf slba config_nlb
    (unvme_translate_region fuel ns qid buf slba nlb config_nlb
       (mk_state w [])).2.
Proof.
  intros Hm.
  unfold unvme_translate_region, translate_region_setup.
  rewrite (proj2 (Z.eqb_neq _ _)) by done.
  unfold call_rw_extended at 1. cbn [world trace].
  destruct (unvme_rw_extended ns qid NVME_CMD_WRITE _ _ _ _ w) as [r w1].
  set (s1 := mk_state w1 _).
  assert (config_first qid buf slba config_nlb s1) as H1 by (by eexists _, _).
  destruct (maxiopq ns <=? 0); [exact H1|].
  match goal with
  | |- context [fill_window ?n _ _ _ _ _ _ ?lx s1] =>
      pose proof (fill_window_inv ns qid buf slba nlb
                    (fun _ s => config_first qid buf slba config_nlb s) nreq
                    (fun l s r s' HQ _ _ Hs => config_first_submit l s s' r HQ Hs)
                    n lx s1 H1) as Hf;
      destruct (fill_window n ns qid buf slba nlb nreq lx s1) as [l1 s2]
  end.
  cbn [fst snd] in Hf.
  match goal with
  | |- context [poll_loop fuel _ _ _ _ _ _ ?mj ?lx s2] =>
      pose proof (poll_loop_inv ns qid buf slba nlb
                    (fun _ s => config_first qid buf slba config_nlb s) nreq mj
                    (fun l s l' s' HQ Hb => config_first_body mj l l' s s' HQ Hb)
                    fuel lx s2 Hf) as [[_ Hl] _]
  end.
  exact Hl.
Qed.

End RegionPlanInv.

(** ** Claims about the request plan and the return value *)

Section RegionClaims.

Context {World Desc : Type} {Core : UnvmeCore World Desc}.

Local Abbreviation ST := (state World Desc).

Variables (ns : unvme_ns_t) (qid buf slba nlb config_nlb : Z).

(** C2, as amended.  With [nlb >= 1], [maxbpio >= 1] and
    [ceil (nlb / maxbpio) + 1] representable in 32 bits: [nrequests] is
    [ceil (nlb / maxbpio) + 1]; the first call made is the config write;
    and in every run that returns, the reads submitted are, in order,
    [nlb / maxbpio] reads of [maxbpio] blocks followed, when [nlb] is not
    a multiple of [maxbpio], by one read of [nlb mod maxbpio] blocks:
    [ceil (nlb / maxbpio)] reads whose block counts add up to [nlb]. *)
Theorem translate_region_request_plan (fuel : nat) (w : World) :
  ns_wf ns -> 1 <= nlb -> 1 <= maxbpio ns ->
  ceil_div nlb (maxbpio ns) + 1 < 2 ^ 32 ->
  let r := unvme_translate_region fuel ns qid buf slba nlb config_nlb
             (mk_state w []) in
  nrequests_of ns nlb = ceil_div nlb (maxbpio ns) + 1
  /\ (exists d rest,
        trace r.2
        = EvRwExtended qid NVME_CMD_WRITE buf slba config_nlb 1 d :: rest)
  /\ (forall rc, r.1 = Returns rc ->
        submitted_reads (trace r.2) = read_plan ns nlb
        /\ Z.of_nat (length (submitted_reads (trace r.2)))
           = ceil_div nlb (maxbpio ns)
        /\ sum_list (submitted_reads (trace r.2)) = nlb).
Proof.
  intros (_ & _ & Hq) Hnlb Hm Hfit. cbn zeta.
  pose proof (nrequests_of_ceil ns nlb ltac:(lia) Hm Hfit) as Hnreq.
  split_and!; [exact Hnreq|apply config_write_first; lia|].
  intros rc Hret.
  assert (submitted_reads
            (trace (unvme_translate_region fuel ns qid buf slba nlb config_nlb
                      (mk_state w [])).2)
          = read_plan ns nlb) as Hplan.
  { unfold unvme_translate_region in *.
    destruct (translate_region_setup ns qid buf slba nlb config_nlb
                (mk_state w [])) as [[l|flt] s'] eqn:Hsetup; [|discriminate].
    assert (0 <= ceil_div nlb (maxbpio ns)) as Hc.
    { unfold ceil_div. apply Z.div_pos; lia. }
    pose proof (setup_loop_inv ns qid buf slba nlb config_nlb l
                  (mk_state w []) s' Hq ltac:(lia) eq_refl Hsetup) as Hinv.
    destruct (poll_loop_inv ns qid buf slba nlb
                (loop_inv ns qid buf slba nlb config_nlb)
                (nrequests_of ns nlb) (maxj_of ns (nrequests_of ns nlb))
                (fun l0 s0 l1 s1 =>
                   loop_inv_body ns qid buf slba nlb config_nlb
                     (maxj_of ns (nrequests_of ns nlb)) l0 l1 s0 s1)
                fuel l s' Hinv) as [_ Hend].
    destruct (Hend rc Hret) as (_ & l' & [(Hu & Hreads & _) Hpend] & Hzero).
    rewrite Hreads.
    replace (CInt.to_u32 (i l')) with (nrequests_of ns nlb) by lia.
    apply planned_reads; lia. }
  rewrite Hplan.
  destruct (read_plan_total ns nlb ltac:(lia) Hm) as [Hsum Hlen]. done.
Qed.

(** C10.  Whenever [unvme_translate_region] returns, it returns 0: for
    every implementation of the core, that is, whatever its submissions
    and polls answer. *)
Theorem translate_region_returns_0 (fuel : nat) (s : ST) (rc : Z) :
  (unvme_translate_region fuel ns qid buf slba nlb config_nlb s).1 = Returns rc ->
  rc = 0.
Proof.
  unfold unvme_translate_region.
  destruct (translate_region_setup ns qid buf slba nlb config_nlb s)
    as [[l|flt] s'] eqn:Hsetup; [|discriminate].
  intros Hret.
  destruct (poll_loop_inv ns qid buf slba nlb (fun _ _ => True)
              (nrequests_of ns nlb) (maxj_of ns (nrequests_of ns nlb))
              (fun _ _ _ _ _ _ => I) fuel l s' I) as [_ Hend].
  by destruct (Hend rc Hret).
Qed.

End RegionClaims.

(** Ten blocks in reads of at most four, window of four: a config write
    and the reads 4, 4, 2, then 0 is returned. *)
Lemma translate_region_request_plan_witness :
  nrequests_of Scenario.ns_small 10 = ceil_div 10 4 + 1
  /\ submitted_reads
       (trace (unvme_translate_region (Core := SpecCore.core 60) 10
                 Scenario.ns_small 0 0 0 10 1
                 (Scenario.fresh (Scenario.prompt_device Scenario.ns_small))).2)
     = [4; 4; 2].
Proof.
  destruct (translate_region_request_plan (Core := SpecCore.core 60)
              Scenario.ns_small 0 0 0 10 1 10%nat
              (Scenario.prompt_device Scenario.ns_small))
    as (H1 & _ & H3).
  - unfold ns_wf, CInt.is_u16. cbn. lia.
  - lia.
  - cbn. lia.
  - vm_compute. reflexivity.
  - split; [exact H1|]. destruct (H3 0) as [H _]; [reflexivity|exact H].
Defined.

Lemma small_region_returns :
  (unvme_translate_region (Core := SpecCore.core 60) 10
     Scenario.ns_small 0 0 0 10 1
     (Scenario.fresh (Scenario.prompt_device Scenario.ns_small))).1
  = Returns 0.
Proof.
  reflexivity.
Qed.

Lemma translate_region_returns_0_witness :
  exists rc,
    (unvme_translate_region (Core := SpecCore.core 60) 10
       Scenario.ns_small 0 0 0 10 1
       (Scenario.fresh (Scenario.prompt_device Scenario.ns_small))).1
    = Returns rc
    /\ rc = 0.
Proof.
  exists 0. split; [reflexivity|].
  apply (translate_region_returns_0 (Core := SpecCore.core 60)
           Scenario.ns_small 0 0 0 10 1 10%nat
           (Scenario.fresh (Scenario.prompt_device Scenario.ns_small)) 0).
  reflexivity.
Defined.

(** ** [unvme_translate_region]: the polling index *)

Section RegionOverrun.

Context {World Desc : Type} {Core : UnvmeCore World Desc}.

Local Abbreviation ST := (state World Desc).

Variables (ns : unvme_ns_t) (qid buf slba nlb config_nlb : Z).

Local Abbreviation nreq := (nrequests_of ns nlb).
Local Abbreviation m := (maxiopq ns).

Lemma stored_below_store (k idx : Z) (a : list (slot Desc)) (p : option Desc) :
  0 <= idx < Z.of_nat (length a) -> idx <= k ->
  stored_below k a ->
  stored_below (Z.max k (idx + 1)) (desc_store a idx p).
Proof.
  intros Hidx Hk Ha n Hn. unfold desc_store.
  destruct (decide (n = Z.to_nat idx)) as [->|Hne].
  - exists p. apply list_lookup_insert_eq. lia.
  - rewrite list_lookup_insert_ne by done. apply Ha. lia.
Qed.

Lemma desc_load_stored (a : list (slot Desc)) (k : Z) :
  stored_below (Z.of_nat (length a)) a -> 0 <= k < Z.of_nat (length a) ->
  exists p, desc_load a k = inl p.
Proof.
  intros Ha Hk. unfold desc_load.
  destruct (Z.ltb_spec k 0); [lia|].
  destruct (Z.leb_spec (Z.of_nat (length a)) k); [lia|]. cbn [orb].
  destruct (Ha (Z.to_nat k) ltac:(lia)) as [p ->]. by exists p.
Qed.

Lemma desc_load_end (a : list (slot Desc)) :
  desc_load a (Z.of_nat (length a)) = inr (OutOfBounds (Z.of_nat (length a))).
Proof.
  unfold desc_load.
  destruct (Z.ltb_spec (Z.of_nat (length a)) 0); [done|].
  by rewrite (proj2 (Z.leb_le _ _)) by lia.
Qed.

Hypothesis Hwf : ns_wf ns.
Hypothesis Hm : 1 <= m.
Hypothesis Hbpio : m < maxbpio ns.
Hypothesis Hnreq : m < nreq.

Lemma maxj_beyond_window : m < maxj_of ns nreq.
Proof.
  destruct Hwf as (_ & Hb & Hq). unfold CInt.is_u16 in *. unfold maxj_of.
  destruct (Z.ltb_spec (maxbpio ns) nreq); rewrite to_int_small; lia.
Qed.

(** The fill loop runs to [i = maxiopq] and stores to every cell. *)
Lemma fill_window_full (n : nat) :
  forall (l : locals Desc) (s : ST),
    1 <= i l -> i l + Z.of_nat n = m ->
    length (desc l) = Z.to_nat m -> stored_below (i l) (desc l) ->
    let l' := (fill_window n ns qid buf slba nlb nreq l s).1 in
    i l' = m /\ length (desc l') = Z.to_nat m /\ stored_below m (desc l').
Proof.
  destruct Hwf as (_ & _ & Hq). unfold CInt.is_u16 in Hq.
  induction n as [|n IH]; intros l s Hi Hn Hlen Hst; cbn [fill_window].
  - cbn [fst ret]. assert (i l = m) as Heq by lia.
    split_and!; [done|done|by rewrite <- Heq].
  - destruct (Z.ltb_spec (i l) m); [|lia].
    rewrite (to_u32_small (i l)) by lia.
    destruct (Z.leb_spec nreq (i l)); [lia|].
    unfold bind. destruct (submit_read _ _ _ _ _ _ _ _) as [r s'].
    apply IH; cbn [i desc]; rewrite ?to_int_small by lia; try lia.
    + unfold desc_store. by rewrite length_insert.
    + replace (i l + 1) with (Z.max (i l) (i l + 1)) by lia.
      apply stored_below_store; [lia|lia|done].
Qed.

Lemma setup_full_window (s : ST) :
  exists l s',
    translate_region_setup ns qid buf slba nlb config_nlb s = (inl l, s')
    /\ j l = 0 /\ pending l = m /\ i l = m
    /\ length (desc l) = Z.to_nat m /\ stored_below m (desc l).
Proof.
  unfold translate_region_setup.
  rewrite (proj2 (Z.eqb_neq _ _)) by lia.
  destruct (call_rw_extended _ _ _ _ _ _ _ s) as [r s1].
  rewrite (proj2 (Z.leb_gt _ _)) by lia.
  match goal with
  | |- context [fill_window ?n _ _ _ _ _ _ ?lx s1] =>
      pose proof (fill_window_full n lx s1) as Hf
  end.
  cbn [i desc] in Hf. cbn zeta in Hf.
  destruct (fill_window _ _ _ _ _ _ _ _ s1) as [l1 s2]. cbn [fst] in Hf.
  destruct Hf as (Hi & Hlen & Hst).
  - lia.
  - lia.
  - unfold desc_store. by rewrite length_insert, length_replicate.
  - replace 1 with (Z.max 0 (0 + 1)) by lia.
    apply stored_below_store.
    + rewrite length_replicate. lia.
    + lia.
    + intros n Hn. lia.
  - exists {| desc := desc l1; i := i l1; j := 0; pending := i l1;
              readOffset := readOffset l1 |}, s2.
    by split_and!.
Qed.

Lemma window_inv_body (l : locals Desc) (s : ST) :
  window_inv ns nlb l -> j l < m ->
  exists l' s',
    poll_body ns qid buf slba nlb nreq (maxj_of ns nreq) l s = (inl l', s')
    /\ window_inv ns nlb l' /\ j l' = j l + 1 /\ 0 < pending l'.
Proof.
  intros (Hj & Hlen & Hst & Hpend) Hlt.
  pose proof maxj_beyond_window as Hmaxj.
  destruct Hwf as (_ & _ & Hq). unfold CInt.is_u16 in Hq.
  assert (forall l0 : locals Desc,
            j l0 = j l -> j (advance_j (maxj_of ns nreq) l0) = j l + 1) as Hadv.
  { intros l0 H0. unfold advance_j. cbn [j]. rewrite H0.
    rewrite to_int_small by lia.
    by rewrite (proj2 (Z.eqb_neq _ _)) by lia. }
  assert (forall p, length (desc_store (desc l) (j l) p) = Z.to_nat m) as Hlen'.
  { intros p. unfold desc_store. by rewrite length_insert. }
  assert (forall p, stored_below m (desc_store (desc l) (j l) p)) as Hst'.
  { intros p. replace m with (Z.max m (j l + 1)) at 1 by lia.
    apply stored_below_store; [lia|lia|done]. }
  unfold poll_body.
  destruct (desc_load_stored (desc l) (j l)) as [p ->];
    [by rewrite Hlen, Z2Nat.id by lia|lia|].
  destruct p as [dj|].
  - destruct (sched_yield s) as [u s1].
    destruct (call_do_poll dj UNVME_TIMEOUT None s1) as [rc s2].
    destruct (rc =? 0).
    + destruct (Z.ltb_spec (CInt.to_u32 (i l)) nreq) as [Hi|Hi].
      * destruct (submit_read _ _ _ _ _ _ _ s2) as [r s3].
        eexists _, _. split; [reflexivity|].
        rewrite Hadv by done. unfold window_inv. rewrite Hadv by done.
        cbn [advance_j desc pending i]. split_and!; try done; try lia.
      * eexists _, _. split; [reflexivity|].
        rewrite Hadv by done. unfold window_inv. rewrite Hadv by done.
        cbn [advance_j desc pending i]. split_and!; try done; try lia.
    + eexists _, _. split; [reflexivity|].
      rewrite Hadv by done. unfold window_inv. rewrite Hadv by done.
      cbn [advance_j desc pending i]. split_and!; try done; try lia.
  - eexists _, _. split; [reflexivity|].
    rewrite Hadv by done. unfold window_inv. rewrite Hadv by done.
    cbn [advance_j desc pending i]. split_and!; try done; try lia.
Qed.

Lemma poll_loop_overrun (n : nat) :
  forall (l : locals Desc) (s : ST) (fuel : nat),
    window_inv ns nlb l -> Z.of_nat n = m - j l -> (n < fuel)%nat ->
    (poll_loop fuel ns qid buf slba nlb nreq (maxj_of ns nreq) l s).1
    = Faults (OutOfBounds m).
Proof.
  induction n as [|n IH]; intros l s fuel Hinv Hn Hfuel;
    (destruct fuel as [|fuel]; [lia|]); cbn [poll_loop].
  - destruct Hinv as (Hj & Hlen & _).
    unfold poll_body. replace (j l) with (Z.of_nat (length (desc l))) by lia.
    rewrite desc_load_end. cbn. f_equal. f_equal. lia.
  - destruct (window_inv_body l s Hinv ltac:(lia)) as (l' & s' & -> & Hinv' & Hj' & Hp).
    rewrite (proj2 (Z.ltb_lt _ _)) by done.
    apply IH; [done|lia|lia].
Qed.

End RegionOverrun.

(** ** Claims about the descriptor window *)

Section WindowClaims.

Context {World Desc : Type} {Core : UnvmeCore World Desc}.

Local Abbreviation ST := (state World Desc).

Variables (ns : unvme_ns_t) (qid buf slba nlb config_nlb : Z).

Local Abbreviation nreq := (nrequests_of ns nlb).
Local Abbreviation m := (maxiopq ns).

(** C1, at the inputs where the code departs from it.  The polling index
    wraps at [maxj = min (maxbpio, nrequests)], not at [maxiopq]: when
    [maxiopq] is below both [maxbpio] and [nrequests], then for every
    implementation of the core the loop reaches [j = maxiopq] with
    [pending > 0] and reads [desc[maxiopq]], one past the [maxiopq]
    entries allocated. *)
Theorem translate_region_poll_index_overrun (fuel : nat) (s : ST) :
  ns_wf ns -> 1 <= m -> m < maxbpio ns -> m < nreq ->
  (Z.to_nat m < fuel)%nat ->
  (unvme_translate_region fuel ns qid buf slba nlb config_nlb s).1
  = Faults (OutOfBounds m).
Proof.
  intros Hwf Hm Hb Hn Hfuel. unfold unvme_translate_region.
  destruct (setup_full_window ns qid buf slba nlb config_nlb Hwf Hm Hb Hn s)
    as (l & s' & -> & Hj & Hp & Hi & Hlen & Hst).
  destruct Hwf as (Hbs & Hbb & Hq). unfold CInt.is_u16 in Hq.
  apply (poll_loop_overrun ns qid buf slba nlb (conj Hbs (conj Hbb Hq)) Hm Hb Hn
           (Z.to_nat m)); [|lia|done].
  unfold window_inv. rewrite Hj, Hp, Hi. split_and!; try done; try lia.
  left. split; [done|]. rewrite to_u32_small; lia.
Qed.

(** *** Descriptors in flight *)

Lemma in_flight_snoc (tr : list (event Desc)) (e : event Desc) :
  in_flight (tr ++ [e]) = in_flight tr + flight_delta e.
Proof.
  unfold in_flight. induction tr as [|e' tr IH]; cbn [app foldr]; lia.
Qed.

Lemma prefixes_within_snoc (bound : Z) (tr : list (event Desc))
    (e : event Desc) :
  prefixes_within bound tr -> in_flight (tr ++ [e]) <= bound ->
  prefixes_within bound (tr ++ [e]).
Proof.
  intros Htr He k. destruct (decide (k <= length tr)%nat).
  - rewrite take_app_le by done. apply Htr.
  - rewrite take_ge by (rewrite length_app; cbn; lia). done.
Qed.

Lemma flight_delta_submit (q : Z) (opc : nvme_opc) (b sl n c : Z)
    (r : option Desc) :
  0 <= flight_delta (EvRwExtended q opc b sl n c r) <= 1.
Proof. destruct r; cbn; lia. Qed.

Lemma flight_inv_fill (l : locals Desc) (s s' : ST) (r : option Desc) :
  CInt.is_u16 m ->
  flight_inv ns i l s /\ 1 <= i l -> i l < m ->
  submit_read ns qid buf slba nlb nreq l s = (r, s') ->
  flight_inv ns i {| desc := desc_store (desc l) (i l) r;
                  i := CInt.to_int (i l + 1);
                  j := j l;
                  pending := pending l;
                  readOffset := next_readOffset ns l |} s'
  /\ 1 <= CInt.to_int (i l + 1).
Proof.
  intros Hq [(Hpre & Hin & Hle) Hi] Hlt Hs. unfold CInt.is_u16 in Hq.
  unfold submit_read, call_rw_extended in Hs.
  destruct (unvme_rw_extended _ _ _ _ _ _ _ _) as [r' w'].
  injection Hs as -> <-. unfold flight_inv. cbn [trace i].
  rewrite to_int_small by lia.
  match goal with
  | |- context [trace s ++ [?e]] =>
      pose proof (in_flight_snoc (trace s) e) as Hsn;
      pose proof (flight_delta_submit qid NVME_CMD_READ
                    (buf + readOffset l) slba
                    (read_nlb ns nlb nreq (i l)) 1 r) as Hd
  end.
  split_and!; try lia. apply prefixes_within_snoc; [done|lia].
Qed.

Lemma flight_inv_body (maxj : Z) (l l' : locals Desc) (s s' : ST) :
  flight_inv ns pending l s ->
  poll_body ns qid buf slba nlb nreq maxj l s = (inl l', s') ->
  flight_inv ns pending l' s'.
Proof.
  intros (Hpre & Hin & Hle). unfold poll_body.
  destruct (desc_load (desc l) (j l)) as [[dj|]|flt]; [| |discriminate].
  - unfold sched_yield, emit, call_do_poll. cbn [world trace].
    destruct (unvme_do_poll _ _ _ _) as [rc w'].
    pose proof (in_flight_snoc (trace s) EvYield) as Hy.
    pose proof (in_flight_snoc (trace s ++ [EvYield])
                  (EvPoll dj UNVME_TIMEOUT rc)) as Hp.
    cbn [flight_delta] in Hy, Hp.
    assert (prefixes_within m ((trace s ++ [EvYield])
                               ++ [EvPoll dj UNVME_TIMEOUT rc])) as Hpre2.
    { apply prefixes_within_snoc; [apply prefixes_within_snoc; [done|lia]|].
      destruct (rc =? 0); lia. }
    destruct (rc =? 0).
    + destruct (_ <? _).
      * unfold submit_read, call_rw_extended. cbn [world trace].
        destruct (unvme_rw_extended _ _ _ _ _ _ _ _) as [r w''].
        intros [= <- <-]. unfold flight_inv. cbn [trace advance_j pending].
        match goal with
        | |- context [(?t ++ [?e])] =>
            lazymatch e with
            | EvRwExtended _ _ _ _ _ _ _ =>
                pose proof (in_flight_snoc t e) as Hsn;
                pose proof (flight_delta_submit qid NVME_CMD_READ
                              (buf + readOffset l) slba
                              (read_nlb ns nlb nreq (i l)) 1 r) as Hd
            end
        end.
        split_and!; try lia. apply prefixes_within_snoc; [done|lia].
      * intros [= <- <-]. unfold flight_inv. cbn [trace advance_j pending].
        split_and!; [done|lia|lia].
    + intros [= <- <-]. unfold flight_inv. cbn [trace advance_j pending].
      split_and!; [done|lia|lia].
  - intros [= <- <-]. done.
Qed.

(** X1.  At every point of every run of [unvme_translate_region],
    whatever the core does, at most [maxiopq] descriptors are in flight:
    submissions that returned a descriptor, less the polls that
    returned 0. *)
Lemma translate_region_in_flight_bounded (fuel : nat) (w : World) (k : nat) :
  ns_wf ns -> 1 <= m ->
  in_flight
    (take k (trace (unvme_translate_region fuel ns qid buf slba nlb config_nlb
                      (mk_state w [])).2))
  <= m.
Proof.
  intros (_ & _ & Hq) Hm. revert k. change (prefixes_within m
    (trace (unvme_translate_region fuel ns qid buf slba nlb config_nlb
              (mk_state w [])).2)).
  assert (prefixes_within m ([] : list (event Desc))) as Hnil.
  { intros k. rewrite take_nil. cbn. lia. }
  unfold unvme_translate_region, translate_region_setup.
  destruct (maxbpio ns =? 0); [exact Hnil|].
  unfold call_rw_extended at 1. cbn [world trace].
  destruct (unvme_rw_extended ns qid NVME_CMD_WRITE _ _ _ _ w) as [r w1].
  rewrite (proj2 (Z.leb_gt _ _)) by lia.
  set (s1 := mk_state w1 _).
  match goal with
  | |- context [fill_window ?n _ _ _ _ _ _ ?lx s1] =>
      pose proof (fill_window_inv ns qid buf slba nlb
                    (fun l s => flight_inv ns i l s /\ 1 <= i l) nreq
                    (fun l s r s' HP Hlt _ Hs =>
                       flight_inv_fill l s s' r Hq HP Hlt Hs)
                    n lx s1) as Hf;
      destruct (fill_window n ns qid buf slba nlb nreq lx s1) as [l1 s2]
  end.
  cbn [fst snd i] in Hf.
  destruct Hf as [(Hpre & Hin & Hle) Hi].
  { pose proof (flight_delta_submit qid NVME_CMD_WRITE buf slba config_nlb 1 r)
      as Hd.
    pose proof (in_flight_snoc [] (EvRwExtended qid NVME_CMD_WRITE buf slba
                                     config_nlb 1 r)) as Hsn.
    change (in_flight []) with 0 in Hsn.
    unfold flight_inv. subst s1. cbn [trace i].
    split_and!; try lia. apply prefixes_within_snoc; [done|lia]. }
  match goal with
  | |- context [poll_loop fuel _ _ _ _ _ _ ?mj ?lx s2] =>
      pose proof (poll_loop_inv ns qid buf slba nlb (flight_inv ns pending) nreq mj
                    (fun l s l' s' HP Hb => flight_inv_body mj l l' s s' HP Hb)
                    fuel lx s2) as [[l' (Hl & _)] _]
  end.
  - unfold flight_inv. cbn [pending]. by split_and!.
  - exact Hl.
Qed.

End WindowClaims.

(** Scenario S5: [nlb = 1024], [maxbpio = 256], [maxiopq = 4]. *)
Lemma translate_region_poll_index_overrun_witness :
  (unvme_translate_region (Core := SpecCore.core 60) 5
     Scenario.ns_s5 0 0 0 1024 1
     (Scenario.fresh (Scenario.prompt_device Scenario.ns_s5))).1
  = Faults (OutOfBounds 4).
Proof.
  apply (translate_region_poll_index_overrun (Core := SpecCore.core 60)
           Scenario.ns_s5 0 0 0 1024 1 5%nat
           (Scenario.fresh (Scenario.prompt_device Scenario.ns_s5))).
  - unfold ns_wf, CInt.is_u16. cbn. lia.
  - cbn. lia.
  - cbn. lia.
  - vm_compute. reflexivity.
  - vm_compute. lia.
Defined.

(** ** Where the request plan is not carried out *)

Section Stalled.

Local Abbreviation core60 := (SpecCore.core 60).

Lemma stalled_inv_body (l l' : locals nat) (s s' : state SpecCore.sim nat) :
  stalled_inv l s ->
  poll_body (Core := core60) Scenario.ns_small 0 0 0 20 6 4 l s = (inl l', s') ->
  stalled_inv l' s'.
Proof.
  intros (Hw & Hr & Hd & Hj & Hp).
  destruct l as [dl il jl pl ol], s as [w tr]. cbn [world trace desc j pending] in *.
  subst w dl pl.
  assert (jl = 0 \/ jl = 1 \/ jl = 2 \/ jl = 3) as Hcases by lia.
  unfold poll_body, sched_yield, emit, call_do_poll.
  cbn [desc j world trace].
  destruct Hcases as [-> | [-> | [-> | ->]]].
  all: match goal with
       | |- context [desc_load ?a ?k] =>
           replace (desc_load a k)
             with (@inl (option nat) fault (Some (Z.to_nat k)))
             by (vm_compute; reflexivity)
       end; cbv iota beta.
  all: match goal with
       | |- context [unvme_do_poll ?d ?t ?c ?w] =>
           replace (unvme_do_poll d t c w) with (-1, stalled_world)
             by (vm_compute; reflexivity)
       end.
  all: cbn -[replicate]; intros [= <- <-].
  all: unfold stalled_inv; cbn [world trace desc j pending advance_j].
  all: split_and!; try done; try (vm_compute; congruence).
  all: unfold submitted_reads in *; rewrite !omap_app, Hr; reflexivity.
Qed.

Lemma stalled_run (fuel : nat) :
  let r := unvme_translate_region (Core := core60) fuel Scenario.ns_small
             0 0 0 20 1
             (Scenario.fresh (Scenario.silent_device Scenario.ns_small)) in
  submitted_reads (trace r.2) = [4; 4; 4] /\ forall rc, r.1 <> Returns rc.
Proof.
  cbn zeta. unfold unvme_translate_region.
  set (x := translate_region_setup _ _ _ _ _ _ _). vm_compute in x. subst x.
  cbv iota beta.
  change (nrequests_of Scenario.ns_small 20) with 6.
  change (maxj_of Scenario.ns_small 6) with 4.
  match goal with
  | |- context [poll_loop fuel _ _ _ _ _ _ _ ?lx ?sx] =>
      destruct (poll_loop_inv (Core := core60) Scenario.ns_small 0 0 0 20
                  stalled_inv 6 4
                  (fun l s l' s' => stalled_inv_body l l' s s')
                  fuel lx sx) as [[l' Hl] Hret]
  end.
  - unfold stalled_inv. cbn. split_and!; try done; lia.
  - split; [apply Hl|].
    intros rc Hrc. destruct (Hret rc Hrc) as (_ & l'' & Hinv & Hz).
    destruct Hinv as (_ & _ & _ & _ & Hp). lia.
Qed.

End Stalled.

(** C2 as stated fails in two ways.  At [nlb = 2^32 - 1] with
    [maxbpio = 1] the sum that gives [nrequests] wraps to 0 in
    [unsigned int]: the call returns 0 after the config write alone.  And
    a read is only submitted into a slot whose previous command has
    completed: on a device that completes nothing, three of the five
    reads of a 20-block region are ever submitted. *)
Lemma translate_region_request_plan_counterexample :
  (1 <= 4294967295 /\ 1 <= maxbpio Scenario.ns_one
   /\ nrequests_of Scenario.ns_one 4294967295 = 0
   /\ ceil_div 4294967295 (maxbpio Scenario.ns_one) + 1 = 4294967296
   /\ (unvme_translate_region (Core := SpecCore.core 60) 10 Scenario.ns_one
         0 0 0 4294967295 1
         (Scenario.fresh (Scenario.prompt_device Scenario.ns_one))).1
      = Returns 0
   /\ submitted_reads
        (trace (unvme_translate_region (Core := SpecCore.core 60) 10
                  Scenario.ns_one 0 0 0 4294967295 1
                  (Scenario.fresh (Scenario.prompt_device Scenario.ns_one))).2)
      = [])
  /\ (1 <= 20 /\ 1 <= maxbpio Scenario.ns_small
      /\ ceil_div 20 (maxbpio Scenario.ns_small) = 5
      /\ forall fuel : nat,
           submitted_reads
             (trace (unvme_translate_region (Core := SpecCore.core 60) fuel
                       Scenario.ns_small 0 0 0 20 1
                       (Scenario.fresh
                          (Scenario.silent_device Scenario.ns_small))).2)
           = [4; 4; 4]).
Proof.
  split; split_and!.
  - lia.
  - cbn [maxbpio Scenario.ns_one]. lia.
  - vm_compute. reflexivity.
  - vm_compute. reflexivity.
  - vm_compute. reflexivity.
  - vm_compute. reflexivity.
  - lia.
  - cbn [maxbpio Scenario.ns_small]. lia.
  - vm_compute. reflexivity.
  - intros fuel. apply (stalled_run fuel).
Qed.

(** ** Failed submissions *)

Section FailedSubmissions.

Context {World Desc : Type} {Core : UnvmeCore World Desc}.

Local Abbreviation ST := (state World Desc).

Variables (ns : unvme_ns_t) (qid buf slba nlb config_nlb : Z).

Local Abbreviation nreq := (nrequests_of ns nlb).

Lemma live1_range (c : slot Desc) : 0 <= live1 c <= 1.
Proof. destruct c as [|[d|]]; cbn; lia. Qed.

Lemma live_slots_nonneg (a : list (slot Desc)) : 0 <= live_slots a.
Proof.
  unfold live_slots. induction a as [|c a IH]; cbn [foldr]; [lia|].
  pose proof (live1_range c). lia.
Qed.

Lemma live_slots_uninit (n : nat) :
  live_slots (replicate n (@Uninit Desc)) = 0.
Proof.
  unfold live_slots. induction n as [|n IH]; [done|].
  cbn [replicate foldr live1]. lia.
Qed.

Lemma live_slots_insert (a : list (slot Desc)) :
  forall (k : nat) (old c : slot Desc),
    a !! k = Some old ->
    live_slots (<[k := c]> a) = live_slots a - live1 old + live1 c.
Proof.
  unfold live_slots. induction a as [|x a IH]; intros k old c Hk; [done|].
  destruct k as [|k].
  - change ((x :: a) !! 0%nat) with (Some x) in Hk. injection Hk as ->.
    change (<[0%nat := c]> (old :: a)) with (c :: a). cbn [foldr]. lia.
  - change ((x :: a) !! S k) with (a !! k) in Hk.
    change (<[S k := c]> (x :: a)) with (x :: <[k := c]> a). cbn [foldr].
    rewrite (IH k old c Hk). lia.
Qed.

Lemma live_slots_store_le (a : list (slot Desc)) (k : Z) (p : option Desc) :
  live_slots (desc_store a k p) <= live_slots a + live1 (Ptr p).
Proof.
  unfold desc_store. destruct (a !! Z.to_nat k) as [old|] eqn:E.
  - rewrite (live_slots_insert a _ old _ E). pose proof (live1_range old). lia.
  - rewrite list_insert_ge by (by apply lookup_ge_None).
    pose proof (live1_range (Ptr p)). lia.
Qed.

Lemma desc_load_lookup (a : list (slot Desc)) (k : Z) (p : option Desc) :
  desc_load a k = inl p -> a !! Z.to_nat k = Some (Ptr p).
Proof.
  unfold desc_load. destruct ((k <? 0) || _); [discriminate|].
  destruct (a !! Z.to_nat k) as [[|q]|]; try discriminate. by intros [= ->].
Qed.

Lemma failed_submissions_snoc (tr : list (event Desc)) (e : event Desc) :
  failed_submissions (tr ++ [e]) = failed_submissions tr + failed1 e.
Proof.
  unfold failed_submissions.
  induction tr as [|e' tr IH]; cbn [app foldr]; lia.
Qed.

Lemma failed_plus_live (q : Z) (opc : nvme_opc) (b sl n c : Z)
    (r : option Desc) :
  failed1 (EvRwExtended q opc b sl n c r) + live1 (Ptr r) = 1.
Proof. by destruct r. Qed.

Lemma dead_inv_fill (l : locals Desc) (s s' : ST) (r : option Desc) :
  CInt.is_u16 (maxiopq ns) ->
  dead_inv i l s /\ 1 <= i l -> i l < maxiopq ns ->
  submit_read ns qid buf slba nlb nreq l s = (r, s') ->
  dead_inv i {| desc := desc_store (desc l) (i l) r;
                i := CInt.to_int (i l + 1);
                j := j l;
                pending := pending l;
                readOffset := next_readOffset ns l |} s'
  /\ 1 <= CInt.to_int (i l + 1).
Proof.
  intros Hq [Hinv Hi] Hlt Hs. unfold CInt.is_u16 in Hq.
  unfold submit_read, call_rw_extended in Hs.
  destruct (unvme_rw_extended _ _ _ _ _ _ _ _) as [r' w'].
  injection Hs as -> <-. unfold dead_inv in *. cbn [trace i desc].
  rewrite to_int_small by lia. rewrite failed_submissions_snoc.
  pose proof (live_slots_store_le (desc l) (i l) r) as Hle.
  pose proof (failed_plus_live qid NVME_CMD_READ (buf + readOffset l) slba
                (read_nlb ns nlb nreq (i l)) 1 r) as Hone.
  lia.
Qed.

Lemma dead_inv_body (maxj : Z) (l l' : locals Desc) (s s' : ST) :
  dead_inv pending l s ->
  poll_body ns qid buf slba nlb nreq maxj l s = (inl l', s') ->
  dead_inv pending l' s'.
Proof.
  intros Hinv. unfold poll_body.
  destruct (desc_load (desc l) (j l)) as [[dj|]|flt] eqn:Hload;
    [| |discriminate].
  - apply desc_load_lookup in Hload.
    unfold sched_yield, emit, call_do_poll. cbn [world trace].
    destruct (unvme_do_poll _ _ _ _) as [rc w'].
    assert (failed_submissions ((trace s ++ [EvYield])
                                ++ [EvPoll dj UNVME_TIMEOUT rc])
            = failed_submissions (trace s)) as Hsame.
    { rewrite !failed_submissions_snoc. cbn. lia. }
    destruct (rc =? 0).
    + destruct (_ <? _).
      * unfold submit_read, call_rw_extended. cbn [world trace].
        destruct (unvme_rw_extended _ _ _ _ _ _ _ _) as [r w''].
        intros [= <- <-]. unfold dead_inv in *.
        cbn [trace advance_j pending desc]. unfold desc_store.
        rewrite failed_submissions_snoc, Hsame.
        rewrite (live_slots_insert _ _ _ _ Hload).
        pose proof (failed_plus_live qid NVME_CMD_READ (buf + readOffset l)
                      slba (read_nlb ns nlb nreq (i l)) 1 r) as Hone.
        cbn [live1] in *. lia.
      * intros [= <- <-]. unfold dead_inv in *.
        cbn [trace advance_j pending desc]. unfold desc_store.
        rewrite Hsame, (live_slots_insert _ _ _ _ Hload). cbn [live1]. lia.
    + intros [= <- <-]. unfold dead_inv in *.
      cbn [trace advance_j pending desc]. by rewrite Hsame.
  - intros [= <- <-]. done.
Qed.

(** X2.  [unvme_translate_region] does not look at the descriptors it
    is given: in every run that returns, every submission returned a
    descriptor, so a run in which a submission failed does not return
    at all. *)
Lemma returning_run_has_no_failed_submission (fuel : nat) (w : World) (rc : Z) :
  CInt.is_u16 (maxiopq ns) ->
  (unvme_translate_region fuel ns qid buf slba nlb config_nlb
     (mk_state w [])).1 = Returns rc ->
  failed_submissions
    (trace (unvme_translate_region fuel ns qid buf slba nlb config_nlb
              (mk_state w [])).2) = 0.
Proof.
  intros Hq. unfold unvme_translate_region, translate_region_setup.
  destruct (maxbpio ns =? 0); [discriminate|].
  unfold call_rw_extended at 1 2. cbn [world trace].
  destruct (unvme_rw_extended ns qid NVME_CMD_WRITE _ _ _ _ w) as [r w1].
  destruct (Z.leb_spec (maxiopq ns) 0) as [|Hm]; [discriminate|].
  set (s1 := mk_state w1 _).
  match goal with
  | |- context [fill_window ?n _ _ _ _ _ _ ?lx s1] =>
      pose proof (fill_window_inv ns qid buf slba nlb
                    (fun l s => dead_inv i l s /\ 1 <= i l) nreq
                    (fun l s r s' HP Hlt _ Hs =>
                       dead_inv_fill l s s' r Hq HP Hlt Hs)
                    n lx s1) as Hf;
      destruct (fill_window n ns qid buf slba nlb nreq lx s1) as [l1 s2]
  end.
  cbn [fst snd] in Hf.
  destruct Hf as [Hdead Hi].
  { unfold dead_inv. subst s1. cbn [trace i desc].
    pose proof (failed_submissions_snoc []
                  (EvRwExtended qid NVME_CMD_WRITE buf slba config_nlb 1 r))
      as Hsn.
    change (failed_submissions []) with 0 in Hsn.
    pose proof (live_slots_store_le
                  (replicate (Z.to_nat (maxiopq ns)) Uninit) 0 r) as Hle.
    pose proof (live_slots_uninit (Z.to_nat (maxiopq ns))) as Hz.
    pose proof (failed_plus_live qid NVME_CMD_WRITE buf slba config_nlb 1 r).
    split; [|lia]. lia. }
  intros Hret.
  match type of Hret with
  | context [poll_loop fuel _ _ _ _ _ _ ?mj ?lx s2] =>
      destruct (poll_loop_inv ns qid buf slba nlb (dead_inv pending) nreq mj
                  (fun l s l' s' HP Hb => dead_inv_body mj l l' s s' HP Hb)
                  fuel lx s2) as [_ Hend]
  end.
  - unfold dead_inv in *. cbn [pending desc]. exact Hdead.
  - destruct (Hend rc Hret) as (_ & l' & Hinv & Hz). unfold dead_inv in Hinv.
    pose proof (live_slots_nonneg (desc l')).
    assert (forall tr : list (event Desc), 0 <= failed_submissions tr) as Hnn.
    { unfold failed_submissions. induction tr as [|e tr IH]; cbn [foldr]; [lia|].
      assert (0 <= failed1 e); [|lia].
      destruct e as [| | | ? ? ? ? ? ? [?|] | | |]; cbn; lia. }
    match goal with |- failed_submissions ?t = 0 => specialize (Hnn t) end.
    lia.
Qed.

End FailedSubmissions.

(** A config write of 0 blocks is refused by the model of the core
    (BAD_ARG): the three reads complete, [desc[0]] stays NULL, and the
    loop spins. *)
Example failed_config_write_spins :
  let r := unvme_translate_region (Core := SpecCore.core 60) 100
             Scenario.ns_small 0 0 0 10 0
             (Scenario.fresh (Scenario.prompt_device Scenario.ns_small)) in
  r.1 = OutOfFuel /\ failed_submissions (trace r.2) = 1.
Proof. vm_compute. split; reflexivity. Qed.

(** ** [unvme_translate_region]: when the polling index stops short of the
    window *)

Section Starved.

Context {World Desc : Type} {Core : UnvmeCore World Desc}.

Local Abbreviation ST := (state World Desc).

Variables (ns : unvme_ns_t) (qid buf slba nlb config_nlb : Z).

Local Abbreviation nreq := (nrequests_of ns nlb).

Lemma failed_submissions_nonneg (tr : list (event Desc)) :
  0 <= failed_submissions tr.
Proof.
  unfold failed_submissions. induction tr as [|e tr IH]; cbn [foldr]; [lia|].
  assert (0 <= failed1 e); [|lia].
  destruct e as [| | | ? ? ? ? ? ? [?|] | | |]; cbn; lia.
Qed.

Lemma live_slots_lookup (a : list (slot Desc)) :
  forall (k : nat) (c : slot Desc), a !! k = Some c -> live1 c <= live_slots a.
Proof.
  unfold live_slots. induction a as [|x a IH]; intros k c Hk; [done|].
  cbn [foldr]. pose proof (live1_range x). pose proof (live_slots_nonneg a).
  unfold live_slots in *.
  destruct k as [|k].
  - change ((x :: a) !! 0%nat) with (Some x) in Hk. injection Hk as ->. lia.
  - change ((x :: a) !! S k) with (a !! k) in Hk. specialize (IH k c Hk). lia.
Qed.

(** What one iteration of the polling loop leaves alone. *)
Lemma poll_body_frame (nrequests maxj : Z) (l l' : locals Desc) (s s' : ST) :
  poll_body ns qid buf slba nlb nrequests maxj l s = (inl l', s') ->
  failed_submissions (trace s) <= failed_submissions (trace s')
  /\ (forall k : nat, k <> Z.to_nat (j l) -> desc l' !! k = desc l !! k)
  /\ j l' = (if CInt.to_int (j l + 1) =? maxj then 0 else CInt.to_int (j l + 1)).
Proof.
  unfold poll_body.
  destruct (desc_load (desc l) (j l)) as [[dj|]|flt]; [| |discriminate].
  - unfold sched_yield, emit, call_do_poll. cbn [world trace].
    destruct (unvme_do_poll _ _ _ _) as [rc w'].
    assert (failed_submissions ((trace s ++ [EvYield])
                                ++ [EvPoll dj UNVME_TIMEOUT rc])
            = failed_submissions (trace s)) as Hsame.
    { rewrite !failed_submissions_snoc. cbn. lia. }
    destruct (rc =? 0).
    + destruct (_ <? _).
      * unfold submit_read, call_rw_extended. cbn [world trace].
        destruct (unvme_rw_extended _ _ _ _ _ _ _ _) as [r w''].
        intros [= <- <-]. cbn [trace advance_j desc j].
        rewrite failed_submissions_snoc, Hsame. split_and!; [|..|done].
        -- destruct r; cbn; lia.
        -- intros k Hk. unfold desc_store. by rewrite list_lookup_insert_ne.
      * intros [= <- <-]. cbn [trace advance_j desc j]. rewrite Hsame.
        split_and!; [lia| |done].
        intros k Hk. unfold desc_store. by rewrite list_lookup_insert_ne.
    + intros [= <- <-]. cbn [trace advance_j desc j]. rewrite Hsame.
      by split_and!.
  - intros [= <- <-]. cbn [advance_j desc j]. by split_and!.
Qed.

Lemma kept_slot_frame (k : Z) (l l' : locals Desc) (s s' : ST) :
  kept_slot k l s ->
  desc l' !! Z.to_nat k = desc l !! Z.to_nat k ->
  failed_submissions (trace s) <= failed_submissions (trace s') ->
  kept_slot k l' s'.
Proof.
  intros (r & Hr & Hf) Hd Hle. exists r. rewrite Hd. split; [done|].
  intros Hn. specialize (Hf Hn). lia.
Qed.

(** The fill loop reaches every [t] that is within the window and within
    the requests. *)
Lemma fill_window_reaches (t : Z) (n : nat) :
  forall (l : locals Desc) (s : ST),
    CInt.is_u16 (maxiopq ns) ->
    1 <= i l <= maxiopq ns -> t <= maxiopq ns -> t <= nreq ->
    t - i l <= Z.of_nat n ->
    t <= i (fill_window n ns qid buf slba nlb nreq l s).1.
Proof.
  induction n as [|n IH]; intros l s Hq Hi Ht Htn Hn; cbn [fill_window].
  - cbn. lia.
  - unfold CInt.is_u16 in Hq.
    destruct (Z.ltb_spec (i l) (maxiopq ns)); [|cbn; lia].
    rewrite (to_u32_small (i l)) by lia.
    destruct (Z.leb_spec nreq (i l)); [cbn; lia|].
    unfold bind. destruct (submit_read _ _ _ _ _ _ _ _) as [r s'].
    apply IH; cbn [i]; rewrite ?to_int_small by lia; try done; lia.
Qed.

Lemma starved_fill_step (l : locals Desc) (s s' : ST) (r : option Desc) :
  CInt.is_u16 (maxiopq ns) -> 0 <= maxbpio ns ->
  starved_fill_inv ns l s -> i l < maxiopq ns ->
  submit_read ns qid buf slba nlb nreq l s = (r, s') ->
  starved_fill_inv ns
    {| desc := desc_store (desc l) (i l) r;
       i := CInt.to_int (i l + 1);
       j := j l;
       pending := pending l;
       readOffset := next_readOffset ns l |} s'.
Proof.
  intros Hq Hb (Hdead & Hi & Hlen & Hkept) Hlt Hs.
  destruct (dead_inv_fill ns qid buf slba nlb l s s' r Hq
              (conj Hdead (proj1 Hi)) Hlt Hs) as [Hdead' Hi'].
  unfold CInt.is_u16 in Hq.
  unfold submit_read, call_rw_extended in Hs.
  destruct (unvme_rw_extended _ _ _ _ _ _ _ _) as [r' w'].
  injection Hs as -> <-.
  unfold starved_fill_inv. cbn [i desc].
  rewrite to_int_small in * by lia.
  split_and!; [done|lia|lia|by unfold desc_store; rewrite length_insert|].
  intros Hgt. unfold kept_slot. cbn [desc trace]. unfold desc_store.
  rewrite failed_submissions_snoc.
  pose proof (failed_submissions_nonneg (trace s)) as Hnn.
  destruct (decide (i l = maxbpio ns)) as [Heq|Hne].
  - exists r. rewrite Heq.
    rewrite list_lookup_insert_eq by lia. split; [done|].
    intros ->. cbn. lia.
  - destruct (Hkept ltac:(lia)) as (r0 & Hr0 & Hf0). exists r0.
    rewrite list_lookup_insert_ne by lia. split; [done|].
    intros Hn. specialize (Hf0 Hn). destruct r; cbn; lia.
Qed.

Lemma starved_body (l l' : locals Desc) (s s' : ST) :
  CInt.is_u16 (maxbpio ns) ->
  starved_inv ns l s ->
  poll_body ns qid buf slba nlb nreq (maxbpio ns) l s = (inl l', s') ->
  starved_inv ns l' s'.
Proof.
  intros Hb (Hdead & Hj & Hkept) Hbody. unfold CInt.is_u16 in Hb.
  pose proof (dead_inv_body ns qid buf slba nlb _ _ _ _ _ Hdead Hbody) as Hdead'.
  destruct (poll_body_frame _ _ _ _ _ _ Hbody) as (Hmono & Hframe & Hj').
  rewrite to_int_small in Hj' by lia.
  split_and!; [done|..].
  - rewrite Hj'. destruct (Z.eqb_spec (j l + 1) (maxbpio ns)); lia.
  - rewrite Hj'. destruct (Z.eqb_spec (j l + 1) (maxbpio ns)); lia.
  - eapply kept_slot_frame; [done| |done]. apply Hframe. lia.
Qed.

(** X3.  With [maxbpio] below both [maxiopq] and [nrequests], the index [j]
    wraps at [maxbpio] and the descriptor in [desc[maxbpio]] is never
    polled: [pending] cannot reach 0 and the function does not return,
    whatever the device does. *)
Theorem translate_region_starves (fuel : nat) (w : World) (rc : Z) :
  ns_wf ns -> 1 <= maxbpio ns < maxiopq ns -> maxbpio ns < nreq ->
  (unvme_translate_region fuel ns qid buf slba nlb config_nlb
     (mk_state w [])).1 <> Returns rc.
Proof.
  intros (_ & Hb & Hq) Hbq Hbn. pose proof Hb as Hb'. pose proof Hq as Hq'.
  unfold CInt.is_u16 in Hb', Hq'.
  unfold unvme_translate_region, translate_region_setup.
  rewrite (proj2 (Z.eqb_neq _ _)) by lia.
  unfold call_rw_extended at 1. cbn [world trace].
  destruct (unvme_rw_extended ns qid NVME_CMD_WRITE _ _ _ _ w) as [r w1].
  rewrite (proj2 (Z.leb_gt _ _)) by lia.
  set (s1 := mk_state w1 _).
  set (l0 := {| desc := _; i := 1; j := 0; pending := 0; readOffset := 0 |}).
  assert (starved_fill_inv ns l0 s1) as H0.
  { pose proof (failed_submissions_snoc []
                  (EvRwExtended qid NVME_CMD_WRITE buf slba config_nlb 1 r))
      as Hsn.
    change (failed_submissions []) with 0 in Hsn.
    pose proof (live_slots_store_le
                  (replicate (Z.to_nat (maxiopq ns)) Uninit) 0 r) as Hle.
    pose proof (live_slots_uninit (Desc := Desc) (Z.to_nat (maxiopq ns))) as Hz.
    pose proof (failed_plus_live qid NVME_CMD_WRITE buf slba config_nlb 1 r).
    unfold starved_fill_inv, dead_inv. subst l0 s1. cbn [i desc trace].
    split_and!; try lia.
    unfold desc_store. by rewrite length_insert, length_replicate. }
  pose proof (fill_window_inv ns qid buf slba nlb (starved_fill_inv ns) nreq
                (fun l s r s' HP Hlt _ Hs =>
                   starved_fill_step l s s' r Hq ltac:(lia) HP Hlt Hs)
                (Z.to_nat (maxiopq ns - 1)) l0 s1 H0) as Hf.
  pose proof (fill_window_reaches (maxbpio ns + 1) (Z.to_nat (maxiopq ns - 1))
                l0 s1 Hq ltac:(cbn; lia) ltac:(lia) ltac:(lia)
                ltac:(cbn; lia)) as Hreach.
  destruct (fill_window _ _ _ _ _ _ _ l0 s1) as [l1 s2].
  cbn [fst snd] in Hf, Hreach.
  destruct Hf as (Hdead & Hi & Hlen & Hkept).
  replace (maxj_of ns nreq) with (maxbpio ns).
  2:{ unfold maxj_of. rewrite (proj2 (Z.ltb_lt _ _)) by lia.
      by rewrite to_int_small by lia. }
  intros Hret.
  match type of Hret with
  | context [poll_loop fuel _ _ _ _ _ _ _ ?lx s2] =>
      destruct (poll_loop_inv ns qid buf slba nlb (starved_inv ns) nreq
                  (maxbpio ns)
                  (fun l s l' s' HP Hbd => starved_body l l' s s' Hb HP Hbd)
                  fuel lx s2) as [_ Hend]
  end.
  - unfold starved_inv. cbn [pending j desc]. split_and!; [done|lia|lia|].
    destruct (Hkept ltac:(lia)) as (r0 & Hr0 & Hf0). by exists r0.
  - destruct (Hend rc Hret) as (_ & l' & (Hd' & _ & r0 & Hr0 & Hf0) & Hz).
    unfold dead_inv in Hd'.
    pose proof (live_slots_lookup _ _ _ Hr0) as Hlive.
    pose proof (failed_submissions_nonneg
                  (trace (poll_loop fuel ns qid buf slba nlb nreq
                            (maxbpio ns)
                            {| desc := desc l1; i := i l1; j := 0;
                               pending := i l1;
                               readOffset := readOffset l1 |} s2).2)) as Hnn.
    destruct r0 as [d|]; [cbn [live1] in Hlive; lia|].
    specialize (Hf0 eq_refl). pose proof (live_slots_nonneg (desc l')). lia.
Qed.

End Starved.

(** Twenty blocks in reads of 2 under a window of 4: the commands in
    [desc[2]] and [desc[3]] are never polled. *)
Lemma translate_region_starves_witness :
  (unvme_translate_region (Core := ideal_core) 200 Scenario2.ns_narrow
     0 0 0 20 1 (mk_state 0%nat [])).1 <> Returns 0.
Proof.
  apply (translate_region_starves (Core := ideal_core) Scenario2.ns_narrow
           0 0 0 20 1 200%nat 0%nat 0).
  - unfold ns_wf, CInt.is_u16. cbn. lia.
  - cbn. lia.
  - vm_compute. reflexivity.
Defined.

(** ** [unvme_translate_region]: termination on a prompt device *)

Section Prompt.

Context {World Desc : Type} {Core : UnvmeCore World Desc}.

Local Abbreviation ST := (state World Desc).

Variables (ns : unvme_ns_t) (qid buf slba nlb config_nlb : Z).

Local Abbreviation nreq := (nrequests_of ns nlb).
Local Abbreviation win := (Z.min (maxiopq ns) nreq).

Hypothesis Hprompt : always_prompt (Core := Core).

Lemma succ_mod (w k : Z) :
  0 <= k < w -> (if k + 1 =? w then 0 else k + 1) = (k + 1) mod w.
Proof.
  intros Hk. destruct (Z.eqb_spec (k + 1) w) as [->|Hne].
  - by rewrite Z.mod_same by lia.
  - by rewrite Z.mod_small by lia.
Qed.

Lemma shifted_mod_ne (w k t : Z) :
  0 <= k < w -> 1 <= t < w -> (k + t) mod w <> k.
Proof.
  intros Hk Ht Heq. destruct (Z.lt_ge_cases (k + t) w).
  - rewrite Z.mod_small in Heq by lia. lia.
  - replace (k + t) with ((k + t - w) + 1 * w) in Heq by lia.
    rewrite Z.mod_add, Z.mod_small in Heq by lia. lia.
Qed.

(** With a full window every cell of it is live. *)
Lemma prompt_inv_full (w : Z) (l : locals Desc) :
  prompt_inv w nreq l -> pending l = w ->
  forall k, 0 <= k < w -> live_at (desc l) k.
Proof.
  intros (Hj & Hp & _ & _ & _ & Hlive) Hfull k Hk.
  specialize (Hlive ((k - j l) mod w)).
  rewrite Z.add_mod_idemp_r in Hlive by lia.
  replace (j l + (k - j l)) with k in Hlive by lia.
  rewrite (Z.mod_small k) in Hlive by lia. apply Hlive.
  pose proof (Z.mod_pos_bound (k - j l) w ltac:(lia)). lia.
Qed.

Lemma prompt_body (w : Z) (l : locals Desc) (s : ST) :
  1 <= w < 2 ^ 16 ->
  prompt_inv w nreq l -> 1 <= pending l ->
  exists l' s',
    poll_body ns qid buf slba nlb nreq w l s = (inl l', s')
    /\ prompt_inv w nreq l'
    /\ (nreq - CInt.to_u32 (i l')) + pending l'
       = (nreq - CInt.to_u32 (i l)) + pending l - 1.
Proof.
  intros Hw Hinv Hpend.
  pose proof Hinv as (Hj & Hp & Hlen & Hi & Hfull & Hlive).
  destruct Hprompt as [Hsub Hpoll].
  assert (nreq < 2 ^ 32) as Hn by (unfold nrequests_of; apply to_u32_range).
  destruct (Hlive 0 ltac:(lia)) as [dj Hdj].
  rewrite Z.add_0_r, Z.mod_small in Hdj by lia.
  unfold poll_body, desc_load.
  rewrite (proj2 (Z.ltb_ge _ _)) by lia.
  rewrite (proj2 (Z.leb_gt _ _)) by lia. cbn [orb]. rewrite Hdj.
  unfold sched_yield, emit, call_do_poll. cbn [world trace].
  pose proof (Hpoll dj UNVME_TIMEOUT None (world s)) as Hrc.
  destruct (unvme_do_poll dj UNVME_TIMEOUT None (world s)) as [rc w'].
  cbn [fst] in Hrc. subst rc. cbn [Z.eqb].
  assert (forall l0 : locals Desc,
            j l0 = j l -> j (advance_j w l0) = (j l + 1) mod w) as Hadv.
  { intros l0 H0. unfold advance_j. cbn [j]. rewrite H0.
    rewrite to_int_small by lia. by apply succ_mod. }
  assert (forall t, ((j l + 1) mod w + t) mod w = (j l + (t + 1)) mod w)
    as Hshift.
  { intros t. rewrite Z.add_mod_idemp_l by lia. f_equal. lia. }
  pose proof (Z.mod_pos_bound (j l + 1) w ltac:(lia)) as Hj'.
  destruct (Z.ltb_spec (CInt.to_u32 (i l)) nreq) as [Hlt|Hge].
  - unfold submit_read, call_rw_extended. cbn [world trace].
    pose proof (Hsub ns qid NVME_CMD_READ (buf + readOffset l) slba
                  (read_nlb ns nlb nreq (i l)) 1 w') as Hr.
    destruct (unvme_rw_extended _ _ _ _ _ _ _ _) as [r w''].
    cbn [fst] in Hr. destruct Hr as [dr ->].
    eexists _, _. split; [reflexivity|].
    pose proof (prompt_inv_full w l Hinv (Hfull Hlt)) as Hall.
    unfold prompt_inv. rewrite Hadv by done.
    cbn [advance_j desc pending i]. rewrite to_u32_succ by lia.
    split_and!; try lia.
    + unfold desc_store. rewrite length_insert. lia.
    + intros t Ht.
      pose proof (Z.mod_pos_bound ((j l + 1) mod w + t) w ltac:(lia)) as Hk.
      unfold live_at, desc_store.
      destruct (decide (((j l + 1) mod w + t) mod w = j l)) as [->|Hne].
      * exists dr. apply list_lookup_insert_eq. lia.
      * rewrite list_lookup_insert_ne by lia. by apply Hall.
  - eexists _, _. split; [reflexivity|].
    unfold prompt_inv. rewrite Hadv by done.
    cbn [advance_j desc pending i].
    split_and!; try lia.
    + unfold desc_store. rewrite length_insert. lia.
    + intros t Ht. rewrite Hshift.
      pose proof (shifted_mod_ne w (j l) (t + 1) ltac:(lia) ltac:(lia)) as Hne.
      pose proof (Z.mod_pos_bound (j l + (t + 1)) w ltac:(lia)) as Hk.
      unfold live_at, desc_store.
      rewrite list_lookup_insert_ne by lia. apply Hlive. lia.
Qed.

Lemma prompt_loop (w : Z) (n : nat) :
  forall (l : locals Desc) (s : ST) (fuel : nat),
    1 <= w < 2 ^ 16 ->
    prompt_inv w nreq l -> 1 <= pending l ->
    (nreq - CInt.to_u32 (i l)) + pending l = Z.of_nat n ->
    (n <= fuel)%nat ->
    (poll_loop fuel ns qid buf slba nlb nreq w l s).1 = Returns 0.
Proof.
  induction n as [|n IH]; intros l s fuel Hw Hinv Hpend Hmu Hfuel.
  - destruct Hinv as (_ & _ & _ & Hi & _). lia.
  - destruct fuel as [|fuel]; [lia|]. cbn [poll_loop].
    destruct (prompt_body w l s Hw Hinv Hpend) as (l' & s' & -> & Hinv' & Hmu').
    destruct (Z.ltb_spec 0 (pending l')); [|done].
    apply IH; try done; lia.
Qed.

Lemma filled_step (l : locals Desc) (s s' : ST) (r : option Desc) :
  CInt.is_u16 (maxiopq ns) ->
  filled_inv ns nlb l s -> i l < maxiopq ns -> CInt.to_u32 (i l) < nreq ->
  submit_read ns qid buf slba nlb nreq l s = (r, s') ->
  filled_inv ns nlb
    {| desc := desc_store (desc l) (i l) r;
                i := CInt.to_int (i l + 1);
                j := j l;
                pending := pending l;
                readOffset := next_readOffset ns l |} s'.
Proof.
  intros Hq (Hi & Hin & Hlen & Hlive) Hlt Hltn Hs. unfold CInt.is_u16 in Hq.
  destruct Hprompt as [Hsub _].
  unfold submit_read, call_rw_extended in Hs.
  pose proof (Hsub ns qid NVME_CMD_READ (buf + readOffset l) slba
                (read_nlb ns nlb nreq (i l)) 1 (world s)) as Hr.
  destruct (unvme_rw_extended _ _ _ _ _ _ _ _) as [r' w'].
  injection Hs as -> <-. cbn [fst] in Hr. destruct Hr as [dr ->].
  rewrite to_u32_small in Hltn by lia.
  unfold filled_inv. cbn [i desc]. rewrite to_int_small by lia.
  split_and!; try lia.
  - unfold desc_store. by rewrite length_insert.
  - intros k Hk. unfold live_at, desc_store.
    destruct (decide (k = i l)) as [->|Hne].
    + exists dr. apply list_lookup_insert_eq. lia.
    + rewrite list_lookup_insert_ne by lia. apply Hlive. lia.
Qed.

(** X4.  On a core that accepts every submission and completes every command
    at its first poll, and when the polling index wraps exactly at the
    window ([min (maxbpio, nrequests) = min (maxiopq, nrequests)]), the
    function returns 0 within [nrequests] iterations of its loop. *)
Theorem translate_region_returns_on_prompt_core (fuel : nat) (s : ST) :
  ns_wf ns -> 1 <= maxiopq ns -> 1 <= nreq ->
  Z.min (maxbpio ns) nreq = Z.min (maxiopq ns) nreq ->
  (Z.to_nat nreq <= fuel)%nat ->
  (unvme_translate_region fuel ns qid buf slba nlb config_nlb s).1 = Returns 0.
Proof.
  intros (_ & Hb & Hq) Hm Hn Hmin Hfuel.
  pose proof Hb as Hb'. pose proof Hq as Hq'. unfold CInt.is_u16 in Hb', Hq'.
  destruct Hprompt as [Hsub _].
  unfold unvme_translate_region, translate_region_setup.
  destruct (Z.eqb_spec (maxbpio ns) 0) as [H0|H0].
  { rewrite H0 in Hmin. lia. }
  unfold call_rw_extended at 1. cbn [world trace].
  pose proof (Hsub ns qid NVME_CMD_WRITE buf slba config_nlb 1 (world s)) as Hr.
  destruct (unvme_rw_extended ns qid NVME_CMD_WRITE _ _ _ _ (world s))
    as [r w1].
  cbn [fst] in Hr. destruct Hr as [d0 ->].
  rewrite (proj2 (Z.leb_gt _ _)) by lia.
  set (s1 := mk_state w1 _).
  set (l0 := {| desc := _; i := 1; j := 0; pending := 0; readOffset := 0 |}).
  assert (filled_inv ns nlb l0 s1) as Hf0.
  { unfold filled_inv. subst l0. cbn [i desc].
    split_and!; try lia.
    - unfold desc_store. by rewrite length_insert, length_replicate.
    - intros k Hk. assert (k = 0) as -> by lia. exists d0.
      unfold desc_store. apply list_lookup_insert_eq.
      rewrite length_replicate. lia. }
  pose proof (fill_window_inv ns qid buf slba nlb (filled_inv ns nlb) nreq
                (fun l s r s' HP Hlt Hltn Hs =>
                   filled_step l s s' r Hq HP Hlt Hltn Hs)
                (Z.to_nat (maxiopq ns - 1)) l0 s1 Hf0) as Hf.
  pose proof (fill_window_reaches ns qid buf slba nlb win
                (Z.to_nat (maxiopq ns - 1)) l0 s1 Hq
                ltac:(cbn; lia) ltac:(lia) ltac:(lia) ltac:(cbn; lia))
    as Hreach.
  destruct (fill_window _ _ _ _ _ _ _ l0 s1) as [l1 s2].
  cbn [fst snd] in Hf, Hreach.
  destruct Hf as (Hi & Hin & Hlen & Hlive).
  assert (i l1 = win) as Hwin by lia.
  replace (maxj_of ns nreq) with win.
  2:{ unfold maxj_of. rewrite <- Hmin.
      destruct (Z.ltb_spec (maxbpio ns) nreq); rewrite to_int_small; lia. }
  apply (prompt_loop win (Z.to_nat nreq)); try done; cbn [pending i].
  - lia.
  - unfold prompt_inv. cbn [j pending desc i].
    rewrite to_u32_small by lia.
    split_and!; try lia.
    intros t Ht. rewrite Z.add_0_l, Z.mod_small by lia. apply Hlive. lia.
  - lia.
  - rewrite to_u32_small by lia. lia.
Qed.

End Prompt.

Lemma ideal_core_prompt : always_prompt (Core := ideal_core).
Proof. split; [by eexists|done]. Qed.

(** Ten blocks in reads of 4 under a window of 4, on the ideal core:
    four iterations. *)
Lemma translate_region_returns_on_prompt_core_witness :
  (unvme_translate_region (Core := ideal_core) 4 Scenario.ns_small
     0 0 0 10 1 (mk_state 0%nat [])).1 = Returns 0.
Proof.
  apply (translate_region_returns_on_prompt_core (Core := ideal_core)
           Scenario.ns_small 0 0 0 10 1 ideal_core_prompt 4%nat
           (mk_state 0%nat [])).
  - unfold ns_wf, CInt.is_u16. cbn. lia.
  - cbn. lia.
  - vm_compute. discriminate.
  - vm_compute. reflexivity.
  - vm_compute. lia.
Defined.

(** ** The region transfer of the embedding library *)

Section RegionFacts.

Import EmbedLib.

Context {World Desc : Type} {Core : UnvmeCore World Desc} {Clock : Rdtsc World}.

Local Abbreviation ST := (state World Desc).

Variables (ns : unvme_ns_t) (geo : geometry) (qsize : Z).
Variables (buf slba nlb rw q : Z).

Local Abbreviation qdepth := (CInt.to_int (qsize - 1)).
Local Abbreviation Locals := (@rw_locals Desc).

Lemma to_u64_add_l (a b : Z) : to_u64 (to_u64 a + b) = to_u64 (a + b).
Proof. unfold to_u64. by rewrite Zplus_mod_idemp_l. Qed.

Lemma to_u64_small (a : Z) : 0 <= a < 2 ^ 64 -> to_u64 a = a.
Proof. intros H. unfold to_u64. by rewrite Z.mod_small. Qed.

Lemma lt_ceil_div (n a b : Z) :
  1 <= b -> n * b < a <-> n < ceil_div a b.
Proof.
  intros Hb. unfold ceil_div. split; intros H.
  - pose proof (Z.div_le_lower_bound (a + b - 1) b (n + 1) ltac:(lia)
                  ltac:(nia)). lia.
  - pose proof (Z.mul_div_le (a + b - 1) b ltac:(lia)).
    assert (b * (n + 1) <= b * ((a + b - 1) / b)) by nia. lia.
Qed.

(** A rule for the submission loop. *)
Lemma submit_pages_inv (P : Z -> list (bw_page Desc) -> ST -> Prop)
    (Q : result (list (bw_page Desc)) * ST -> Prop) (n : nat) :
  forall k0,
  (forall k a s, k0 <= k < k0 + Z.of_nat n -> P k a s ->
     match page_load a k with
     | inr flt => Q (Trap flt, s)
     | inl p =>
         match io_submit ns geo q rw p s with
         | (inl p', s') => P (k + 1) (<[Z.to_nat k := p']> a) s'
         | (inr status, s') => Q (Errx status, s')
         end
     end) ->
  (forall a s, P (k0 + Z.of_nat n) a s -> Q (Done a, s)) ->
  forall a s, P k0 a s -> Q (submit_pages ns geo n q rw k0 a s).
Proof.
  induction n as [|n IH]; intros k0 Hstep Hdone a s HP.
  - cbn [submit_pages]. apply Hdone. by rewrite Z.add_0_r.
  - cbn [submit_pages]. pose proof (Hstep k0 a s ltac:(lia) HP) as H0.
    destruct (page_load a k0) as [p|flt]; [|done].
    destruct (io_submit ns geo q rw p s) as [[p'|status] s']; [|done].
    apply IH; [| |done].
    + intros k a0 s0 Hk. apply Hstep. lia.
    + intros a0 s0 HP0. apply Hdone.
      by replace (k0 + Z.of_nat (S n)) with (k0 + 1 + Z.of_nat n) by lia.
Qed.

Lemma to_int_range (x : Z) : - 2 ^ 31 <= CInt.to_int x < 2 ^ 31.
Proof.
  unfold CInt.to_int. pose proof (Z.mod_pos_bound x (2 ^ 32) ltac:(lia)).
  destruct (Z.ltb_spec (x mod 2 ^ 32) (2 ^ 31)); lia.
Qed.

(** A rule for the polling loop. *)
Lemma rw_loop_inv (P : Locals -> ST -> Prop)
    (Q : result unit * ST -> Prop) (timeout : Z) :
  (forall l s, P l s ->
     match rw_body ns geo slba nlb rw q qdepth timeout l s with
     | (Done l', s') =>
         (0 < rw_pending l' -> P l' s')
         /\ (rw_pending l' <= 0 -> Q (Done tt, s'))
     | (Errx status, s') => Q (Errx status, s')
     | (Trap flt, s') => Q (Trap flt, s')
     | (Unfinished, s') => Q (Unfinished, s')
     end) ->
  (forall l s, P l s -> Q (Unfinished, s)) ->
  forall fuel l s,
    P l s -> Q (rw_loop ns geo fuel slba nlb rw q qdepth timeout l s).
Proof.
  intros Hstep Hout. induction fuel as [|fuel IH]; intros l s HP.
  - cbn [rw_loop]. by apply (Hout l).
  - cbn [rw_loop]. pose proof (Hstep l s HP) as H0.
    destruct (rw_body _ _ _ _ _ _ _ _ _ _) as [[l'|status|flt|] s']; try done.
    + destruct H0 as [Hgo Hstop].
      destruct (Z.ltb_spec 0 (rw_pending l')); [apply IH|apply Hstop]; auto.
Qed.

Lemma io_submit_spec (p : bw_page Desc) (s : ST) :
  match io_submit ns geo q rw p s with
  | (inl p', s') =>
      exists d t,
        p' = mk_page (p_buf p) (p_lba p) (Some d) t
        /\ trace s' = trace s ++ [EvRw q (opc_of rw) (p_buf p) (p_lba p)
                                    (nbpp geo) (Some d)]
  | (inr status, s') =>
      status = 1
      /\ trace s' = trace s ++ [EvRw q (opc_of rw) (p_buf p) (p_lba p)
                                  (nbpp geo) None]
  end.
Proof.
  unfold io_submit, call_rdtsc, opc_of.
  destruct (rdtsc (world s)) as [t w].
  destruct (Z.eqb_spec rw 0);
    unfold unvme_aread, unvme_awrite, call_rw; cbn [world trace];
    destruct (unvme_rw _ _ _ _ _ _ _) as [[d|] w']; cbn [trace]; eauto.
Qed.

Lemma next_idx_bounds (l : Locals) :
  0 <= idx l < qdepth ->
  0 <= idx (next_idx qdepth l) < qdepth
  /\ idx (next_idx qdepth l) = (idx l + 1) mod qdepth.
Proof.
  intros Hi. pose proof (to_int_range (qsize - 1)).
  unfold next_idx. cbn [idx]. rewrite to_int_small by lia.
  rewrite succ_mod by lia.
  split; [apply Z.mod_pos_bound; lia|done].
Qed.

Lemma page_load_inv (l : Locals) :
  pages_inv qsize l ->
  exists p, page_load (pages l) (idx l) = inl p
            /\ pages l !! Z.to_nat (idx l) = Some p.
Proof.
  intros [Hlen Hi]. unfold page_load.
  rewrite (proj2 (Z.ltb_ge _ _)) by lia.
  rewrite (proj2 (Z.leb_gt _ _)) by lia. cbn [orb].
  destruct (lookup_lt_is_Some_2 (pages l) (Z.to_nat (idx l)) ltac:(lia))
    as [p Hp].
  rewrite Hp. eauto.
Qed.

(** What one iteration of the polling loop does. *)
Lemma rw_body_spec (timeout : Z) (l : Locals) (s : ST) :
  pages_inv qsize l ->
  match rw_body ns geo slba nlb rw q qdepth timeout l s with
  | (Done l', s') =>
      pages_inv qsize l'
      /\ ((l' = next_idx qdepth l
           /\ (trace s' = trace s
               \/ exists d rc, trace s' = trace s ++ [EvPoll d 0 rc]))
          \/ (cur_lba l < to_u64 (slba + nlb)
              /\ exists d d' p',
                   trace s' = trace s
                                ++ [EvPoll d 0 0;
                                    EvRw q (opc_of rw) (buf_p l) (cur_lba l)
                                      (nbpp geo) (Some d')]
                   /\ p_iod p' = Some d'
                   /\ l' = next_idx qdepth
                        {| pages := <[Z.to_nat (idx l) := p']> (pages l);
                           idx := idx l;
                           rw_pending := rw_pending l;
                           buf_p := buf_p l + pagesize geo;
                           cur_lba := to_u64 (cur_lba l + nbpp geo) |})
          \/ (to_u64 (slba + nlb) <= cur_lba l
              /\ exists d p',
                   trace s' = trace s ++ [EvPoll d 0 0]
                   /\ l' = next_idx qdepth
                        {| pages := <[Z.to_nat (idx l) := p']> (pages l);
                           idx := idx l;
                           rw_pending := rw_pending l - 1;
                           buf_p := buf_p l;
                           cur_lba := cur_lba l |}))
  | (Errx status, s') =>
      status = 1
      /\ ((exists d rc, trace s' = trace s ++ [EvPoll d 0 rc])
          \/ exists d, trace s' = trace s
                         ++ [EvPoll d 0 0;
                             EvRw q (opc_of rw) (buf_p l) (cur_lba l)
                               (nbpp geo) None])
  | (Trap _, _) => False
  | (Unfinished, _) => False
  end.
Proof.
  intros Hinv. pose proof Hinv as [Hlen Hi].
  destruct (page_load_inv l Hinv) as (p & Hload & _).
  pose proof (next_idx_bounds l Hi) as [Hnext _].
  unfold rw_body. rewrite Hload. destruct (p_iod p) as [d|] eqn:Hiod.
  2:{ split; [by split|]. left. eauto. }
  unfold unvme_apoll, call_do_poll.
  destruct (unvme_do_poll d 0 None (world s)) as [rc w1].
  destruct (Z.eqb_spec rc 0) as [->|Hrc].
  - destruct (Z.ltb_spec (cur_lba l) (to_u64 (slba + nlb))) as [Hlt|Hge].
    + pose proof (io_submit_spec (mk_page (buf_p l) (cur_lba l) (Some d) (p_tsc p))
                    (mk_state w1 (trace s ++ [EvPoll d 0 0]))) as Hsub.
      destruct (io_submit _ _ _ _ _ _) as [[p'|status] s2].
      * destruct Hsub as (d' & t & -> & Htr). cbn [trace p_buf p_lba] in Htr.
        split.
        { split; [cbn [next_idx pages]; by rewrite length_insert|].
          apply (next_idx_bounds
                   {| pages := _; idx := idx l; rw_pending := _;
                      buf_p := _; cur_lba := _ |}). done. }
        right; left. split; [done|].
        exists d, d', (mk_page (buf_p l) (cur_lba l) (Some d') t).
        split; [by rewrite Htr, <- app_assoc|]. split; done.
      * destruct Hsub as [-> Htr]. cbn [trace p_buf p_lba] in Htr.
        split; [done|]. right. exists d. by rewrite Htr, <- app_assoc.
    + split.
      { split; [cbn [next_idx pages]; by rewrite length_insert|].
        apply (next_idx_bounds
                 {| pages := _; idx := idx l; rw_pending := _;
                    buf_p := _; cur_lba := _ |}). done. }
      right; right. split; [done|]. eexists d, _. split; done.
  - unfold call_rdtsc_elapse. cbn [world trace].
    destruct (rdtsc_elapse (p_tsc p) w1) as [e w2].
    destruct (Z.ltb_spec timeout e).
    + split; [done|]. left. eauto.
    + split; [by split|]. left. split; [done|]. right. eauto.
Qed.

Lemma page_calls_succ (n : Z) :
  0 <= n ->
  page_calls geo buf slba rw q (n + 1)
  = page_calls geo buf slba rw q n
      ++ [(q, opc_of rw, buf + n * pagesize geo,
           to_u64 (slba + n * nbpp geo), nbpp geo)].
Proof.
  intros Hn. unfold page_calls. by rewrite seqZ_snoc, fmap_app by lia.
Qed.

Lemma accepted_snoc (tr : list (event Desc)) (e : event Desc) :
  accepted tr -> ~ refused e -> accepted (tr ++ [e]).
Proof.
  intros Htr He. apply Forall_app. split; [done|]. by apply Forall_singleton.
Qed.

Local Ltac acc_snoc :=
  repeat (apply accepted_snoc; [|cbn [refused]; tauto]); try done.

Lemma init_pages_spec (n : nat) :
  forall b x,
    exists ps : list (bw_page Desc),
      init_pages geo n b (to_u64 x)
      = (ps, (b + Z.of_nat n * pagesize geo,
              to_u64 (x + Z.of_nat n * nbpp geo)))
      /\ length ps = n
      /\ (forall k, 0 <= k < Z.of_nat n ->
            ps !! Z.to_nat k
            = Some (mk_page (b + k * pagesize geo)
                      (to_u64 (x + k * nbpp geo)) None 0)).
Proof.
  induction n as [|n IH]; intros b x.
  - exists []. cbn [init_pages]. split_and!; [|done|lia].
    by rewrite Z.add_0_r, Z.add_0_r.
  - cbn [init_pages]. rewrite to_u64_add_l.
    destruct (IH (b + pagesize geo) (x + nbpp geo)) as (ps & -> & Hlen & Hps).
    eexists. split_and!.
    + f_equal. f_equal; [lia|f_equal; lia].
    + cbn [length]. by rewrite Hlen.
    + intros k Hk. destruct (decide (k = 0)) as [->|Hne].
      * cbn. by rewrite !Z.add_0_r.
      * replace (Z.to_nat k) with (S (Z.to_nat (k - 1))) by lia.
        rewrite lookup_cons_ne_0, Nat.pred_succ by lia.
        rewrite Hps by lia. do 2 f_equal; [lia|f_equal; lia].
Qed.

(** Every run of [rw_region] with a queue depth of at least 1. *)
Lemma rw_region_run (fuel : nat) (w : World) :
  1 <= qdepth -> 0 <= slba < 2 ^ 64 ->
  run_post geo qsize buf slba nlb rw q
    (rw_region ns geo qsize fuel buf slba nlb rw q (mk_state w [])).
Proof.
  intros Hq Hslba. pose proof (to_int_range (qsize - 1)) as Hrange.
  unfold rw_region, call_rdtsc_second. cbn [world trace].
  destruct (rdtsc_second w) as [sec w0].
  destruct (init_pages_spec (Z.to_nat qdepth) buf slba)
    as (ps & Hinit & Hlen & Hps).
  rewrite (to_u64_small slba) in Hinit by done. rewrite Hinit. clear Hinit.
  rewrite Z2Nat.id in * by lia.
  cut ((fun r => match r with
                     | (Done a, s) =>
                         run_post geo qsize buf slba nlb rw q
                           (rw_loop ns geo fuel slba nlb rw q qdepth
                              (to_u64 (30 * sec))
                              {| pages := a; idx := 0; rw_pending := qdepth;
                                 buf_p := buf + qdepth * pagesize geo;
                                 cur_lba := to_u64 (slba + qdepth * nbpp geo) |}
                              s)
                     | (Errx status, s) =>
                         run_post geo qsize buf slba nlb rw q (Errx status, s)
                     | (Trap flt, s) =>
                         run_post geo qsize buf slba nlb rw q (Trap flt, s)
                     | (Unfinished, s) =>
                         run_post geo qsize buf slba nlb rw q (Unfinished, s)
                     end)
         (submit_pages ns geo (Z.to_nat qdepth) q rw 0 ps (mk_state w0 []))).
  { cbn beta. by destruct (submit_pages _ _ _ _ _ _ _ _) as [[a|status|flt|] s1]. }
  apply (submit_pages_inv (submit_inv geo qsize buf slba rw q));
    rewrite ?Z2Nat.id by lia.
  - (* one submission *)
    intros k a s Hk (Hk0 & Hla & Hacc & Hcalls & Hrest).
    unfold page_load.
    rewrite (proj2 (Z.ltb_ge _ _)) by lia.
    rewrite (proj2 (Z.leb_gt _ _)) by lia. cbn [orb].
    rewrite Hrest by lia.
    pose proof (io_submit_spec
                  (mk_page (buf + k * pagesize geo)
                     (to_u64 (slba + k * nbpp geo)) None 0) s) as Hsub.
    destruct (io_submit _ _ _ _ _ _) as [[p'|status] s'].
    + destruct Hsub as (d & t & -> & Htr). cbn [p_buf p_lba] in Htr.
      split_and!; [lia|by rewrite length_insert| | |].
      * rewrite Htr. acc_snoc.
      * rewrite Htr. unfold rw_calls in *. rewrite omap_app, Hcalls.
        by rewrite page_calls_succ.
      * intros j Hj. rewrite list_lookup_insert_ne by lia. apply Hrest. lia.
    + destruct Hsub as [-> Htr]. cbn [p_buf p_lba] in Htr.
      split_and!; cbn [fst snd].
      * done.
      * right. split; [done|]. eexists _, _. split; [exact Htr|]. by split.
      * exists (k + 1). split_and!; [lia| |done].
        rewrite Htr. unfold rw_calls in *. rewrite omap_app, Hcalls.
        by rewrite page_calls_succ.
  - (* the polling loop *)
    intros a s (_ & Hla & Hacc & Hcalls & _). rewrite Z.add_0_l in Hcalls.
    apply (rw_loop_inv (run_inv geo qsize buf slba nlb rw q)).
    + intros l s0 (Hpages & Hpend & Hacc0 & n & (Hn & Hc & Hb & Hlba) & Hqn & Hmax).
      pose proof (rw_body_spec (to_u64 (30 * sec)) l s0 Hpages) as Hbody.
      destruct (rw_body _ _ _ _ _ _ _ _ _ _) as [[l'|status|flt|] s'];
        try done.
      * destruct Hbody as [Hpages' Hcase].
        destruct Hcase as [[-> Htr] | [(Hlt & d & d' & p' & Htr & Hiod & ->)
                                      | (Hge & d & p' & Htr & ->)]].
        -- assert (accepted (trace s')
                   /\ rw_calls (trace s') = rw_calls (trace s0)) as [Ha Hr].
           { destruct Htr as [-> | (d & rc & ->)]; [done|].
             split; [acc_snoc|].
             unfold rw_calls. by rewrite omap_app, app_nil_r. }
           split; [|cbn [next_idx rw_pending]; lia].
           intros _. split_and!; try done.
           exists n. unfold region_inv. cbn [next_idx buf_p cur_lba].
           rewrite Hr. split_and!; done.
        -- assert (accepted (trace s')) as Ha.
           { rewrite Htr.
             replace [EvPoll d 0 0; EvRw q (opc_of rw) (buf_p l) (cur_lba l)
                                      (nbpp geo) (Some d')]
               with ([EvPoll d 0 0 : event Desc]
                       ++ [EvRw q (opc_of rw) (buf_p l) (cur_lba l)
                             (nbpp geo) (Some d')]) by done.
             rewrite app_assoc. acc_snoc. }
           split; [|cbn [next_idx rw_pending]; lia].
           intros _. split_and!; try done.
           exists (n + 1). unfold region_inv. split_and!; try lia.
           ++ rewrite Htr. unfold rw_calls in *. rewrite omap_app, Hc.
              cbn [omap rw_call]. rewrite page_calls_succ by done.
              by rewrite Hb, Hlba.
           ++ cbn [next_idx buf_p]. rewrite Hb. lia.
           ++ cbn [next_idx cur_lba]. rewrite Hlba, to_u64_add_l.
              f_equal. lia.
           ++ intros Hnw. specialize (Hmax Hnw).
              destruct Hnw as (Hs0 & Hnlb & Hbpp & Hend & Hfit).
              assert (slba + n * nbpp geo < 2 ^ 64) by nia.
              rewrite Hlba in Hlt.
              rewrite !to_u64_small in Hlt by nia.
              assert (n < ceil_div nlb (nbpp geo))
                by (apply lt_ceil_div; [done|lia]).
              unfold region_pages. lia.
        -- split.
           ++ intros Hpos. split_and!; try done.
              ** cbn [next_idx rw_pending] in *. lia.
              ** rewrite Htr. acc_snoc.
              ** exists n. unfold region_inv. cbn [next_idx buf_p cur_lba].
                 split_and!; try done.
                 rewrite Htr. unfold rw_calls in *.
                 by rewrite omap_app, app_nil_r.
           ++ intros _. split_and!; cbn [fst snd].
              ** done.
              ** left. rewrite Htr. acc_snoc.
              ** exists n. split_and!; [done| |].
                 { rewrite Htr. unfold rw_calls in *.
                   by rewrite omap_app, app_nil_r. }
                 intros _. split_and!; [done| |done]. by rewrite <- Hlba.
      * destruct Hbody as [-> Hcase]. split_and!; cbn [fst snd].
        -- done.
        -- destruct Hcase as [(d & rc & Htr) | (d & Htr)].
           ++ left. rewrite Htr. acc_snoc.
           ++ right. split; [done|].
              exists (trace s0 ++ [EvPoll d 0 0]), (EvRw q (opc_of rw) (buf_p l)
                                                     (cur_lba l) (nbpp geo) None).
              split_and!; [by rewrite Htr, <- app_assoc|done|].
              acc_snoc.
        -- destruct Hcase as [(d & rc & Htr) | (d & Htr)].
           ++ exists n. split_and!; [done| |done].
              rewrite Htr. unfold rw_calls in *.
              by rewrite omap_app, app_nil_r.
           ++ exists (n + 1). split_and!; [lia| |done].
              rewrite Htr. unfold rw_calls in *. rewrite omap_app, Hc.
              cbn [omap rw_call]. rewrite page_calls_succ by done.
              by rewrite Hb, Hlba.
    + intros l s0 (_ & _ & Hacc0 & n & (Hn & Hc & _) & _).
      split_and!; cbn [fst snd]; [done|by left|].
      exists n. split_and!; done.
    + unfold run_inv. cbn [rw_pending].
      split; [split; [done|cbn [idx]; lia]|].
      split; [lia|]. split; [done|].
      exists qdepth. unfold region_inv. cbn [buf_p cur_lba].
      split_and!; try done; try lia.
      intros _. unfold region_pages. lia.
  - (* before the first submission *)
    split_and!; [lia|done|by apply Forall_nil|done|].
    intros j Hj. apply Hps. lia.
Qed.

(** X5.  [rw_region] leaves its [pages] array exactly when the queue depth
    [qsize - 1] is not positive: it then reads [pages[0]] of an empty
    allocation in its first polling iteration. *)
Theorem rw_region_faults_iff_no_queue_depth (fuel : nat) (w : World) :
  0 <= slba < 2 ^ 64 ->
  (exists flt,
     (rw_region ns geo qsize (S fuel) buf slba nlb rw q (mk_state w [])).1
     = Trap flt)
  <-> qdepth <= 0.
Proof.
  intros Hslba. split.
  - intros [flt Hflt]. destruct (Z.le_gt_cases qdepth 0) as [|Hq]; [done|].
    pose proof (rw_region_run (S fuel) w ltac:(lia) Hslba) as [Hno _].
    by destruct (Hno flt).
  - intros Hq. exists (OutOfBounds 0).
    unfold rw_region, call_rdtsc_second. cbn [world trace].
    destruct (rdtsc_second w) as [sec w0].
    replace (Z.to_nat qdepth) with 0%nat by lia.
    cbn [init_pages submit_pages rw_loop]. unfold rw_body. cbn [pages idx].
    reflexivity.
Qed.

(** X6.  Whatever the outcome, the I/Os [rw_region] has submitted are the
    first [n] pages of the region, in order: page [k] at
    [buf + k * pagesize], block [slba + k * nbpp] modulo [2^64], [nbpp]
    blocks each, all on queue [q] with the opcode that [rw] selects. *)
Theorem rw_region_submits_consecutive_pages (fuel : nat) (w : World) :
  1 <= qdepth -> 0 <= slba < 2 ^ 64 ->
  exists n,
    0 <= n
    /\ rw_calls
         (trace (rw_region ns geo qsize fuel buf slba nlb rw q
                   (mk_state w [])).2)
       = page_calls geo buf slba rw q n.
Proof.
  intros Hq Hslba.
  destruct (rw_region_run fuel w Hq Hslba) as (_ & _ & n & Hn & Hc & _).
  eauto.
Qed.

(** X7.  When [rw_region] returns it has transferred exactly
    [max (qsize - 1, ceil (nlb / nbpp))] pages: never fewer than the
    queue depth, so a region shorter than [qsize - 1] pages is overrun. *)
Theorem rw_region_transfers_queue_depth_at_least (fuel : nat) (w : World) :
  1 <= qdepth -> no_wrap geo qsize slba nlb ->
  (rw_region ns geo qsize fuel buf slba nlb rw q (mk_state w [])).1 = Done tt ->
  rw_calls
    (trace (rw_region ns geo qsize fuel buf slba nlb rw q (mk_state w [])).2)
  = page_calls geo buf slba rw q (region_pages geo qsize nlb).
Proof.
  intros Hq Hnw Hdone.
  pose proof Hnw as (Hs0 & Hnlb & Hbpp & Hend & Hfit).
  assert (0 <= region_pages geo qsize nlb) by (unfold region_pages; lia).
  destruct (rw_region_run fuel w Hq ltac:(nia)) as (_ & _ & n & Hn & Hc & Hfin).
  destruct (Hfin Hdone) as (Hqn & Hlast & Hmax). specialize (Hmax Hnw).
  rewrite !to_u64_small in Hlast by nia.
  assert (~ n < ceil_div nlb (nbpp geo)).
  { intros Hlt. apply lt_ceil_div in Hlt; [lia|done]. }
  rewrite Hc. f_equal. unfold region_pages in *. lia.
Qed.

(** X8.  A submission that the driver refuses ends [rw_region] at once:
    the refused call is the last one of the run, which exits with
    status 1. *)
Theorem rw_region_exits_on_refused_submission (fuel : nat) (w : World)
    (pre post : list (event Desc)) (e : event Desc) :
  1 <= qdepth -> 0 <= slba < 2 ^ 64 ->
  trace (rw_region ns geo qsize fuel buf slba nlb rw q (mk_state w [])).2
  = pre ++ e :: post ->
  refused e ->
  post = []
  /\ (rw_region ns geo qsize fuel buf slba nlb rw q (mk_state w [])).1
     = Errx 1.
Proof.
  intros Hq Hslba Htr He.
  destruct (rw_region_run fuel w Hq Hslba) as (_ & Hacc & _).
  rewrite Htr in Hacc.
  destruct Hacc as [Hacc | (Hexit & pre' & e' & Heq & He' & Hpre')].
  - apply Forall_app in Hacc as [_ Hacc]. by inversion Hacc.
  - split; [|done]. destruct post as [|x post _] using rev_ind; [done|].
    change (pre ++ e :: post ++ [x]) with (pre ++ (e :: post) ++ [x]) in Heq.
    rewrite app_assoc in Heq. apply app_inj_tail in Heq as [<- _].
    apply Forall_app in Hpre' as [_ Hpre']. by inversion Hpre'.
Qed.

Section PromptDriver.

Hypothesis Hprompt : rw_prompt (Core := Core).

Lemma io_submit_prompt (p : bw_page Desc) (s : ST) :
  exists p' s' d,
    io_submit ns geo q rw p s = (inl p', s') /\ p_iod p' = Some d.
Proof.
  destruct Hprompt as [Hsub _].
  unfold io_submit, call_rdtsc. destruct (rdtsc (world s)) as [t w].
  destruct (Z.eqb_spec rw 0);
    unfold unvme_aread, unvme_awrite, call_rw; cbn [world trace].
  - pose proof (Hsub ns q NVME_CMD_READ (p_buf p) (p_lba p) (nbpp geo) w) as Hr.
    destruct (unvme_rw _ _ _ _ _ _ _) as [r w']. cbn [fst] in Hr.
    destruct Hr as [d ->].
    by eexists _, _, d.
  - pose proof (Hsub ns q NVME_CMD_WRITE (p_buf p) (p_lba p) (nbpp geo) w) as Hr.
    destruct (unvme_rw _ _ _ _ _ _ _) as [r w']. cbn [fst] in Hr.
    destruct Hr as [d ->].
    by eexists _, _, d.
Qed.

(** The submission loop fills the whole array. *)
Lemma submit_pages_prompt (a : list (bw_page Desc)) (s : ST) :
  0 <= qdepth -> length a = Z.to_nat qdepth ->
  exists a' s',
    submit_pages ns geo (Z.to_nat qdepth) q rw 0 a s = (Done a', s')
    /\ length a' = Z.to_nat qdepth
    /\ (forall k, 0 <= k < qdepth -> page_live a' k).
Proof.
  intros Hq Hlen.
  apply (submit_pages_inv
           (fun k a0 _ =>
              length a0 = Z.to_nat qdepth
              /\ forall j, 0 <= j < k -> page_live a0 j)
           (fun r =>
              exists a' s',
                r = (Done a', s')
                /\ length a' = Z.to_nat qdepth
                /\ forall k, 0 <= k < qdepth -> page_live a' k)).
  - intros k a0 s0 Hk [Hl0 Hlive]. rewrite Z2Nat.id in Hk by lia.
    unfold page_load.
    rewrite (proj2 (Z.ltb_ge _ _)) by lia.
    rewrite (proj2 (Z.leb_gt _ _)) by lia. cbn [orb].
    destruct (lookup_lt_is_Some_2 a0 (Z.to_nat k) ltac:(lia)) as [p ->].
    destruct (io_submit_prompt p s0) as (p' & s' & d & -> & Hd).
    split; [by rewrite length_insert|].
    intros j Hj. destruct (decide (j = k)) as [->|Hne].
    + exists p', d. split; [|done]. apply list_lookup_insert_eq. lia.
    + destruct (Hlive j ltac:(lia)) as (pj & dj & Hpj & Hdj).
      exists pj, dj. split; [|done]. rewrite list_lookup_insert_ne by lia. done.
  - intros a0 s0 [Hl0 Hlive]. rewrite Z2Nat.id in Hlive by lia.
    by eexists _, _.
  - split; [done|]. lia.
Qed.

(** One iteration of the polling loop: the page at [i] is pending and
    complete, so it is resubmitted or retired. *)
Lemma drain_body (timeout n : Z) (l : Locals) (s : ST) :
  no_wrap geo qsize slba nlb ->
  drain_inv geo qsize slba nlb n l -> 1 <= rw_pending l ->
  exists l' s' n',
    rw_body ns geo slba nlb rw q qdepth timeout l s = (Done l', s')
    /\ drain_inv geo qsize slba nlb n' l'
    /\ Z.max 0 (ceil_div nlb (nbpp geo) - n') + rw_pending l'
       = Z.max 0 (ceil_div nlb (nbpp geo) - n) + rw_pending l - 1.
Proof.
  intros (Hs0 & Hnlb & Hbpp & Hend & Hfit) Hinv Hpend.
  pose proof Hinv as (Hpages & Hp & Hn & Hlba & Hfull & Hlive).
  pose proof Hpages as [Hlen Hi].
  destruct Hprompt as [_ Hpoll].
  pose proof (to_int_range (qsize - 1)) as Hrange.
  destruct (Hlive 0 ltac:(lia)) as (p & d & Hp0 & Hd).
  rewrite Z.add_0_r, Z.mod_small in Hp0 by lia.
  unfold rw_body, page_load.
  rewrite (proj2 (Z.ltb_ge _ _)) by lia.
  rewrite (proj2 (Z.leb_gt _ _)) by lia. cbn [orb]. rewrite Hp0, Hd.
  unfold unvme_apoll, call_do_poll.
  pose proof (Hpoll d 0 None (world s)) as Hrc.
  destruct (unvme_do_poll d 0 None (world s)) as [rc w1].
  cbn [fst] in Hrc. subst rc. cbn [Z.eqb].
  assert (forall t, ((idx l + 1) mod qdepth + t) mod qdepth
                    = (idx l + (t + 1)) mod qdepth) as Hshift.
  { intros t. rewrite Z.add_mod_idemp_l by lia. f_equal. lia. }
  assert (0 <= n * nbpp geo <= region_pages geo qsize nlb * nbpp geo) by nia.
  rewrite (to_u64_small (slba + nlb)) by lia.
  destruct (Z.ltb_spec (cur_lba l) (slba + nlb)) as [Hlt|Hge].
  - assert (n < ceil_div nlb (nbpp geo)) as HnC
      by (apply lt_ceil_div; [done|lia]).
    destruct (io_submit_prompt (mk_page (buf_p l) (cur_lba l) (Some d) (p_tsc p))
                (mk_state w1 (trace s ++ [EvPoll d 0 0])))
      as (p' & s' & d' & -> & Hd').
    eexists _, s', (n + 1). split; [reflexivity|].
    pose proof (next_idx_bounds
                  {| pages := <[Z.to_nat (idx l) := p']> (pages l);
                     idx := idx l; rw_pending := rw_pending l;
                     buf_p := buf_p l + pagesize geo;
                     cur_lba := to_u64 (cur_lba l + nbpp geo) |} Hi)
      as [Hnext Hmod].
    cbn [idx] in Hmod. split.
    + unfold drain_inv, pages_inv. rewrite Hmod.
      cbn [next_idx pages rw_pending cur_lba]. rewrite length_insert.
      specialize (Hfull HnC).
      assert (n + 1 <= region_pages geo qsize nlb)
        by (unfold region_pages; lia).
      pose proof (Z.mod_pos_bound (idx l + 1) qdepth ltac:(lia)).
      split_and!; try lia.
      * rewrite Hlba. rewrite to_u64_small by nia. lia.
      * intros t Ht.
        pose proof (Z.mod_pos_bound ((idx l + 1) mod qdepth + t) qdepth
                      ltac:(lia)) as Hk.
        destruct (decide (((idx l + 1) mod qdepth + t) mod qdepth = idx l))
          as [->|Hne].
        -- exists p', d'. split; [|done]. apply list_lookup_insert_eq. lia.
        -- specialize (Hlive ((((idx l + 1) mod qdepth + t) mod qdepth
                               - idx l) mod qdepth)).
           rewrite Z.add_mod_idemp_r in Hlive by lia.
           replace (idx l + (((idx l + 1) mod qdepth + t) mod qdepth - idx l))
             with (((idx l + 1) mod qdepth + t) mod qdepth) in Hlive by lia.
           rewrite Z.mod_mod in Hlive by lia.
           destruct Hlive as (pj & dj & Hpj & Hdj).
           { pose proof (Z.mod_pos_bound
                           ((((idx l + 1) mod qdepth + t) mod qdepth - idx l))
                           qdepth ltac:(lia)). lia. }
           exists pj, dj. split; [|done].
           rewrite list_lookup_insert_ne by lia. done.
    + cbn [next_idx rw_pending]. lia.
  - assert (~ n < ceil_div nlb (nbpp geo)) as HnC.
    { intros Hc. apply lt_ceil_div in Hc; [lia|done]. }
    eexists _, _, n. split; [reflexivity|].
    pose proof (next_idx_bounds
                  {| pages := <[Z.to_nat (idx l) := mk_page (p_buf p) (p_lba p)
                                                     None (p_tsc p)]> (pages l);
                     idx := idx l; rw_pending := rw_pending l - 1;
                     buf_p := buf_p l; cur_lba := cur_lba l |} Hi)
      as [Hnext Hmod].
    cbn [idx] in Hmod. split.
    + unfold drain_inv, pages_inv. rewrite Hmod.
      cbn [next_idx pages rw_pending cur_lba]. rewrite length_insert.
      pose proof (Z.mod_pos_bound (idx l + 1) qdepth ltac:(lia)).
      split_and!; try lia.
      * intros t Ht. rewrite Hshift.
        pose proof (shifted_mod_ne qdepth (idx l) (t + 1) ltac:(lia) ltac:(lia))
          as Hne.
        pose proof (Z.mod_pos_bound (idx l + (t + 1)) qdepth ltac:(lia)) as Hk.
        destruct (Hlive (t + 1) ltac:(lia)) as (pj & dj & Hpj & Hdj).
        exists pj, dj. split; [|done].
        rewrite list_lookup_insert_ne by lia. done.
    + cbn [next_idx rw_pending]. lia.
Qed.

Lemma drain_loop (timeout : Z) (m : nat) :
  forall (n : Z) (l : Locals) (s : ST) (fuel : nat),
    no_wrap geo qsize slba nlb ->
    drain_inv geo qsize slba nlb n l -> 1 <= rw_pending l ->
    Z.max 0 (ceil_div nlb (nbpp geo) - n) + rw_pending l = Z.of_nat m ->
    (m <= fuel)%nat ->
    (rw_loop ns geo fuel slba nlb rw q qdepth timeout l s).1 = Done tt.
Proof.
  induction m as [|m IH]; intros n l s fuel Hnw Hinv Hpend Hmu Hfuel.
  - lia.
  - destruct fuel as [|fuel]; [lia|]. cbn [rw_loop].
    destruct (drain_body timeout n l s Hnw Hinv Hpend)
      as (l' & s' & n' & -> & Hinv' & Hmu').
    destruct (Z.ltb_spec 0 (rw_pending l')); [|done].
    apply (IH n'); try done; lia.
Qed.

(** X9.  With a driver that accepts every submission and completes each
    at its first poll, [rw_region] returns within
    [max (qsize - 1, ceil (nlb / nbpp))] iterations of its polling
    loop. *)
Theorem rw_region_returns_on_prompt_driver (fuel : nat) (s : ST) :
  1 <= qdepth -> no_wrap geo qsize slba nlb ->
  (Z.to_nat (region_pages geo qsize nlb) <= fuel)%nat ->
  (rw_region ns geo qsize fuel buf slba nlb rw q s).1 = Done tt.
Proof.
  intros Hq Hnw Hfuel. pose proof Hnw as (Hs0 & Hnlb & Hbpp & Hend & Hfit).
  assert (0 <= ceil_div nlb (nbpp geo)) as HC.
  { unfold ceil_div. apply Z.div_pos; lia. }
  assert (0 <= qdepth * nbpp geo <= region_pages geo qsize nlb * nbpp geo)
    by (unfold region_pages; nia).
  unfold rw_region, call_rdtsc_second.
  destruct (rdtsc_second (world s)) as [sec w0].
  destruct (init_pages_spec (Z.to_nat qdepth) buf slba)
    as (ps & Hinit & Hlen & Hps).
  rewrite (to_u64_small slba) in Hinit by lia. rewrite Hinit. clear Hinit.
  rewrite Z2Nat.id in * by lia.
  destruct (submit_pages_prompt ps (mk_state w0 (trace s)) ltac:(lia) Hlen)
    as (a & s1 & -> & Hla & Hlive).
  apply (drain_loop _ (Z.to_nat (region_pages geo qsize nlb)) qdepth);
    try done.
  - unfold drain_inv, pages_inv. cbn [pages idx rw_pending cur_lba].
    rewrite to_u64_small by lia. unfold region_pages.
    split_and!; try lia.
    intros t Ht. apply Hlive. apply Z.mod_pos_bound. lia.
  - cbn [rw_pending]. unfold region_pages. lia.
Qed.

End PromptDriver.

End RegionFacts.

Lemma ideal_core_rw_prompt : EmbedLib.rw_prompt (Core := ideal_core).
Proof. split; [by eexists|done]. Qed.

(** [qsize = 1] leaves no queue depth. *)
Lemma rw_region_faults_iff_no_queue_depth_witness :
  (exists flt,
     (EmbedLib.rw_region (Core := ideal_core) (Clock := still_clock)
        Scenario.ns_small Scenario3.geo_4k 1 1 0 5000 40 0 0
        (mk_state 0%nat [])).1 = EmbedLib.Trap flt)
  <-> CInt.to_int (1 - 1) <= 0.
Proof.
  apply (rw_region_faults_iff_no_queue_depth (Core := ideal_core)
           (Clock := still_clock) Scenario.ns_small Scenario3.geo_4k 1
           0 5000 40 0 0 0%nat 0%nat).
  lia.
Defined.

(** Forty blocks from block 5000 with [qsize = 4]. *)
Lemma rw_region_submits_consecutive_pages_witness :
  exists n,
    0 <= n
    /\ EmbedLib.rw_calls
         (trace (EmbedLib.rw_region (Core := ideal_core) (Clock := still_clock)
                   Scenario.ns_small Scenario3.geo_4k 4 2 0 5000 40 0 0
                   (mk_state 0%nat [])).2)
       = EmbedLib.page_calls Scenario3.geo_4k 0 5000 0 0 n.
Proof.
  apply (rw_region_submits_consecutive_pages (Core := ideal_core)
           (Clock := still_clock) Scenario.ns_small Scenario3.geo_4k 4
           0 5000 40 0 0 2%nat 0%nat).
  - vm_compute. discriminate.
  - lia.
Defined.

(** Eight blocks, one page, with [qsize = 4]: three pages are read. *)
Lemma rw_region_transfers_queue_depth_at_least_witness :
  EmbedLib.rw_calls
    (trace (EmbedLib.rw_region (Core := ideal_core) (Clock := still_clock)
              Scenario.ns_small Scenario3.geo_4k 4 3 0 5000 8 0 0
              (mk_state 0%nat [])).2)
  = EmbedLib.page_calls Scenario3.geo_4k 0 5000 0 0
      (EmbedLib.region_pages Scenario3.geo_4k 4 8).
Proof.
  apply (rw_region_transfers_queue_depth_at_least (Core := ideal_core)
           (Clock := still_clock) Scenario.ns_small Scenario3.geo_4k 4
           0 5000 8 0 0 3%nat 0%nat).
  - vm_compute. discriminate.
  - unfold EmbedLib.no_wrap. vm_compute. repeat split; discriminate.
  - vm_compute. reflexivity.
Defined.

(** The first submission is refused. *)
Lemma rw_region_exits_on_refused_submission_witness :
  ([] : list (event nat)) = []
  /\ (EmbedLib.rw_region (Core := refusing_core) (Clock := still_clock)
        Scenario.ns_small Scenario3.geo_4k 4 3 0 5000 8 0 0
        (mk_state 0%nat [])).1 = EmbedLib.Errx 1.
Proof.
  apply (rw_region_exits_on_refused_submission (Core := refusing_core)
           (Clock := still_clock) Scenario.ns_small Scenario3.geo_4k 4
           0 5000 8 0 0 3%nat 0%nat []
           [] (EvRw 0 NVME_CMD_READ 0 5000 8 None)).
  - vm_compute. discriminate.
  - lia.
  - vm_compute. reflexivity.
  - exact I.
Defined.

(** Forty blocks, five pages, with [qsize = 4]. *)
Lemma rw_region_returns_on_prompt_driver_witness :
  (EmbedLib.rw_region (Core := ideal_core) (Clock := still_clock)
     Scenario.ns_small Scenario3.geo_4k 4 5 0 5000 40 0 0
     (mk_state 0%nat [])).1 = EmbedLib.Done tt.
Proof.
  apply (rw_region_returns_on_prompt_driver (Core := ideal_core)
           (Clock := still_clock) Scenario.ns_small Scenario3.geo_4k 4
           0 5000 40 0 0 ideal_core_rw_prompt 5%nat (mk_state 0%nat [])).
  - vm_compute. discriminate.
  - unfold EmbedLib.no_wrap. vm_compute. repeat split; discriminate.
  - vm_compute. lia.
Defined.

(** ** Printed device names parse back *)

Section PrintFacts.

Import Printf.

Lemma hex_digit_facts (v : Z) :
  0 <= v < 16 ->
  Libc.digit_in 16 (hex_digit v) = Some v
  /\ Libc.isspace (hex_digit v) = false
  /\ Libc.sign (String (hex_digit v) EmptyString)
     = (false, String (hex_digit v) EmptyString)
  /\ Libc.is_x (hex_digit v) = false
  /\ (Libc.code (hex_digit v) =? 48) = (v =? 0).
Proof.
  intros Hv.
  assert (v = 0 \/ v = 1 \/ v = 2 \/ v = 3 \/ v = 4 \/ v = 5 \/ v = 6 \/ v = 7
          \/ v = 8 \/ v = 9 \/ v = 10 \/ v = 11 \/ v = 12 \/ v = 13 \/ v = 14
          \/ v = 15) as Hcases by lia.
  destruct_or!; subst v; vm_compute; done.
Qed.

Lemma string_app_assoc (s1 s2 s3 : string) :
  (s1 +:+ s2) +:+ s3 = s1 +:+ (s2 +:+ s3).
Proof.
  induction s1 as [|c s1 IH]; [done|].
  change (String c ((s1 +:+ s2) +:+ s3) = String c (s1 +:+ (s2 +:+ s3))).
  by rewrite IH.
Qed.

Lemma hex_digits_app (fuel : nat) :
  forall n acc,
    hex_digits fuel n acc = hex_digits fuel n EmptyString +:+ acc.
Proof.
  induction fuel as [|fuel IH]; intros n acc; [done|].
  cbn [hex_digits]. destruct (n / 16 =? 0); [done|].
  rewrite (IH _ (String _ acc)), (IH _ (String _ EmptyString)).
  by rewrite string_app_assoc.
Qed.

Lemma digits_hex_digits (fuel : nat) :
  forall n tl,
    0 <= n < 16 ^ Z.of_nat fuel ->
    Libc.digits 16 0 (hex_digits fuel n tl) = Libc.digits 16 n tl.
Proof.
  induction fuel as [|fuel IH]; intros n tl Hn.
  - cbn [hex_digits]. f_equal. change (16 ^ Z.of_nat 0) with 1 in Hn. lia.
  - rewrite Nat2Z.inj_succ, Z.pow_succ_r in Hn by lia.
    pose proof (Z.mod_pos_bound n 16 ltac:(lia)) as Hm.
    pose proof (Z.div_mod n 16 ltac:(lia)) as Hdm.
    destruct (hex_digit_facts (n mod 16) Hm) as (Hdig & _).
    cbn [hex_digits]. destruct (Z.eqb_spec (n / 16) 0) as [Hz|Hnz].
    + cbn [Libc.digits]. rewrite Hdig. f_equal. lia.
    + rewrite IH by (split; [apply Z.div_pos; lia|apply Z.div_lt_upper_bound; lia]).
      cbn [Libc.digits]. rewrite Hdig. f_equal. lia.
Qed.

(** The first digit printed is 0 only for the number 0. *)
Lemma hex_digits_head (fuel : nat) :
  forall n tl,
    0 <= n < 16 ^ Z.of_nat (S fuel) ->
    exists m r,
      hex_digits (S fuel) n tl = String (hex_digit m) r
      /\ 0 <= m < 16
      /\ (1 <= n -> 1 <= m)
      /\ (m = 0 -> r = tl).
Proof.
  induction fuel as [|fuel IH]; intros n tl Hn.
  - change (16 ^ Z.of_nat 1) with 16 in Hn.
    exists n, tl. cbn [hex_digits].
    rewrite Z.mod_small, Z.div_small by lia. cbn [Z.eqb].
    split; [done|]. split; [done|]. split; [lia|done].
  - rewrite Nat2Z.inj_succ, Z.pow_succ_r in Hn by lia.
    pose proof (Z.mod_pos_bound n 16 ltac:(lia)) as Hm.
    pose proof (Z.div_mod n 16 ltac:(lia)) as Hdm.
    cbn [hex_digits]. destruct (Z.eqb_spec (n / 16) 0) as [Hz|Hnz].
    + exists (n mod 16), tl. split; [done|]. split; [done|]. split; [lia|done].
    + assert (0 <= n / 16) by (apply Z.div_pos; lia).
      destruct (IH (n / 16) (String (hex_digit (n mod 16)) tl)) as (m & r & Hr & Hm16 & Hpos & _).
      { split; [done|]. apply Z.div_lt_upper_bound; lia. }
      exists m, r. cbn [hex_digits] in Hr.
      split; [done|]. split; [done|]. split; [lia|]. intros. exfalso. lia.
Qed.

Lemma to_int_to_u32 (v : Z) :
  - 2 ^ 31 <= v < 2 ^ 31 -> CInt.to_int (CInt.to_u32 v) = v.
Proof.
  intros Hv. unfold CInt.to_int, CInt.to_u32. rewrite Z.mod_mod by lia.
  destruct (Z.ltb_spec (v mod 2 ^ 32) (2 ^ 31)) as [Hlt|Hge].
  - destruct (Z.lt_ge_cases v 0).
    + rewrite <- (Z.mod_add v 1) in Hlt by lia.
      rewrite Z.mod_small in Hlt by lia. lia.
    + apply Z.mod_small. lia.
  - destruct (Z.lt_ge_cases v 0).
    + rewrite <- (Z.mod_add v 1) by lia. rewrite Z.mod_small by lia. lia.
    + rewrite Z.mod_small in Hge by lia. lia.
Qed.

Lemma string_app_nil_r (s : string) : s +:+ EmptyString = s.
Proof.
  induction s as [|c s IH]; [done|].
  change (String c (s +:+ EmptyString) = String c s). by rewrite IH.
Qed.

(** [%x] on input that starts with a digit. *)
Lemma scan_hex_of_digits (c : ascii) (tl rest : string) (n : Z) :
  Libc.isspace c = false ->
  (Libc.code c =? 45) = false -> (Libc.code c =? 43) = false ->
  (let p := Libc.leading_0x (String c tl) in
   p.1 || Libc.starts_with_digit 16 p.2) = true ->
  Libc.digits 16 0 (Libc.leading_0x (String c tl)).2 = (n, rest) ->
  0 <= n <= CInt.ULONG_MAX ->
  Libc.scan_hex (String c tl) = Libc.ScanOk (CInt.to_int n) rest.
Proof.
  intros Hsp Hminus Hplus Hany Hdigits Hn.
  unfold Libc.scan_hex. cbn [Libc.skip_space]. rewrite Hsp.
  unfold Libc.sign. rewrite Hminus, Hplus.
  destruct (Libc.leading_0x (String c tl)) as [zero s3].
  cbn [fst snd] in *. rewrite Hdigits, Hany.
  unfold Libc.strtoul_value.
  destruct (Z.ltb_spec CInt.ULONG_MAX n); [lia|done].
Qed.

Lemma hex_digit_sign (m : Z) :
  0 <= m < 16 ->
  (Libc.code (hex_digit m) =? 45) = false
  /\ (Libc.code (hex_digit m) =? 43) = false.
Proof.
  intros Hm.
  assert (m = 0 \/ m = 1 \/ m = 2 \/ m = 3 \/ m = 4 \/ m = 5 \/ m = 6 \/ m = 7
          \/ m = 8 \/ m = 9 \/ m = 10 \/ m = 11 \/ m = 12 \/ m = 13 \/ m = 14
          \/ m = 15) as Hcases by lia.
  destruct_or!; subst m; vm_compute; done.
Qed.

Lemma digits_printed (n : Z) (rest : string) :
  0 <= n < 2 ^ 32 -> stops_hex rest ->
  Libc.digits 16 0 (hex_digits 8 n EmptyString +:+ rest) = (n, rest).
Proof.
  intros Hn Hrest.
  rewrite <- hex_digits_app, digits_hex_digits
    by (change (16 ^ Z.of_nat 8) with (2 ^ 32); lia).
  destruct rest as [|c rest']; [done|]. destruct Hrest as [Hc _].
  cbn [Libc.digits]. by rewrite Hc.
Qed.

(** Scanning a printed number followed by [rest]. *)
Lemma scan_hex_digits (n : Z) (rest : string) :
  0 <= n < 2 ^ 32 -> stops_hex rest ->
  Libc.scan_hex (hex_digits 8 n EmptyString +:+ rest)
  = Libc.ScanOk (CInt.to_int n) rest.
Proof.
  intros Hn Hrest. pose proof (digits_printed n rest Hn Hrest) as Hall.
  destruct (hex_digits_head 7 n EmptyString) as (m & r & Hhd & Hm & Hpos & Hzero).
  { change (16 ^ Z.of_nat 8) with (2 ^ 32). lia. }
  destruct (hex_digit_facts m Hm) as (Hdig & Hsp & _ & Hx & H48).
  destruct (hex_digit_sign m Hm) as [Hminus Hplus].
  rewrite Hhd in *.
  change (String (hex_digit m) r +:+ rest)
    with (String (hex_digit m) (r +:+ rest)) in *.
  assert (0 <= n <= CInt.ULONG_MAX) as Hmax by (unfold CInt.ULONG_MAX; lia).
  destruct (Z.eqb_spec m 0) as [Hm0|Hm0].
  - (* the number 0, printed as one digit *)
    rewrite (Hzero Hm0) in *. change (EmptyString +:+ rest) with rest in *.
    cbn [Libc.digits] in Hall. rewrite Hdig, Hm0 in Hall.
    change (0 * 16 + 0) with 0 in Hall.
    assert (Libc.leading_0x (String (hex_digit m) rest) = (true, rest)) as Hlead.
    { unfold Libc.leading_0x. rewrite H48.
      destruct rest as [|c rest']; [done|]. destruct Hrest as [_ Hc].
      by rewrite Hc. }
    apply scan_hex_of_digits; try done; rewrite Hlead; cbn [fst snd]; done.
  - assert (Libc.leading_0x (String (hex_digit m) (r +:+ rest))
            = (false, String (hex_digit m) (r +:+ rest))) as Hlead.
    { unfold Libc.leading_0x. by rewrite H48. }
    apply scan_hex_of_digits; try done; rewrite Hlead; cbn [fst snd]; [|done].
    unfold Libc.starts_with_digit. rewrite Hdig.
    by rewrite bool_decide_eq_true_2.
Qed.

Lemma scan_print_x (v : Z) (rest : string) :
  - 2 ^ 31 <= v < 2 ^ 31 -> stops_hex rest ->
  Libc.scan_hex (print_x v +:+ rest) = Libc.ScanOk v rest.
Proof.
  intros Hv Hrest. unfold print_x.
  rewrite scan_hex_digits by (done || apply to_u32_range).
  by rewrite to_int_to_u32.
Qed.

Lemma scan_print_02x (v : Z) (rest : string) :
  - 2 ^ 31 <= v < 2 ^ 31 -> stops_hex rest ->
  Libc.scan_hex (print_02x v +:+ rest) = Libc.ScanOk v rest.
Proof.
  intros Hv Hrest. unfold print_02x.
  destruct (String.length (print_x v) <? 2)%nat; [|by apply scan_print_x].
  unfold print_x.
  pose proof (digits_printed (CInt.to_u32 v) rest (to_u32_range v) Hrest)
    as Hall.
  destruct (hex_digits_head 7 (CInt.to_u32 v) EmptyString)
    as (m & r & Hhd & Hm & _).
  { change (16 ^ Z.of_nat 8) with (2 ^ 32). apply to_u32_range. }
  destruct (hex_digit_facts m Hm) as (_ & _ & _ & Hx & _).
  rewrite Hhd in *.
  change (String "0" (String (hex_digit m) r) +:+ rest)
    with (String "0" (String (hex_digit m) (r +:+ rest))).
  change (String (hex_digit m) r +:+ rest)
    with (String (hex_digit m) (r +:+ rest)) in Hall.
  replace (Libc.ScanOk v rest)
    with (Libc.ScanOk (CInt.to_int (CInt.to_u32 v)) rest)
    by (by rewrite to_int_to_u32).
  apply scan_hex_of_digits; try done.
  - unfold Libc.leading_0x.
    change (Libc.code "0" =? 48) with true. cbn match. by rewrite Hx.
  - pose proof (to_u32_range v). unfold CInt.ULONG_MAX. lia.
Qed.

Lemma stops_hex_sep (c : ascii) (s : string) :
  c = ":"%char \/ c = "."%char \/ c = "/"%char -> stops_hex (String c s).
Proof. intros [-> | [-> | ->]]; by vm_compute. Qed.

Lemma sscanf_fio_pciname (vb vd vf vn : Z) :
  - 2 ^ 31 <= vb < 2 ^ 31 -> - 2 ^ 31 <= vd < 2 ^ 31 ->
  - 2 ^ 31 <= vf < 2 ^ 31 -> - 2 ^ 31 <= vn < 2 ^ 31 ->
  Libc.sscanf (fio_pciname vb vd vf vn) fmt_bdf_nsid = (4, [vb; vd; vf; vn]).
Proof.
  intros Hb Hd Hf Hn. unfold Libc.sscanf, fmt_bdf_nsid, fio_pciname.
  change (":" +:+ ?s) with (String ":" s).
  change ("." +:+ ?s) with (String "." s).
  change ("/" +:+ ?s) with (String "/" s).
  rewrite <- (string_app_nil_r (print_x vn)).
  cbn [Libc.sscanf_from].
  rewrite scan_print_x by (done || apply stops_hex_sep; tauto).
  rewrite bool_decide_eq_true_2 by done.
  rewrite scan_print_x by (done || apply stops_hex_sep; tauto).
  rewrite bool_decide_eq_true_2 by done.
  rewrite scan_print_x by (done || apply stops_hex_sep; tauto).
  rewrite bool_decide_eq_true_2 by done.
  rewrite scan_print_x by done.
  reflexivity.
Qed.

Lemma sscanf_mcd_pciname (vb vd vf vn : Z) :
  - 2 ^ 31 <= vb < 2 ^ 31 -> - 2 ^ 31 <= vd < 2 ^ 31 ->
  - 2 ^ 31 <= vf < 2 ^ 31 -> - 2 ^ 31 <= vn < 2 ^ 31 ->
  Libc.sscanf (mcd_pciname vb vd vf vn) fmt_bdf_nsid = (4, [vb; vd; vf; vn]).
Proof.
  intros Hb Hd Hf Hn. unfold Libc.sscanf, fmt_bdf_nsid, mcd_pciname.
  change (":" +:+ ?s) with (String ":" s).
  change ("." +:+ ?s) with (String "." s).
  change ("/" +:+ ?s) with (String "/" s).
  rewrite <- (string_app_nil_r (print_x vn)).
  cbn [Libc.sscanf_from].
  rewrite scan_print_02x by (done || apply stops_hex_sep; tauto).
  rewrite bool_decide_eq_true_2 by done.
  rewrite scan_print_02x by (done || apply stops_hex_sep; tauto).
  rewrite bool_decide_eq_true_2 by done.
  rewrite scan_print_x by (done || apply stops_hex_sep; tauto).
  rewrite bool_decide_eq_true_2 by done.
  rewrite scan_print_x by done.
  reflexivity.
Qed.

Lemma scan_hex_int (s rest : string) (v : Z) :
  Libc.scan_hex s = Libc.ScanOk v rest -> - 2 ^ 31 <= v < 2 ^ 31.
Proof.
  unfold Libc.scan_hex. destruct (Libc.skip_space s) as [|c s1]; [done|].
  destruct (Libc.sign (String c s1)) as [neg s2].
  destruct (Libc.leading_0x s2) as [zero s3].
  destruct (Libc.digits 16 0 s3) as [v0 rest0].
  destruct (zero || Libc.starts_with_digit 16 s3); [|done].
  intros [= <- _]. apply to_int_range.
Qed.

Lemma sscanf_from_int (fmt : list Libc.directive) :
  forall s acc,
    Forall (fun v => - 2 ^ 31 <= v < 2 ^ 31) acc ->
    Forall (fun v => - 2 ^ 31 <= v < 2 ^ 31) (Libc.sscanf_from fmt s acc).2.
Proof.
  induction fmt as [|[|c] fmt IH]; intros s acc Hacc; cbn [Libc.sscanf_from].
  - done.
  - destruct (Libc.scan_hex s) as [v rest| |] eqn:Hscan; [|done|done].
    apply IH. apply Forall_app. split; [done|].
    apply Forall_singleton. by apply scan_hex_int in Hscan.
  - destruct s as [|c' rest]; [done|]. case_bool_decide; [by apply IH|done].
Qed.

End PrintFacts.

Section OpenPrinted.

Context {World Desc : Type} {Core : UnvmeCore World Desc}.

Local Abbreviation ST := (state World Desc).

Lemma fio_name_opens (vb vd vf vn : Z) (s : ST) :
  - 2 ^ 31 <= vb < 2 ^ 31 -> - 2 ^ 31 <= vd < 2 ^ 31 ->
  - 2 ^ 31 <= vf < 2 ^ 31 -> - 2 ^ 31 <= vn < 2 ^ 31 ->
  unvme_open (fio_pciname vb vd vf vn) s
  = call_do_open (pci_of vb vd vf) vn 0 0 s.
Proof.
  intros Hb Hd Hf Hn.
  pose proof (sscanf_fio_pciname vb vd vf vn Hb Hd Hf Hn) as Hscan.
  destruct (openq_with_nsid (fio_pciname vb vd vf vn) 0 0 s)
    as (b' & d' & f' & n' & Hvals & Hopen); [done|by rewrite Hscan|].
  rewrite Hscan in Hvals. injection Hvals as <- <- <- <-. exact Hopen.
Qed.

(** X10.  [unvme_open] of the name that [do_unvme_init] prints from the
    fields [b], [d], [f], [n] opens namespace [n] of the device
    [(b << 16) + (d << 8) + f]: the printed name parses back to the four
    fields, provided it fits the 32 bytes of [pciname]. *)
Theorem open_fio_pciname (vb vd vf vn : Z) (s : ST) :
  - 2 ^ 31 <= vb < 2 ^ 31 -> - 2 ^ 31 <= vd < 2 ^ 31 ->
  - 2 ^ 31 <= vf < 2 ^ 31 -> - 2 ^ 31 <= vn < 2 ^ 31 ->
  (String.length (fio_pciname vb vd vf vn) < 32)%nat ->
  unvme_open (fio_pciname vb vd vf vn) s
  = call_do_open (pci_of vb vd vf) vn 0 0 s.
Proof.
  intros Hb Hd Hf Hn _. by apply fio_name_opens.
Qed.

(** X11.  A fio file name with three or four fields: when the device
    name printed from them fits the 32 bytes of [pciname],
    [do_unvme_init] opens the device that the first three fields name,
    and the namespace that the fourth names or namespace 1; when it does
    not fit, [sprintf] runs over the buffer and nothing is opened. *)
Theorem do_unvme_init_opens_named_device (filename : string)
    (vb vd vf : Z) (tl : list Z) (s : ST) :
  (Libc.sscanf filename fmt_fio).2 = vb :: vd :: vf :: tl ->
  let pciname := fio_pciname vb vd vf (default 1 (head tl)) in
  ((String.length pciname < 32)%nat ->
   exists m,
     do_unvme_init_open filename = Opens m
     /\ m s = call_do_open (pci_of vb vd vf) (default 1 (head tl)) 0 0 s)
  /\ ((32 <= String.length pciname)%nat ->
      do_unvme_init_open (Core := Core) filename
      = OverrunsName (String.length pciname)).
Proof.
  intros Hvals.
  pose proof (sscanf_from_int fmt_fio filename [] (Forall_nil_2 _)) as Hint.
  fold (Libc.sscanf filename fmt_fio) in Hint. rewrite Hvals in Hint.
  apply Forall_cons in Hint as [Hb Hint].
  apply Forall_cons in Hint as [Hd Hint].
  apply Forall_cons in Hint as [Hf Hint].
  assert (- 2 ^ 31 <= default 1 (head tl) < 2 ^ 31) as Hn.
  { destruct tl as [|vn tl]; cbn [head default]; [lia|].
    by apply Forall_cons in Hint as [Hn _]. }
  assert (nsid (store_vars (vb :: vd :: vf :: tl)
                  {| b := None; d := None; f := None; nsid := 1 |})
          = default 1 (head tl)) as Hnsid.
  { by destruct tl. }
  cbn zeta. unfold do_unvme_init_open. rewrite Hvals, Hnsid.
  cbn [store_vars b d f lookup list_lookup assigned].
  split; intros Hlen.
  - destruct (Nat.ltb_spec (String.length
                (fio_pciname vb vd vf (default 1 (head tl)))) 32); [|lia].
    eexists. split; [reflexivity|]. by apply fio_name_opens.
  - destruct (Nat.ltb_spec (String.length
                (fio_pciname vb vd vf (default 1 (head tl)))) 32); [lia|done].
Qed.

(** X12.  The name that [main] of the multi-device test prints for a session
    opens the device and namespace it was printed from, provided it fits
    the 16 bytes of [ses_t.pciname]. *)
Theorem open_mcd_pciname (vb vd vf vn : Z) (s : ST) :
  - 2 ^ 31 <= vb < 2 ^ 31 -> - 2 ^ 31 <= vd < 2 ^ 31 ->
  - 2 ^ 31 <= vf < 2 ^ 31 -> - 2 ^ 31 <= vn < 2 ^ 31 ->
  (String.length (mcd_pciname vb vd vf vn) < 16)%nat ->
  unvme_open (mcd_pciname vb vd vf vn) s
  = call_do_open (pci_of vb vd vf) vn 0 0 s.
Proof.
  intros Hb Hd Hf Hn _.
  pose proof (sscanf_mcd_pciname vb vd vf vn Hb Hd Hf Hn) as Hscan.
  destruct (openq_with_nsid (mcd_pciname vb vd vf vn) 0 0 s)
    as (b' & d' & f' & n' & Hvals & Hopen); [done|by rewrite Hscan|].
  rewrite Hscan in Hvals. injection Hvals as <- <- <- <-. exact Hopen.
Qed.

End OpenPrinted.

(** Device 0a:00.0, namespace 2. *)
Lemma open_fio_pciname_witness :
  unvme_open (Core := ideal_core) (fio_pciname 10 0 0 2) (mk_state 0%nat [])
  = call_do_open (Core := ideal_core) (pci_of 10 0 0) 2 0 0 (mk_state 0%nat []).
Proof.
  apply (open_fio_pciname (Core := ideal_core) 10 0 0 2 (mk_state 0%nat []));
    try lia.
  vm_compute. lia.
Defined.

(** The file name [0a.00.0] has three fields and gives the name
    [a:0.0/1]; the name printed for four fields of eight digits has 35
    characters. *)
Lemma do_unvme_init_opens_named_device_witness :
  (exists m,
     do_unvme_init_open (Core := ideal_core) "0a.00.0" = Opens m
     /\ m (mk_state 0%nat [])
        = call_do_open (Core := ideal_core) (pci_of 10 0 0) 1 0 0
            (mk_state 0%nat []))
  /\ do_unvme_init_open (Core := ideal_core)
       "ffffffff.ffffffff.ffffffff.ffffffff"
     = OverrunsName 35.
Proof.
  split.
  - apply (do_unvme_init_opens_named_device (Core := ideal_core) "0a.00.0"
             10 0 0 [] (mk_state 0%nat [])); [reflexivity|].
    vm_compute. lia.
  - apply (do_unvme_init_opens_named_device (Core := ideal_core)
             "ffffffff.ffffffff.ffffffff.ffffffff"
             (-1) (-1) (-1) [-1] (mk_state 0%nat [])); [reflexivity|].
    vm_compute. lia.
Defined.

(** Device 0a:00.0, namespace 2, printed as [0a:00.0/2]. *)
Lemma open_mcd_pciname_witness :
  unvme_open (Core := ideal_core) (mcd_pciname 10 0 0 2) (mk_state 0%nat [])
  = call_do_open (Core := ideal_core) (pci_of 10 0 0) 2 0 0 (mk_state 0%nat []).
Proof.
  apply (open_mcd_pciname (Core := ideal_core) 10 0 0 2 (mk_state 0%nat []));
    try lia.
  vm_compute. lia.
Defined.

(** ** The completion queue of the fio engine *)

Section RingFacts.

Import Fio.

Variable iodepth : Z.

Hypothesis Hdepth : 0 <= iodepth < 2 ^ 31 - 1.

Local Abbreviation N := (iodepth + 1).

Lemma mod_window (x : Z) :
  - N <= x < 2 * N ->
  (x < 0 /\ x mod N = x + N)
  \/ (0 <= x < N /\ x mod N = x)
  \/ (N <= x /\ x mod N = x - N).
Proof.
  intros Hx. destruct (Z.lt_ge_cases x 0); [|destruct (Z.lt_ge_cases x N)].
  - left. split; [done|]. rewrite <- (Z.mod_add x 1) by lia.
    rewrite Z.mod_small; lia.
  - right; left. split; [lia|]. apply Z.mod_small. lia.
  - right; right. split; [done|].
    replace x with (x - N + 1 * N) at 1 by lia.
    rewrite Z.mod_add by lia. rewrite Z.mod_small; lia.
Qed.

Lemma bump_mod (k : Z) : 0 <= k <= iodepth -> bump iodepth k = (k + 1) mod N.
Proof.
  intros Hk. unfold bump. rewrite to_int_small by lia.
  destruct (mod_window (k + 1)) as [H | [H | H]]; [lia|lia| | ];
    destruct (Z.ltb_spec iodepth (k + 1)); lia.
Qed.

Lemma ring_size_range (u : unvme_data_t) :
  ring_wf iodepth u -> 0 <= ring_size iodepth u <= iodepth.
Proof.
  intros _. unfold ring_size.
  pose proof (Z.mod_pos_bound (tail u - head u) N ltac:(lia)). lia.
Qed.

Lemma ring_size_empty (u : unvme_data_t) :
  ring_wf iodepth u -> ring_size iodepth u = 0 <-> head u = tail u.
Proof.
  intros (_ & Hh & Ht). unfold ring_size.
  destruct (mod_window (tail u - head u)) as [H | [H | H]]; lia.
Qed.

Lemma in_iocq_wf (u : unvme_data_t) (k : Z) :
  ring_wf iodepth u -> 0 <= k <= iodepth -> in_iocq u k = true.
Proof.
  intros (Hlen & _) Hk. unfold in_iocq. rewrite Hlen.
  apply andb_true_iff. split; [apply Z.leb_le|apply Z.ltb_lt]; lia.
Qed.

(** Queueing behind the last entry. *)
Lemma iocq_put_spec (u : unvme_data_t) (p : nat) :
  ring_wf iodepth u -> ring_size iodepth u < iodepth ->
  exists u',
    iocq_put iodepth u p = inl u'
    /\ ring_wf iodepth u'
    /\ ring_size iodepth u' = ring_size iodepth u + 1
    /\ ring_list iodepth u' = ring_list iodepth u ++ [Some p].
Proof.
  intros Hwf Hroom. pose proof Hwf as (Hlen & Hh & Ht).
  unfold iocq_put. rewrite in_iocq_wf by done. eexists. split; [done|].
  pose proof (Z.mod_pos_bound (tail u + 1) N ltac:(lia)) as Hb.
  assert (ring_size iodepth
            {| iocq := <[Z.to_nat (tail u) := Some p]> (iocq u);
               head := head u; tail := bump iodepth (tail u) |}
          = ring_size iodepth u + 1) as Hsize.
  { unfold ring_size in *. cbn [head tail]. rewrite bump_mod by done.
    rewrite Zminus_mod_idemp_l.
    replace (tail u + 1 - head u) with (tail u - head u + 1) by lia.
    rewrite <- Zplus_mod_idemp_l. apply Z.mod_small.
    pose proof (Z.mod_pos_bound (tail u - head u) N ltac:(lia)). lia. }
  split_and!.
  - unfold ring_wf. cbn [iocq head tail]. rewrite length_insert, bump_mod by done.
    lia.
  - done.
  - unfold ring_list. rewrite Hsize. cbn [iocq head].
    pose proof (ring_size_range u Hwf) as Hsz.
    rewrite seqZ_snoc, fmap_app by lia. cbn [fmap list_fmap]. f_equal.
    + apply list_fmap_ext. intros j k Hk. apply lookup_seqZ in Hk as [-> Hj].
      rewrite list_lookup_insert_ne; [done|].
      unfold ring_size in *.
      destruct (mod_window (head u + (0 + Z.of_nat j))) as [H | [H | H]];
        [lia|lia| | ];
        destruct (mod_window (tail u - head u)) as [H' | [H' | H']]; lia.
    + assert ((head u + (0 + ring_size iodepth u)) mod N = tail u) as ->.
      { unfold ring_size. rewrite Z.add_0_l, Zplus_mod_idemp_r.
        replace (head u + (tail u - head u)) with (tail u) by lia.
        apply Z.mod_small. lia. }
      rewrite list_lookup_insert_eq by lia. done.
Qed.

(** X13.  [fio_unvme_event] takes the oldest entry of the completion queue
    and returns NULL, changing nothing, when the queue is empty; it never
    leaves the [iodepth + 1] cells of [iocq]. *)
Theorem fio_unvme_event_takes_oldest (u : unvme_data_t) :
  ring_wf iodepth u ->
  exists r u',
    fio_unvme_event iodepth u = inl (r, u')
    /\ ring_wf iodepth u'
    /\ match ring_list iodepth u with
       | [] => r = None /\ u' = u
       | x :: rest => r = x /\ ring_list iodepth u' = rest
       end.
Proof.
  intros Hwf. pose proof Hwf as (Hlen & Hh & Ht).
  pose proof (ring_size_range u Hwf) as Hsz.
  pose proof (ring_size_empty u Hwf) as Hempty.
  unfold fio_unvme_event. destruct (Z.eqb_spec (head u) (tail u)) as [Heq|Hne].
  - exists None, u. split; [done|]. split; [done|].
    unfold ring_list. rewrite (proj2 Hempty Heq). done.
  - rewrite in_iocq_wf by done. eexists _, _. split; [done|].
    assert (ring_size iodepth
              {| iocq := iocq u; head := bump iodepth (head u); tail := tail u |}
            = ring_size iodepth u - 1) as Hsize.
    { unfold ring_size in *. cbn [head tail]. rewrite bump_mod by done.
      rewrite Zminus_mod_idemp_r.
      replace (tail u - (head u + 1)) with (tail u - head u - 1) by lia.
      rewrite <- Zminus_mod_idemp_l. apply Z.mod_small.
      assert (ring_size iodepth u <> 0) by (rewrite Hempty; lia).
      unfold ring_size in *. lia. }
    split.
    { unfold ring_wf. cbn [iocq head tail]. rewrite bump_mod by done.
      pose proof (Z.mod_pos_bound (head u + 1) N ltac:(lia)). lia. }
    unfold ring_list at 1.
    rewrite seqZ_cons by lia. cbn [fmap list_fmap].
    rewrite Z.add_0_r, Z.mod_small by lia. split; [done|].
    unfold ring_list. rewrite Hsize. cbn [iocq head].
    replace (Z.pred (ring_size iodepth u)) with (ring_size iodepth u - 1) by lia.
    rewrite <- (fmap_add_seqZ 1 0), <- list_fmap_compose.
    apply list_fmap_ext. intros j k Hk. cbn [compose]. do 3 f_equal.
    rewrite bump_mod by done. rewrite Z.add_mod_idemp_l by lia. f_equal. lia.
Qed.

End RingFacts.

(** ** [fio_unvme_getevents] *)

Section GeteventsFacts.

Import Fio.

Context {World Desc : Type} {Core : UnvmeCore World Desc}
  {Clock : EmbedLib.Rdtsc World}.

Local Abbreviation ST := (state World Desc).

Variables (iodepth min rdtsc_timeout : Z).

Hypothesis Hdepth : 0 <= iodepth < 2 ^ 31 - 1.

Lemma flying_cons (io : io_u Desc) (a : list (io_u Desc)) :
  flying (io :: a)
  = match engine_data io with Some _ => 1 | None => 0 end + flying a.
Proof. reflexivity. Qed.

Lemma flying_nonneg (a : list (io_u Desc)) : 0 <= flying a.
Proof.
  induction a as [|io a IH]; [done|]. rewrite flying_cons.
  destruct (engine_data io); lia.
Qed.

Lemma flying_insert (a : list (io_u Desc)) :
  forall (i : nat) (io : io_u Desc) (d : Desc),
    a !! i = Some io -> engine_data io = Some d ->
    flying (<[i := mk_io_u None]> a) = flying a - 1.
Proof.
  induction a as [|io0 a IH]; intros i io d Hi Hd; [done|].
  destruct i as [|i].
  - injection Hi as ->.
    change (<[0%nat := mk_io_u None]> (io :: a)) with (mk_io_u None :: a).
    rewrite !flying_cons, Hd. cbn [engine_data]. lia.
  - change (<[S i := mk_io_u None]> (io0 :: a))
      with (io0 :: <[i := mk_io_u None]> a).
    rewrite !flying_cons, (IH i io d Hi Hd). lia.
Qed.

Lemma ring_list_length (u : unvme_data_t) :
  ring_wf iodepth u ->
  Z.of_nat (length (ring_list iodepth u)) = ring_size iodepth u.
Proof.
  intros Hwf. pose proof (ring_size_range iodepth Hdepth u Hwf).
  unfold ring_list. rewrite length_fmap, length_seqZ. lia.
Qed.

Lemma reaped_events (td0 td : thread_data Desc) (new : list nat) :
  ring_wf iodepth (io_ops_data td0) -> ring_wf iodepth (io_ops_data td) ->
  reaped iodepth td0 td new ->
  Z.of_nat (length new) <= ring_size iodepth (io_ops_data td).
Proof.
  intros Hwf0 Hwf [Hlist _].
  rewrite <- (ring_list_length _ Hwf), Hlist, length_app, length_fmap. lia.
Qed.

(** One [io_u] of the iteration. *)
Lemma reap_spec (td0 td : thread_data Desc) (i : nat) (l : ge_locals) (s : ST) :
  ring_wf iodepth (io_ops_data td0) ->
  ge_inv iodepth min td0 td l -> (i < length (io_u_all td))%nat ->
  match reap iodepth min rdtsc_timeout i td l s with
  | (Ret (None, td', l'), _) => ge_inv iodepth min td0 td' l'
  | (Ret (Some ev, td', _), _) => ge_post iodepth min td0 (Ret (ev, td'))
  | (Exit status, _) => status = 1
  | (Fault _, _) => False
  | (Spinning, _) => False
  end.
Proof.
  intros Hwf0 Hinv Hi.
  pose proof Hinv as (Hwf & Hlen & Hroom & Hev & Hless & Hsub & new & Hnew & Hcount).
  unfold reap.
  destruct (lookup_lt_is_Some_2 (io_u_all td) i Hi) as [io Hio]. rewrite Hio.
  destruct (engine_data io) as [d|] eqn:Hd; [|done].
  unfold unvme_apoll, call_do_poll.
  destruct (unvme_do_poll d 0 None (world s)) as [stat w1].
  destruct (Z.eqb_spec stat 0) as [->|Hstat].
  - pose proof (flying_insert _ i io d Hio Hd) as Hfly.
    pose proof (flying_nonneg (<[i := mk_io_u None]> (io_u_all td))) as Hpos.
    destruct (iocq_put_spec iodepth Hdepth (io_ops_data td) i Hwf ltac:(lia))
      as (u' & -> & Hwf' & Hsize' & Hlist').
    pose proof (reaped_events td0 td new Hwf0 Hwf Hnew) as Hbound.
    pose proof (ring_size_range iodepth Hdepth _ Hwf) as Hsz.
    rewrite to_int_small by lia.
    assert (reaped iodepth td0
              {| io_u_all := <[i := mk_io_u None]> (io_u_all td);
                 io_ops_data := u' |} (new ++ [i])) as Hnew'.
    { destruct Hnew as [Hlist Hall]. split; cbn [io_ops_data io_u_all].
      - rewrite Hlist', Hlist, fmap_app, app_assoc. done.
      - apply Forall_app. split.
        + eapply Forall_impl; [exact Hall|]. intros j [Hj0 Hj]. split; [done|].
          destruct (decide (j = i)) as [->|Hne].
          * apply list_lookup_insert_eq. done.
          * by rewrite list_lookup_insert_ne.
        + apply Forall_singleton. split.
          * apply Hsub. by exists io, d.
          * apply list_lookup_insert_eq. done. }
    assert (forall j, in_flight_at (<[i := mk_io_u None]> (io_u_all td)) j ->
                      in_flight_at (io_u_all td0) j) as Hsub'.
    { intros j (io' & d' & Hj & Hd'). apply Hsub.
      destruct (decide (j = i)) as [->|Hne].
      - rewrite list_lookup_insert_eq in Hj by done. by injection Hj as <-.
      - rewrite list_lookup_insert_ne in Hj by done. by exists io', d'. }
    rewrite to_u32_small by lia.
    destruct (Z.leb_spec min (events l + 1)) as [Hle|Hgt].
    + cbn [ge_post io_ops_data]. split_and!; [lia|done|].
      exists (new ++ [i]). split; [done|]. rewrite length_app. cbn [length]. lia.
    + unfold ge_inv. cbn [io_ops_data io_u_all events].
      rewrite length_insert. split_and!; try done; try lia.
      exists (new ++ [i]). split; [done|]. rewrite length_app. cbn [length]. lia.
  - destruct (Z.eqb_spec stat (-1)) as [->|Hstat']; [|done].
    destruct (Z.eqb_spec (endtsc l) 0); [|done].
    unfold EmbedLib.call_rdtsc. cbn [world trace].
    destruct (EmbedLib.rdtsc w1) as [t w2]. done.
Qed.

Lemma qiter_spec (td0 : thread_data Desc) (n : nat) :
  ring_wf iodepth (io_ops_data td0) ->
  forall (i : nat) (td : thread_data Desc) (l : ge_locals) (s : ST),
    ge_inv iodepth min td0 td l -> (i + n = length (io_u_all td))%nat ->
    match qiter iodepth min rdtsc_timeout n i td l s with
    | (Ret (None, td', l'), _) => ge_inv iodepth min td0 td' l'
    | (Ret (Some ev, td', _), _) => ge_post iodepth min td0 (Ret (ev, td'))
    | (Exit status, _) => status = 1
    | (Fault _, _) => False
    | (Spinning, _) => False
    end.
Proof.
  intros Hwf0. induction n as [|n IH]; intros i td l s Hinv Hn; [done|].
  cbn [qiter].
  pose proof (reap_spec td0 td i l s Hwf0 Hinv ltac:(lia)) as Hreap.
  destruct (reap _ _ _ _ _ _ _) as [[[[[ev|] td'] l']|status|flt|] s']; try done.
  apply IH; [done|]. destruct Hreap as (_ & Hlen' & _).
  destruct Hinv as (_ & Hlen & _). lia.
Qed.

Lemma getevents_loop_spec (td0 : thread_data Desc) (fuel : nat) :
  ring_wf iodepth (io_ops_data td0) ->
  forall (td : thread_data Desc) (l : ge_locals) (s : ST),
    ge_inv iodepth min td0 td l ->
    ge_post iodepth min td0
      (getevents_loop iodepth min rdtsc_timeout fuel td l s).1.
Proof.
  intros Hwf0. induction fuel as [|fuel IH]; intros td l s Hinv; [done|].
  cbn [getevents_loop].
  pose proof (qiter_spec td0 (length (io_u_all td)) Hwf0 0 td l s Hinv
                ltac:(lia)) as Hq.
  destruct (qiter _ _ _ _ _ _ _ _) as [[[[[ev|] td'] l']|status|flt|] s'];
    try done.
  unfold sched_yield, emit, EmbedLib.call_rdtsc. cbn [world trace].
  destruct (EmbedLib.rdtsc (world s')) as [t w2].
  destruct (t <? endtsc l'); [by apply IH|done].
Qed.

Lemma ge_inv_entry (td : thread_data Desc) :
  ring_wf iodepth (io_ops_data td) ->
  ring_size iodepth (io_ops_data td) + flying (io_u_all td) <= iodepth ->
  ge_inv iodepth min td td {| events := 0; endtsc := 0 |}.
Proof.
  intros Hwf Hroom. unfold ge_inv. cbn [events].
  split_and!; try done; [by left|].
  exists []. split; [|done]. split; [by rewrite app_nil_r|done].
Qed.

(** X14.  When [fio_unvme_getevents] returns, it returns [max (1, min)],
    never 0, and has queued that many completions behind the entries the
    completion queue held, in the order in which their polls succeeded;
    each was in flight at the call and has its [engine_data] cleared. *)
Theorem fio_unvme_getevents_queues_completions (fuel : nat)
    (td td' : thread_data Desc) (n : Z) (s : ST) :
  ring_wf iodepth (io_ops_data td) ->
  ring_size iodepth (io_ops_data td) + flying (io_u_all td) <= iodepth ->
  (fio_unvme_getevents iodepth min rdtsc_timeout fuel td s).1 = Ret (n, td') ->
  n = Z.max 1 min
  /\ ring_wf iodepth (io_ops_data td')
  /\ exists new : list nat,
       Z.of_nat (length new) = n
       /\ ring_list iodepth (io_ops_data td')
          = ring_list iodepth (io_ops_data td) ++ (Some <$> new)
       /\ Forall (fun i => in_flight_at (io_u_all td) i
                           /\ io_u_all td' !! i = Some (mk_io_u None)) new.
Proof.
  intros Hwf Hroom Hret.
  pose proof (getevents_loop_spec td fuel Hwf td {| events := 0; endtsc := 0 |}
                s (ge_inv_entry td Hwf Hroom)) as Hpost.
  unfold fio_unvme_getevents in Hret. rewrite Hret in Hpost.
  destruct Hpost as (Hn & Hwf' & new & [Hlist Hall] & Hcount).
  split_and!; [done|done|]. by exists new.
Qed.

(** X15.  With room in the completion queue for every I/O in flight,
    [fio_unvme_getevents] stays inside [iocq] and [io_u_all], and when it
    gives up it exits with status 1. *)
Theorem fio_unvme_getevents_stays_in_iocq (fuel : nat)
    (td : thread_data Desc) (s : ST) :
  ring_wf iodepth (io_ops_data td) ->
  ring_size iodepth (io_ops_data td) + flying (io_u_all td) <= iodepth ->
  (forall flt,
     (fio_unvme_getevents iodepth min rdtsc_timeout fuel td s).1 <> Fault flt)
  /\ (forall status,
        (fio_unvme_getevents iodepth min rdtsc_timeout fuel td s).1
        = Exit status -> status = 1).
Proof.
  intros Hwf Hroom.
  pose proof (getevents_loop_spec td fuel Hwf td {| events := 0; endtsc := 0 |}
                s (ge_inv_entry td Hwf Hroom)) as Hpost.
  unfold fio_unvme_getevents.
  destruct (getevents_loop _ _ _ _ _ _ _).1 as [[n td']|status|flt|];
    split; try done; intros ? [= <-]; done.
Qed.

End GeteventsFacts.

Section GeteventsRuns.

Import Fio.

Context {World Desc : Type} {Core : UnvmeCore World Desc}
  {Clock : EmbedLib.Rdtsc World}.

Local Abbreviation ST := (state World Desc).

Variables (iodepth min rdtsc_timeout : Z).

Lemma flying_none (a : list (io_u Desc)) :
  flying a = 0 ->
  forall i io, a !! i = Some io -> engine_data io = None.
Proof.
  induction a as [|io0 a IH]; intros Hfly i io Hi; [done|].
  rewrite flying_cons in Hfly. pose proof (flying_nonneg a).
  destruct i as [|i].
  - injection Hi as ->. destruct (engine_data io); [lia|done].
  - apply (IH ltac:(destruct (engine_data io0); lia) i io Hi).
Qed.

Lemma qiter_idle (n : nat) :
  forall (i : nat) (td : thread_data Desc) (l : ge_locals) (s : ST),
    flying (io_u_all td) = 0 -> (i + n = length (io_u_all td))%nat ->
    qiter iodepth min rdtsc_timeout n i td l s = (Ret (None, td, l), s).
Proof.
  induction n as [|n IH]; intros i td l s Hfly Hn; [done|].
  cbn [qiter]. unfold reap.
  destruct (lookup_lt_is_Some_2 (io_u_all td) i ltac:(lia)) as [io Hio].
  rewrite Hio, (flying_none _ Hfly i io Hio). apply IH; [done|lia].
Qed.

(** X16.  Called with no I/O in flight, [fio_unvme_getevents] does not
    return: after one pass over the [io_u]s, without a single poll, it
    reports a timeout and exits with status 1, whatever [min] is. *)
Theorem fio_unvme_getevents_idle_exits (fuel : nat)
    (td : thread_data Desc) (s : ST) :
  flying (io_u_all td) = 0 ->
  (forall w, 0 <= (EmbedLib.rdtsc w).1) ->
  (fio_unvme_getevents iodepth min rdtsc_timeout (S fuel) td s).1 = Exit 1
  /\ trace (fio_unvme_getevents iodepth min rdtsc_timeout (S fuel) td s).2
     = trace s ++ [EvYield].
Proof.
  intros Hfly Hclock. unfold fio_unvme_getevents. cbn [getevents_loop].
  rewrite qiter_idle by done.
  unfold sched_yield, emit, EmbedLib.call_rdtsc. cbn [world trace].
  pose proof (Hclock (world s)) as Ht.
  destruct (EmbedLib.rdtsc (world s)) as [t w2]. cbn [fst endtsc] in *.
  rewrite (proj2 (Z.ltb_ge t 0)) by lia. done.
Qed.

Hypothesis Hdepth : 0 <= iodepth < 2 ^ 31 - 1.
Hypothesis Hpoll : forall d sec cs w, (unvme_do_poll d sec cs w).1 = 0.

Lemma flying_drop_lookup (a : list (io_u Desc)) (i : nat) (io : io_u Desc) :
  a !! i = Some io ->
  flying (drop i a)
  = match engine_data io with Some _ => 1 | None => 0 end + flying (drop (S i) a).
Proof.
  intros Hi. rewrite (drop_S _ _ _ Hi). apply flying_cons.
Qed.

(** With every poll reporting completion, the iteration returns as soon
    as it has seen enough I/Os in flight. *)
Lemma qiter_prompt (td0 : thread_data Desc) (n : nat) :
  ring_wf iodepth (io_ops_data td0) ->
  forall (i : nat) (td : thread_data Desc) (l : ge_locals) (s : ST),
    ge_inv iodepth min td0 td l -> (i + n = length (io_u_all td))%nat ->
    Z.max 1 min - events l <= flying (drop i (io_u_all td)) ->
    exists ev td' l' s',
      qiter iodepth min rdtsc_timeout n i td l s = (Ret (Some ev, td', l'), s').
Proof.
  intros Hwf0. induction n as [|n IH]; intros i td l s Hinv Hn Hneed.
  - rewrite drop_ge in Hneed by lia. cbn [flying foldr] in Hneed.
    destruct Hinv as (_ & _ & _ & Hev & Hless & _). lia.
  - cbn [qiter].
    pose proof (reap_spec iodepth min rdtsc_timeout Hdepth td0 td i l s
                  Hwf0 Hinv ltac:(lia)) as Hreap.
    destruct (lookup_lt_is_Some_2 (io_u_all td) i ltac:(lia)) as [io Hio].
    rewrite (flying_drop_lookup _ _ _ Hio) in Hneed.
    unfold reap in *. rewrite Hio in *.
    destruct (engine_data io) as [d|] eqn:Hd.
    + unfold unvme_apoll, call_do_poll in *.
      pose proof (Hpoll d 0 None (world s)) as Hstat.
      destruct (unvme_do_poll d 0 None (world s)) as [stat w1].
      cbn [fst] in Hstat. subst stat. cbn [Z.eqb] in *.
      destruct (iocq_put iodepth (io_ops_data td) i) as [u'|flt]; [|done].
      destruct (min <=? CInt.to_u32 (CInt.to_int (events l + 1))) eqn:Hcmp.
      * by eexists _, _, _, _.
      * apply IH.
        -- done.
        -- cbn [io_u_all]. rewrite length_insert. lia.
        -- cbn [io_u_all events].
           rewrite drop_insert_lt by lia.
           destruct Hinv as (Hwf & _ & Hroom & Hev & _ & _ & new & Hnew & Hcount).
           pose proof (ring_size_range iodepth Hdepth _ Hwf).
           pose proof (reaped_events iodepth Hdepth td0 td new Hwf0 Hwf Hnew).
           rewrite to_int_small by lia. lia.
    + apply IH; [done|lia|lia].
Qed.

(** X17.  With a driver whose polls all report completion and at least
    [max (1, min)] I/Os in flight, [fio_unvme_getevents] returns
    [max (1, min)] in its first pass. *)
Theorem fio_unvme_getevents_returns_on_prompt_driver (fuel : nat)
    (td : thread_data Desc) (s : ST) :
  ring_wf iodepth (io_ops_data td) ->
  ring_size iodepth (io_ops_data td) + flying (io_u_all td) <= iodepth ->
  Z.max 1 min <= flying (io_u_all td) ->
  exists td',
    (fio_unvme_getevents iodepth min rdtsc_timeout (S fuel) td s).1
    = Ret (Z.max 1 min, td').
Proof.
  intros Hwf Hroom Hneed.
  pose proof (ge_inv_entry iodepth min td Hwf Hroom) as Hinv.
  destruct (qiter_prompt td (length (io_u_all td)) Hwf 0%nat td
              {| events := 0; endtsc := 0 |} s Hinv)
    as (ev & td' & l' & s' & Hq); [done|rewrite drop_0; cbn [events]; lia|].
  pose proof (getevents_loop_spec iodepth min rdtsc_timeout Hdepth td
                (S fuel) Hwf td {| events := 0; endtsc := 0 |} s Hinv) as Hpost.
  unfold fio_unvme_getevents. cbn [getevents_loop] in *. rewrite Hq in *.
  cbn [fst ge_post] in *. destruct Hpost as [-> _]. by exists td'.
Qed.

End GeteventsRuns.

Lemma fio_unvme_event_takes_oldest_witness :
  exists r u',
    Fio.fio_unvme_event 2 Scenario4.udata_two = inl (r, u')
    /\ Fio.ring_wf 2 u'
    /\ match Fio.ring_list 2 Scenario4.udata_two with
       | [] => r = None /\ u' = Scenario4.udata_two
       | x :: rest => r = x /\ Fio.ring_list 2 u' = rest
       end.
Proof.
  apply (fio_unvme_event_takes_oldest 2 ltac:(lia) Scenario4.udata_two).
  vm_compute. repeat split; (reflexivity || discriminate).
Defined.

Lemma fio_unvme_getevents_queues_completions_witness :
  1 = Z.max 1 1
  /\ Fio.ring_wf 2
       (Fio.io_ops_data
          (Fio.mk_td [Fio.mk_io_u None; Fio.mk_io_u (Some 1%nat)]
             (Fio.mk_udata [Some 0%nat; None; None] 0 1)))
  /\ exists new : list nat,
       Z.of_nat (length new) = 1
       /\ Fio.ring_list 2
            (Fio.io_ops_data
               (Fio.mk_td [Fio.mk_io_u None; Fio.mk_io_u (Some 1%nat)]
                  (Fio.mk_udata [Some 0%nat; None; None] 0 1)))
          = Fio.ring_list 2 (Fio.io_ops_data Scenario4.td_two) ++ (Some <$> new)
       /\ Forall (fun i => Fio.in_flight_at (Fio.io_u_all Scenario4.td_two) i
                           /\ Fio.io_u_all
                                (Fio.mk_td
                                   [Fio.mk_io_u None; Fio.mk_io_u (Some 1%nat)]
                                   (Fio.mk_udata [Some 0%nat; None; None] 0 1))
                                !! i = Some (Fio.mk_io_u None)) new.
Proof.
  apply (fio_unvme_getevents_queues_completions (Core := ideal_core)
           (Clock := still_clock) 2 1 0 ltac:(lia) 1%nat Scenario4.td_two _ 1
           (mk_state 0%nat [])).
  - vm_compute. repeat split; (reflexivity || discriminate).
  - vm_compute. discriminate.
  - vm_compute. reflexivity.
Defined.

Lemma fio_unvme_getevents_stays_in_iocq_witness :
  (forall flt,
     (Fio.fio_unvme_getevents (Core := ideal_core) (Clock := still_clock)
        2 1 0 1 Scenario4.td_two (mk_state 0%nat [])).1 <> Fio.Fault flt)
  /\ (forall status,
        (Fio.fio_unvme_getevents (Core := ideal_core) (Clock := still_clock)
           2 1 0 1 Scenario4.td_two (mk_state 0%nat [])).1
        = Fio.Exit status -> status = 1).
Proof.
  apply (fio_unvme_getevents_stays_in_iocq (Core := ideal_core)
           (Clock := still_clock) 2 1 0 ltac:(lia) 1%nat Scenario4.td_two
           (mk_state 0%nat [])).
  - vm_compute. repeat split; (reflexivity || discriminate).
  - vm_compute. discriminate.
Defined.

Lemma fio_unvme_getevents_idle_exits_witness :
  (Fio.fio_unvme_getevents (Core := ideal_core) (Clock := still_clock)
     2 0 0 1 Scenario4.td_idle (mk_state 0%nat [])).1 = Fio.Exit 1
  /\ trace (Fio.fio_unvme_getevents (Core := ideal_core) (Clock := still_clock)
              2 0 0 1 Scenario4.td_idle (mk_state 0%nat [])).2
     = [] ++ [EvYield].
Proof.
  apply (fio_unvme_getevents_idle_exits (Core := ideal_core)
           (Clock := still_clock) 2 0 0 0%nat Scenario4.td_idle
           (mk_state 0%nat [])).
  - reflexivity.
  - intros w. cbn. lia.
Defined.

Lemma fio_unvme_getevents_returns_on_prompt_driver_witness :
  exists td',
    (Fio.fio_unvme_getevents (Core := ideal_core) (Clock := still_clock)
       2 2 0 1 Scenario4.td_two (mk_state 0%nat [])).1
    = Fio.Ret (Z.max 1 2, td').
Proof.
  apply (fio_unvme_getevents_returns_on_prompt_driver (Core := ideal_core)
           (Clock := still_clock) 2 2 0 ltac:(lia) ltac:(done) 0%nat
           Scenario4.td_two (mk_state 0%nat [])).
  - vm_compute. repeat split; (reflexivity || discriminate).
  - vm_compute. discriminate.
  - vm_compute. discriminate.
Defined.

(** Ten blocks in reads of 4 under a window of 4, after three calls. *)
Lemma translate_region_in_flight_bounded_witness :
  in_flight
    (take 3 (trace (unvme_translate_region (Core := ideal_core) 4
                      Scenario.ns_small 0 0 0 10 1 (mk_state 0%nat [])).2))
  <= maxiopq Scenario.ns_small.
Proof.
  apply (translate_region_in_flight_bounded (Core := ideal_core)
           Scenario.ns_small 0 0 0 10 1 4%nat 0%nat 3%nat).
  - unfold ns_wf, CInt.is_u16. cbn. lia.
  - cbn. lia.
Defined.

(** The same run returns, so none of its submissions failed. *)
Lemma returning_run_has_no_failed_submission_witness :
  failed_submissions
    (trace (unvme_translate_region (Core := ideal_core) 4
              Scenario.ns_small 0 0 0 10 1 (mk_state 0%nat [])).2) = 0.
Proof.
  apply (returning_run_has_no_failed_submission (Core := ideal_core)
           Scenario.ns_small 0 0 0 10 1 4%nat 0%nat 0).
  - unfold CInt.is_u16. cbn. lia.
  - vm_compute. reflexivity.
Defined.

(** ** The host-side column projection of the translation test *)

Section TranslateFacts.

Import TransTest.

Context {A : Type}.

Variables (config : trans_config_t) (table : list A).

Local Abbreviation L := (column_group_list config).
Local Abbreviation ncols := (number_of_columns config).
Local Abbreviation nrows := (number_of_rows config).

Hypothesis Hlen : length L = 1021%nat.
Hypothesis Hshape : 0 <= ncols /\ 0 <= nrows < 2 ^ 32 /\ nrows * ncols < 2 ^ 32.
Hypothesis Htable : nrows * ncols <= Z.of_nat (length table).

Lemma drop_cons_inv {B : Type} (l : list B) (n : nat) (x : B) (r : list B) :
  drop n l = x :: r -> l !! n = Some x /\ drop (S n) l = r.
Proof.
  intros Hd. split.
  - rewrite <- (Nat.add_0_r n), <- lookup_drop, Hd. done.
  - rewrite <- Nat.add_1_r, <- drop_drop, Hd. done.
Qed.

Lemma group_load_at (k : Z) (v : Z) (r : list Z) :
  0 <= k -> drop (Z.to_nat k) L = v :: r ->
  group_load config k = inl v /\ k < 1021.
Proof.
  intros Hk Hd. apply drop_cons_inv in Hd as [Hv _].
  pose proof (lookup_lt_Some _ _ _ Hv) as Hlt. rewrite Hlen in Hlt.
  unfold group_load. rewrite Hlen.
  rewrite (proj2 (Z.ltb_ge _ _)) by lia.
  rewrite (proj2 (Z.leb_gt _ _)) by lia. cbn [orb]. rewrite Hv. split; [done|lia].
Qed.

(** The columns of one row of one group. *)
Lemma copy_columns_spec (groupidx row : Z) (cols : list Z) :
  forall (listidx : Z) (tl : list Z) (out : list A),
    0 <= groupidx -> 0 <= listidx -> 0 <= row < nrows ->
    Forall (fun col => 0 <= col < ncols) cols ->
    drop (Z.to_nat (groupidx + 1 + listidx)) L = cols ++ tl ->
    exists vals,
      copy_columns (length cols) config table groupidx row listidx out
      = inl (out ++ vals)
      /\ Some <$> vals
         = (fun col => table !! Z.to_nat (row * ncols + col)) <$> cols.
Proof.
  destruct Hshape as (Hc & Hr & Hrc).
  induction cols as [|col cols IH]; intros listidx tl out Hg Hl Hrow Hcols Hd.
  - exists []. by rewrite app_nil_r.
  - apply Forall_cons in Hcols as [Hcol Hcols].
    destruct (group_load_at (groupidx + 1 + listidx) col (cols ++ tl)
                ltac:(lia) Hd) as [Hload Hk].
    apply drop_cons_inv in Hd as [_ Hd].
    cbn [length copy_columns].
    rewrite (to_u32_small (groupidx + 1 + listidx)) by lia. rewrite Hload.
    assert (0 <= row * ncols <= (nrows - 1) * ncols) as Hmul by nia.
    rewrite (to_u32_small (row * ncols)) by lia.
    assert (row * ncols + col < nrows * ncols) as Hin by nia.
    unfold attr_load.
    rewrite (proj2 (Z.ltb_ge _ _)) by lia.
    rewrite (proj2 (Z.leb_gt _ _)) by lia. cbn [orb].
    destruct (lookup_lt_is_Some_2 table (Z.to_nat (row * ncols + col))
                ltac:(lia)) as [a Ha].
    rewrite Ha. rewrite (to_u32_small (listidx + 1)) by lia.
    destruct (IH (listidx + 1) tl (out ++ [a])) as (vals & -> & Hvals);
      try done; try lia.
    { replace (Z.to_nat (groupidx + 1 + (listidx + 1)))
        with (S (Z.to_nat (groupidx + 1 + listidx))) by lia. done. }
    exists (a :: vals). split; [by rewrite <- app_assoc|].
    cbn [fmap list_fmap]. by rewrite Ha, <- Hvals.
Qed.

(** The rows of one group. *)
Lemma copy_rows_spec (groupidx : Z) (cols tl : list Z) (n : nat) :
  forall (row : Z) (out : list A),
    0 <= groupidx -> 0 <= row -> row + Z.of_nat n = nrows ->
    Forall (fun col => 0 <= col < ncols) cols ->
    drop (Z.to_nat (groupidx + 1)) L = cols ++ tl ->
    exists vals,
      copy_rows n config table groupidx (Z.of_nat (length cols)) row out
      = inl (out ++ vals)
      /\ Some <$> vals
         = (fun i => table !! Z.to_nat i)
             <$> concat ((fun r => (fun col => r * ncols + col) <$> cols)
                           <$> seqZ row (Z.of_nat n)).
Proof.
  destruct Hshape as (Hc & Hr & Hrc).
  induction n as [|n IH]; intros row out Hg Hrow Hn Hcols Hd.
  - exists []. by rewrite app_nil_r.
  - cbn [copy_rows]. rewrite Nat2Z.id.
    destruct (copy_columns_spec groupidx row cols 0 tl out)
      as (v1 & -> & Hv1); try done; try lia.
    { by rewrite Z.add_0_r. }
    rewrite (to_u32_small (row + 1)) by lia.
    destruct (IH (row + 1) (out ++ v1)) as (v2 & -> & Hv2); try done; try lia.
    exists (v1 ++ v2). split; [by rewrite <- app_assoc|].
    rewrite seqZ_cons by lia. cbn [fmap list_fmap concat].
    rewrite !fmap_app, Hv1.
    replace (Z.succ row) with (row + 1) by lia.
    replace (Z.pred (Z.of_nat (S n))) with (Z.of_nat n) by lia.
    rewrite Hv2. f_equal. by rewrite <- list_fmap_compose.
Qed.

Lemma encode_groups_cons (g : list Z) (groups : list (list Z)) :
  encode_groups (g :: groups)
  = Z.of_nat (length g) :: g ++ encode_groups groups.
Proof.
  unfold encode_groups. cbn [fmap list_fmap concat].
  by rewrite <- app_assoc.
Qed.

Lemma copy_groups_spec (groups : list (list Z)) :
  forall (groupidx : Z) (tl : list Z) (out : list A) (fuel : nat),
    0 <= groupidx ->
    groups_wf ncols groups ->
    drop (Z.to_nat groupidx) L = encode_groups groups ++ tl ->
    (length groups < fuel)%nat ->
    exists vals,
      copy_groups fuel config table groupidx out = Returns (out ++ vals)
      /\ Some <$> vals
         = (fun i => table !! Z.to_nat i) <$> pax_indices ncols nrows groups.
Proof.
  destruct Hshape as (Hc & Hr & Hrc).
  induction groups as [|g groups IH]; intros groupidx tl out fuel Hg Hwf Hd Hfuel.
  - destruct fuel as [|fuel]; [lia|]. cbn [copy_groups].
    destruct (group_load_at _ _ _ Hg Hd) as [-> _].
    exists []. by rewrite app_nil_r.
  - destruct fuel as [|fuel]; [cbn [length] in Hfuel; lia|].
    apply Forall_cons in Hwf as [Hcols Hwf].
    rewrite encode_groups_cons in Hd. cbn [app] in Hd.
    destruct (group_load_at _ _ _ Hg Hd) as [Hload Hk].
    apply drop_cons_inv in Hd as [_ Hd].
    assert (Z.of_nat (length g) + groupidx < 1021) as Hroom.
    { pose proof (f_equal length Hd) as Hl.
      rewrite length_drop, !length_app, Hlen in Hl. lia. }
    cbn [copy_groups]. rewrite Hload.
    destruct (Z.eqb_spec (Z.of_nat (length g)) END) as [Hend|_];
      [unfold END in Hend; lia|].
    rewrite <- app_assoc in Hd.
    destruct (copy_rows_spec groupidx g (encode_groups groups ++ tl)
                (Z.to_nat nrows) 0 out) as (v1 & -> & Hv1); try done; try lia.
    { by replace (Z.to_nat (groupidx + 1)) with (S (Z.to_nat groupidx)) by lia. }
    rewrite Z2Nat.id in Hv1 by lia.
    rewrite (to_u32_small (groupidx + (1 + Z.of_nat (length g)))) by lia.
    destruct (IH (groupidx + (1 + Z.of_nat (length g))) tl (out ++ v1) fuel)
      as (v2 & -> & Hv2); try done; try lia.
    { replace (Z.to_nat (groupidx + (1 + Z.of_nat (length g))))
        with (S (Z.to_nat groupidx) + length g)%nat by lia.
      rewrite <- drop_drop, Hd. by rewrite drop_app_length. }
    { cbn [length] in Hfuel. lia. }
    exists (v1 ++ v2). split; [by rewrite <- app_assoc|].
    unfold pax_indices in *. cbn [fmap list_fmap concat].
    by rewrite !fmap_app, Hv1, Hv2.
Qed.

(** X18.  For a list of column groups, each a group length followed by
    that many column numbers and the list closed by [0xffffffff],
    [translate_region] returns, and what it has stored in [buf] is the
    PAX layout of the table: group after group, in each group row after
    row, in each row the columns of the group in the order listed. *)
Theorem translate_region_lays_out_groups (groups : list (list Z))
    (tl : list Z) (fuel : nat) :
  groups_wf ncols groups ->
  L = encode_groups groups ++ tl ->
  (length groups < fuel)%nat ->
  exists out,
    translate_region fuel table config = Returns out
    /\ Some <$> out
       = (fun i => table !! Z.to_nat i) <$> pax_indices ncols nrows groups.
Proof.
  intros Hwf HL Hfuel.
  destruct (copy_groups_spec groups 0 tl [] fuel) as (vals & Hrun & Hvals);
    try done.
  by exists vals.
Qed.

Lemma pax_indices_app (c r : Z) (g1 g2 : list (list Z)) :
  pax_indices c r (g1 ++ g2) = pax_indices c r g1 ++ pax_indices c r g2.
Proof. unfold pax_indices. by rewrite fmap_app, concat_app. Qed.

Lemma pax_indices_no_rows (c : Z) (groups : list (list Z)) :
  pax_indices c 0 groups = [].
Proof.
  unfold pax_indices. induction groups as [|g groups IH]; [done|].
  cbn [fmap list_fmap concat]. by rewrite IH.
Qed.

Lemma concat_singletons {B : Type} (f : Z -> B) (l : list Z) :
  concat ((fun r => [f r]) <$> l) = f <$> l.
Proof.
  induction l as [|x l IH]; [done|]. cbn [fmap list_fmap concat app] in *.
  by rewrite IH.
Qed.

(** Column after column: entry [k] is row [k mod nrows] of column
    [k / nrows]. *)
Lemma pax_first_columns (c r : Z) (n : nat) :
  0 < r ->
  pax_indices c r (first_columns (Z.of_nat n))
  = (fun k => (k mod r) * c + k / r) <$> seqZ 0 (Z.of_nat n * r).
Proof.
  intros Hr. induction n as [|n IH]; [done|].
  unfold first_columns in *.
  rewrite Nat2Z.inj_succ, <- Z.add_1_r, seqZ_snoc, fmap_app by lia.
  rewrite pax_indices_app, IH.
  replace ((Z.of_nat n + 1) * r) with (Z.of_nat n * r + r) by lia.
  rewrite (seqZ_app 0), fmap_app by nia. f_equal.
  unfold pax_indices. cbn [fmap list_fmap concat]. rewrite app_nil_r.
  rewrite (concat_singletons (fun row => row * c + (0 + Z.of_nat n))).
  replace (seqZ (0 + Z.of_nat n * r) r)
    with (Z.add (Z.of_nat n * r) <$> seqZ 0 r)
    by (rewrite fmap_add_seqZ; f_equal; lia).
  rewrite <- list_fmap_compose.
  apply list_fmap_ext. intros j k Hk. apply lookup_seqZ in Hk as [-> Hj].
  cbn [compose]. rewrite Z.add_0_l.
  rewrite (Z.add_comm (Z.of_nat n * r)), Z.mod_add, Z.div_add by lia.
  rewrite Z.mod_small, Z.div_small by lia. lia.
Qed.

(** X19.  For a group list of [n] groups of one column each, the
    columns 0 to [n - 1] in order (the list that [run_test] writes into
    the configuration), [translate_region] returns and stores the table
    column by column: its output has [n * number_of_rows] entries, and
    entry [i * number_of_rows + r] is the attribute of row [r],
    column [i]. *)
Theorem translate_region_transposes_first_columns (n : nat) (tl : list Z)
    (fuel : nat) :
  Z.of_nat n <= ncols ->
  L = encode_groups (first_columns (Z.of_nat n)) ++ tl ->
  (n < fuel)%nat ->
  exists out,
    translate_region fuel table config = Returns out
    /\ Z.of_nat (length out) = Z.of_nat n * nrows
    /\ forall i r,
         0 <= i < Z.of_nat n -> 0 <= r < nrows ->
         out !! Z.to_nat (i * nrows + r) = table !! Z.to_nat (r * ncols + i).
Proof.
  intros Hn HL Hfuel. destruct Hshape as (Hc & Hr & Hrc).
  destruct (copy_groups_spec (first_columns (Z.of_nat n)) 0 tl [] fuel)
    as (out & Hrun & Hout); try done.
  { unfold groups_wf, first_columns. apply Forall_fmap, Forall_forall.
    intros i Hi. apply elem_of_seqZ in Hi. apply Forall_singleton. lia. }
  { unfold first_columns. rewrite length_fmap, length_seqZ. lia. }
  exists out. split; [done|].
  destruct (decide (nrows = 0)) as [Hz|Hnz].
  - rewrite Hz in *. split; [|intros; lia].
    apply (f_equal length) in Hout.
    rewrite pax_indices_no_rows, !length_fmap in Hout. cbn [length] in Hout. lia.
  - rewrite pax_first_columns in Hout by lia. split.
    + apply (f_equal length) in Hout.
      rewrite !length_fmap, length_seqZ in Hout. nia.
    + intros i r Hi Hrow.
      apply (f_equal (fun l => l !! Z.to_nat (i * nrows + r))) in Hout.
      rewrite !list_lookup_fmap in Hout.
      rewrite (lookup_seqZ_lt 0 (Z.of_nat n * nrows) (Z.to_nat (i * nrows + r)))
        in Hout by nia.
      cbn [fmap option_fmap option_map] in Hout.
      rewrite Z.add_0_l, Z2Nat.id in Hout by nia.
      rewrite (Z.add_comm (i * nrows)), Z.mod_add, Z.div_add in Hout by lia.
      rewrite Z.mod_small, Z.div_small in Hout by lia.
      rewrite Z.add_0_l in Hout.
      destruct (out !! Z.to_nat (r + i * nrows)) as [a|] eqn:Ha;
        cbn in Hout; [|done].
      replace (i * nrows + r) with (r + i * nrows) by lia. rewrite Ha.
      by injection Hout.
Qed.

End TranslateFacts.

Lemma translate_region_lays_out_groups_witness :
  exists out,
    TransTest.translate_region 3 Scenario5.table_2x3 Scenario5.config_pax
    = Returns out
    /\ Some <$> out
       = (fun i => Scenario5.table_2x3 !! Z.to_nat i)
           <$> TransTest.pax_indices 3 2 [[2; 0]; [1]].
Proof.
  apply (translate_region_lays_out_groups Scenario5.config_pax
           Scenario5.table_2x3 ltac:(reflexivity) ltac:(cbn; lia)
           ltac:(cbn; lia) [[2; 0]; [1]] (replicate 1015 0) 3%nat).
  - repeat (constructor; try (cbn; lia)).
  - reflexivity.
  - cbn. lia.
Defined.

Lemma translate_region_transposes_first_columns_witness :
  exists out,
    TransTest.translate_region 3 Scenario5.table_2x3 Scenario5.config_first2
    = Returns out
    /\ Z.of_nat (length out) = Z.of_nat 2 * 2
    /\ forall i r,
         0 <= i < Z.of_nat 2 -> 0 <= r < 2 ->
         out !! Z.to_nat (i * 2 + r)
         = Scenario5.table_2x3 !! Z.to_nat (r * 3 + i).
Proof.
  apply (translate_region_transposes_first_columns Scenario5.config_first2
           Scenario5.table_2x3 ltac:(reflexivity) ltac:(cbn; lia)
           ltac:(cbn; lia) 2%nat (replicate 1016 0) 3%nat).
  - cbn. lia.
  - reflexivity.
  - lia.
Defined.

(** ** Reading one embedding *)

Section ReadEmbeddingFacts.

Import Embedding.

Context {World Desc : Type} {Core : UnvmeCore World Desc}
  {Clock : EmbedLib.Rdtsc World}.

Local Abbreviation ST := (state World Desc).

Variables (ns : unvme_ns_t) (slba table_stride fromPageAlloc : Z).
Variables (vector_length table_id qid : Z).

(** [per_page] embeddings of [4 * vector_length] bytes fill a page;
    the embedding read is number [slot] of page [page] of the table. *)
Variables (per_page page slot : Z).

Local Abbreviation embedidx := (page * per_page + slot).
Local Abbreviation base := (slba + table_id * table_stride).

Hypothesis Hwidth : 1 <= vector_length /\ 4 * vector_length * per_page = 4096.
Hypothesis Hidx : 0 <= page /\ 0 <= slot < per_page.
Hypothesis Hint : 4 * vector_length * embedidx < 2 ^ 31.
Hypothesis Hbase :
  - 2 ^ 31 <= table_id * table_stride < 2 ^ 31
  /\ 0 <= base /\ base + page < 2 ^ 31.

Lemma unvme_read_trace (buf lba nlb : Z) (s : ST) :
  exists d rest,
    trace (unvme_read ns qid buf lba nlb s).2
    = trace s ++ EvRw qid NVME_CMD_READ buf lba nlb d :: rest.
Proof.
  unfold unvme_read, bind, call_rw.
  destruct (unvme_rw _ _ _ _ _ _ _) as [[d|] w1].
  - unfold sched_yield, emit, call_do_poll. cbn [world trace].
    destruct (unvme_do_poll _ _ _ _) as [rc w2]. cbn [snd trace].
    eexists _, _. by rewrite <- !app_assoc.
  - unfold ret. cbn [snd trace]. by eexists _, _.
Qed.

Lemma read_embedding_run (s : ST) :
  exists d rest t1 t2 s',
    unvme_read_embedding ns slba table_stride fromPageAlloc embedidx
      vector_length table_id qid s
    = (if slot =? per_page - 1 then EmbedLib.Trap (OutOfBounds 4096)
       else EmbedLib.Done
              (slot * (4 * vector_length),
               mk_store ((slot + 1) * (4 * vector_length)) t1 t2), s')
    /\ trace s'
       = trace s ++ EvRw qid NVME_CMD_READ fromPageAlloc (base + page) 1 d
                      :: rest.
Proof.
  destruct Hwidth as [Hv Hfill]. destruct Hidx as (Hp & Hs & Hs').
  destruct Hbase as (Hts & Hb & Hbp).
  assert (1 <= per_page) as Hk by nia.
  assert (4 * vector_length <= 4096) as Hw by nia.
  assert (0 <= slot * (4 * vector_length) < 4096) as Hoff by nia.
  unfold unvme_read_embedding, int_div, int_rem.
  rewrite (to_int_small (4 * vector_length)) by lia.
  destruct (Z.eqb_spec (4 * vector_length) 0) as [|_]; [lia|].
  rewrite Z.quot_div_nonneg by lia.
  assert (4096 / (4 * vector_length) = per_page) as ->.
  { symmetry. apply (Z.div_unique _ _ _ 0); lia. }
  rewrite (to_int_small per_page) by lia.
  destruct (Z.eqb_spec per_page 0) as [|_]; [lia|].
  rewrite Z.rem_mod_nonneg by nia.
  assert (embedidx mod per_page = slot) as ->.
  { symmetry. apply (Z.mod_unique _ _ page); lia. }
  rewrite (to_int_small slot) by lia.
  rewrite (to_int_small (slot * (4 * vector_length))) by lia.
  unfold EmbedLib.call_rdtsc, EmbedLib.call_rdtsc_elapse,
    EmbedLib.call_rdtsc_second.
  destruct (EmbedLib.rdtsc (world s)) as [tstart w1]. cbn [world trace].
  assert (0 <= 4 * vector_length * embedidx) as Hpos by nia.
  rewrite (to_int_small (4 * vector_length * embedidx)) by lia.
  rewrite Z.quot_div_nonneg by lia.
  assert (4 * vector_length * embedidx / 4096 = page) as ->.
  { symmetry. apply (Z.div_unique _ _ _ (slot * (4 * vector_length))); nia. }
  rewrite (to_int_small page) by lia.
  assert (CInt.to_int (table_id * table_stride) = table_id * table_stride)
    as ->.
  { rewrite <- (to_int_to_u32 (table_id * table_stride)) at 2 by lia.
    unfold CInt.to_int, CInt.to_u32. by rewrite Z.mod_mod by lia. }
  rewrite (to_int_small base) by lia.
  rewrite (to_int_small (base + page)) by lia.
  rewrite (to_u64_small (base + page)) by lia.
  destruct (unvme_read_trace fromPageAlloc (base + page) 1
              (mk_state w1 (trace s))) as (d & rest & Htr).
  destruct (unvme_read ns qid fromPageAlloc (base + page) 1 _) as [rc s2].
  cbn [snd trace] in Htr.
  destruct (EmbedLib.rdtsc_elapse tstart (world s2)) as [telapse w3].
  cbn [world trace].
  destruct (EmbedLib.rdtsc_second w3) as [tsec w4].
  exists d, rest, telapse, tsec, (mk_state w4 (trace s2)).
  split; [|done].
  rewrite (proj2 (Z.ltb_ge _ 0)) by lia. cbn [orb].
  destruct (Z.eqb_spec slot (per_page - 1)) as [->|Hne].
  - rewrite (proj2 (Z.ltb_lt 4096 _)) by nia.
    replace ((per_page - 1) * (4 * vector_length) + 4 * vector_length)
      with 4096 by (rewrite <- Hfill; ring).
    done.
  - rewrite (proj2 (Z.ltb_ge 4096 _)) by nia.
    replace (slot * (4 * vector_length) + 4 * vector_length)
      with ((slot + 1) * (4 * vector_length)) by ring.
    done.
Qed.


(** X21.  For the last embedding of a page ([slot = per_page - 1], with
    [4 * vector_length] dividing 4096) [unvme_read_embedding] stores the
    elapsed time at byte offset 4096 of [fromPageAlloc], outside the 4096
    bytes allocated for it. *)
Theorem read_embedding_time_store_leaves_page (s : ST) :
  slot = per_page - 1 ->
  (unvme_read_embedding ns slba table_stride fromPageAlloc embedidx
     vector_length table_id qid s).1
  = EmbedLib.Trap (OutOfBounds 4096).
Proof.
  intros Hslot. destruct (read_embedding_run s) as (d & rest & t1 & t2 & s' & Hrun & Htr).
  rewrite Hrun. cbn [fst].
  destruct (Z.eqb_spec slot (per_page - 1)); [done|lia].
Qed.

End ReadEmbeddingFacts.


(** Embedding 47 is the last of page 2. *)
Lemma read_embedding_time_store_leaves_page_witness :
  (Embedding.unvme_read_embedding (Core := ideal_core) (Clock := still_clock)
     Scenario.ns_small 5000 2500000 0 (2 * 16 + 15) 64 1 0
     (mk_state 0%nat [])).1
  = EmbedLib.Trap (OutOfBounds 4096).
Proof.
  apply (read_embedding_time_store_leaves_page (Core := ideal_core)
           (Clock := still_clock) Scenario.ns_small 5000 2500000 0 64 1 0
           16 2 15 ltac:(lia) ltac:(lia) ltac:(lia) ltac:(lia)
           (mk_state 0%nat [])).
  lia.
Defined.

(** ** The set-features program: how a run ends *)

Section SetFeaturesExit.

Import SetFeatures.

Context {World : Type} {Env : NvmeEnv World}.

Local Ltac run_cases :=
  unfold main;
  repeat match goal with
    | |- context [if ?c then _ else _] => destruct c eqn:?
    | |- context [let '(_, _) := ?p in _] => destruct p eqn:?
    | |- context [match ?o with Some _ => _ | None => _ end] => destruct o eqn:?
    end.

(** X22.  [main] of the set-features program exits with status 0 or 1; with
    0 exactly when it has issued the features command and the command
    returned 0, and exactly then it calls [nvme_cleanup]: a run that
    fails after [nvme_setup] exits without the cleanup.  Unless all the
    checks of the arguments pass, the device is not set up and nothing
    behind the driver changes. *)
Theorem set_features_exit_status (argv : list string) (w : World) :
  ((main argv w).1.1 = 0 \/ (main argv w).1.1 = 1)
  /\ ((main argv w).1.1 = 0 <-> Cleanup ∈ (main argv w).2)
  /\ ((main argv w).1.1 = 0 <->
      exists nsid fid prp1 prp2 res_in res_out,
        GetFeatures nsid fid prp1 prp2 res_in 0 res_out ∈ (main argv w).2)
  /\ (Setup (arg argv 1) 8 ∉ (main argv w).2 -> (main argv w).1.2 = w).
Proof.
  run_cases; cbn [fst snd].
  all: repeat match goal with
         | H : negb (?e =? 0) = true |- _ =>
             apply negb_true_iff, Z.eqb_neq in H
         | H : negb (?e =? 0) = false |- _ =>
             apply negb_false_iff, Z.eqb_eq in H; subst e
         end.
  all: split; [by (left + right)|].
  all: split;
    [split;
       [intros ?; try done; set_unfold; tauto
       |intros Hin; try done; set_unfold in Hin; destruct_or?; simplify_eq]|].
  all: split;
    [split;
       [intros ?; try done; do 6 eexists;
        rewrite !elem_of_app, !list_elem_of_singleton; eauto 10
       |intros (? & ? & ? & ? & ? & ? & Hin); try done;
        set_unfold in Hin; destruct_or?; simplify_eq;
        injection Hin; intros; subst; done]|].
  all: intros Hnot; try done; exfalso; apply Hnot; set_unfold; tauto.
Qed.

End SetFeaturesExit.

(** ** The instances of a device in the multi-device test *)

Section McdFacts.

Import McdTest.

Variable pcis : list Z.

Local Abbreviation n := (length pcis).

Hypothesis Hn : Z.of_nat n < 2 ^ 31 - 1.

Lemma has_snoc (p x : Z) (l : list Z) :
  has p (l ++ [x]) = has p l || (x =? p).
Proof.
  unfold has. destruct (Z.eqb_spec x p) as [->|Hne].
  - rewrite orb_true_r. apply bool_decide_eq_true_2, elem_of_app. right.
    by apply list_elem_of_singleton.
  - rewrite orb_false_r. apply bool_decide_ext.
    rewrite elem_of_app, list_elem_of_singleton.
    split; [intros [?|?]; [done|congruence]|by left].
Qed.

Lemma occ_app (p : Z) (l1 l2 : list Z) : occ p (l1 ++ l2) = occ p l1 + occ p l2.
Proof. unfold occ. rewrite filter_app, length_app. lia. Qed.

Lemma occ_one (p x : Z) : occ p [x] = b2z (x =? p).
Proof.
  unfold occ. rewrite filter_cons, filter_nil.
  destruct (decide (x = p)) as [->|Hne].
  - by rewrite Z.eqb_refl.
  - by rewrite (proj2 (Z.eqb_neq _ _) Hne).
Qed.

Lemma occ_range (p : Z) (l : list Z) : 0 <= occ p l <= Z.of_nat (length l).
Proof. unfold occ. pose proof (length_filter (fun x => x = p) l). lia. Qed.

Lemma occ_absent (p : Z) (l : list Z) : has p l = false -> occ p l = 0.
Proof.
  unfold has, occ. intros Hno. apply bool_decide_eq_false in Hno.
  induction l as [|x l IH]; [done|].
  rewrite filter_cons. case_decide as Hx.
  - subst x. destruct Hno. by left.
  - apply IH. intros Hin. apply Hno. by right.
Qed.

(** A session's device occurs once more than it does among the later
    sessions, if no earlier session is on it. *)
Lemma occ_first (j : nat) (p : Z) :
  pcis !! j = Some p -> has p (take j pcis) = false ->
  occ p pcis = 1 + occ p (drop (S j) pcis).
Proof.
  intros Hj Hfirst. rewrite <- (take_drop j pcis) at 1.
  rewrite occ_app, (occ_absent _ _ Hfirst), (drop_S _ _ _ Hj).
  change (p :: drop (S j) pcis) with ([p] ++ drop (S j) pcis).
  rewrite occ_app, occ_one, Z.eqb_refl. cbn [b2z]. lia.
Qed.

Lemma take_later_snoc (i k : nat) (pk : Z) :
  (i < k)%nat -> pcis !! k = Some pk ->
  take (S k - S i) (drop (S i) pcis) = take (k - S i) (drop (S i) pcis) ++ [pk].
Proof.
  intros Hik Hk. replace (S k - S i)%nat with (S (k - S i)) by lia.
  apply take_S_r. rewrite lookup_drop. by replace (S i + (k - S i))%nat with k by lia.
Qed.

Lemma reach_other (i k j : nat) : j <> k -> reach i (S k) j = reach i k j.
Proof.
  intros Hne. unfold reach.
  destruct (Nat.ltb_spec j (S k)), (Nat.ltb_spec j k); try done; lia.
Qed.

Lemma reach_at (i k : nat) :
  (i < k)%nat -> reach i k k = i /\ reach i (S k) k = S i /\ reach i k i = i
                 /\ reach i (S k) i = i.
Proof.
  intros Hik. unfold reach. rewrite Nat.ltb_irrefl.
  rewrite (proj2 (Nat.ltb_lt k (S k))) by lia.
  rewrite (proj2 (Nat.ltb_lt i k)) by lia.
  rewrite (proj2 (Nat.ltb_lt i (S k))) by lia. lia.
Qed.

Lemma counted_other (i k j : nat) :
  j <> i -> counted n i (S k) j = counted n i k j.
Proof.
  intros Hne. unfold counted.
  destruct (Nat.ltb_spec j i); [done|]. by rewrite (proj2 (Nat.eqb_neq j i)).
Qed.

Lemma counted_at (i k : nat) : counted n i k i = (k - S i)%nat.
Proof. unfold counted. by rewrite Nat.ltb_irrefl, Nat.eqb_refl. Qed.

Lemma take_S_has (i : nat) (p pi : Z) :
  pcis !! i = Some pi ->
  has p (take (S i) pcis) = has p (take i pcis) || (pi =? p).
Proof. intros Hi. by rewrite (take_S_r _ _ _ Hi), has_snoc. Qed.

(** One comparison of the first pass. *)
Lemma count_step_spec (i k : nat) :
  (i < k < n)%nat ->
  count_step i k (imap (during_count pcis i k) pcis)
  = imap (during_count pcis i (S k)) pcis.
Proof.
  intros Hik.
  destruct (lookup_lt_is_Some_2 pcis k ltac:(lia)) as [pk Hk].
  destruct (lookup_lt_is_Some_2 pcis i ltac:(lia)) as [pi Hi].
  destruct (reach_at i k ltac:(lia)) as (Rkk & Rk'k & Rki & Rk'i).
  pose proof (take_S_has i pk pi Hi) as Hhas.
  pose proof (take_later_snoc i k pk ltac:(lia) Hk) as Hsnoc.
  unfold count_step. rewrite !list_lookup_imap, Hk, Hi.
  cbn [fmap option_fmap option_map during_count ins pci inscount].
  rewrite Rkk.
  destruct (has pk (take i pcis)) eqn:Hseen; cbn [b2z Z.eqb andb].
  - (* an earlier session is on the device of [k] *)
    apply imap_ext. intros j p Hj. unfold during_count.
    destruct (decide (j = k)) as [->|Hjk].
    + rewrite Hk in Hj. injection Hj as <-.
      rewrite Rkk, Rk'k, Hhas, Hseen. cbn [orb].
      by rewrite counted_other by lia.
    + rewrite reach_other by done.
      destruct (decide (j = i)) as [->|Hji]; [|by rewrite counted_other].
      rewrite Hi in Hj. injection Hj as <-.
      rewrite !counted_at. destruct (has pi (take i pcis)) eqn:Hpi; [done|].
      rewrite Hsnoc, occ_app, occ_one.
      destruct (Z.eqb_spec pk pi) as [->|]; [congruence|]. cbn [b2z]. do 2 f_equal. lia.
  - destruct (Z.eqb_spec pk pi) as [->|Hne].
    + (* the first session on this device counts session [k] *)
      rewrite list_lookup_insert_ne, list_lookup_imap, Hi by lia.
      cbn [fmap option_fmap option_map during_count ins pci inscount].
      rewrite Rki, Hseen. cbn [b2z].
      apply list_eq. intros j. rewrite list_lookup_imap.
      destruct (decide (j = i)) as [->|Hji].
      * rewrite list_lookup_insert_eq
          by (rewrite length_insert, length_imap; lia).
        rewrite Hi. cbn [fmap option_fmap option_map]. unfold during_count.
        rewrite Rk'i, Hseen, !counted_at, Hsnoc, occ_app, occ_one, Z.eqb_refl.
        cbn [b2z]. do 2 f_equal.
        pose proof (occ_range pi (take (k - S i) (drop (S i) pcis))) as Hr.
        rewrite length_take, length_drop in Hr.
        rewrite to_int_small by lia. lia.
      * rewrite list_lookup_insert_ne by done.
        destruct (decide (j = k)) as [->|Hjk].
        -- rewrite list_lookup_insert_eq by (rewrite length_imap; lia).
           rewrite Hk. cbn [fmap option_fmap option_map]. unfold during_count.
           rewrite Rk'k, Hhas, Z.eqb_refl. cbn [orb b2z].
           rewrite counted_other by lia. by rewrite (to_int_small (0 + 1)) by lia.
        -- rewrite list_lookup_insert_ne by done.
           rewrite list_lookup_imap. destruct (pcis !! j) as [p|]; [|done].
           cbn [fmap option_fmap option_map]. unfold during_count.
           by rewrite reach_other, counted_other.
    + (* another device *)
      apply imap_ext. intros j p Hj. unfold during_count.
      destruct (decide (j = k)) as [->|Hjk].
      * rewrite Hk in Hj. injection Hj as <-.
        rewrite Rkk, Rk'k, Hhas, Hseen.
        rewrite (proj2 (Z.eqb_neq pi pk)) by congruence. cbn [orb].
        by rewrite counted_other by lia.
      * rewrite reach_other by done.
        destruct (decide (j = i)) as [->|Hji]; [|by rewrite counted_other].
        rewrite Hi in Hj. injection Hj as <-.
        rewrite !counted_at. destruct (has pi (take i pcis)) eqn:Hpi; [done|].
        rewrite Hsnoc, occ_app, occ_one.
        rewrite (proj2 (Z.eqb_neq pk pi)) by congruence. cbn [b2z].
        do 2 f_equal. lia.
Qed.

(** One comparison of the second pass. *)
Lemma copy_step_spec (i k : nat) :
  (i < k < n)%nat ->
  copy_step i k (imap (during_copy pcis i k) pcis)
  = imap (during_copy pcis i (S k)) pcis.
Proof.
  intros Hik.
  destruct (lookup_lt_is_Some_2 pcis k ltac:(lia)) as [pk Hk].
  destruct (lookup_lt_is_Some_2 pcis i ltac:(lia)) as [pi Hi].
  destruct (reach_at i k ltac:(lia)) as (Rkk & Rk'k & Rki & Rk'i).
  pose proof (take_S_has i pk pi Hi) as Hhas.
  unfold copy_step. rewrite !list_lookup_imap, Hk, Hi.
  cbn [fmap option_fmap option_map during_copy ins pci inscount].
  destruct (Z.eqb_spec pk pi) as [->|Hne].
  - assert (has pi (take k pcis) = true) as Hearlier.
    { apply bool_decide_eq_true_2, elem_of_take. exists i. split; [done|lia]. }
    apply list_eq. intros j. rewrite list_lookup_imap.
    destruct (decide (j = k)) as [->|Hjk].
    + rewrite list_lookup_insert_eq by (rewrite length_imap; lia).
      rewrite Hk. cbn [fmap option_fmap option_map]. unfold during_copy.
      rewrite Rki, Rk'k, Hhas, Z.eqb_refl, orb_true_r, Hearlier. cbn [b2z].
      do 2 f_equal.
      destruct (has pi (take i pcis)) eqn:Hseen; [done|].
      symmetry. by apply occ_first.
    + rewrite list_lookup_insert_ne by done.
      rewrite list_lookup_imap. destruct (pcis !! j) as [p|]; [|done].
      cbn [fmap option_fmap option_map]. unfold during_copy.
      by rewrite reach_other.
  - apply imap_ext. intros j p Hj. unfold during_copy.
    destruct (decide (j = k)) as [->|Hjk]; [|by rewrite reach_other].
    rewrite Hk in Hj. injection Hj as <-.
    rewrite Rkk, Rk'k, Hhas.
    rewrite (proj2 (Z.eqb_neq pi pk)) by congruence. by rewrite orb_false_r.
Qed.

(** The inner loop, for either pass. *)
Lemma for_k_spec (body : nat -> nat -> list ses_t -> list ses_t)
    (during : nat -> nat -> nat -> Z -> ses_t) (i : nat) :
  (forall k, (i < k < n)%nat ->
             body i k (imap (during i k) pcis) = imap (during i (S k)) pcis) ->
  forall m k,
    (i < k)%nat -> (k + m = n)%nat ->
    for_k body m i k (imap (during i k) pcis) = imap (during i n) pcis.
Proof.
  intros Hstep. induction m as [|m IH]; intros k Hik Hkm.
  - cbn [for_k]. by replace k with n by lia.
  - cbn [for_k]. rewrite Hstep by lia. apply IH; lia.
Qed.

(** The loop nest, for either pass: the state when the inner loop has
    ended is the state in which the next one starts. *)
Lemma for_i_spec (body : nat -> nat -> list ses_t -> list ses_t)
    (during : nat -> nat -> nat -> Z -> ses_t) :
  (forall i k, (i < k < n)%nat ->
               body i k (imap (during i k) pcis) = imap (during i (S k)) pcis) ->
  (forall i, (S i < n)%nat ->
             imap (during i n) pcis = imap (during (S i) (S (S i))) pcis) ->
  forall m i,
    (i + m = n - 1)%nat -> (1 <= n)%nat ->
    for_i body m n i (imap (during i (S i)) pcis)
    = imap (during (n - 1)%nat n) pcis.
Proof.
  intros Hstep Hnext. induction m as [|m IH]; intros i Him Hn1.
  - cbn [for_i]. replace i with (n - 1)%nat by lia.
    by replace (S (n - 1)) with n by lia.
  - cbn [for_i].
    rewrite (for_k_spec body during i (Hstep i)) by lia.
    rewrite Hnext by lia. apply IH; lia.
Qed.

Lemma reach_end (i j : nat) :
  (j < n)%nat -> reach i n j = reach (S i) (S (S i)) j.
Proof.
  intros Hj. unfold reach. rewrite (proj2 (Nat.ltb_lt j n)) by done.
  destruct (Nat.ltb_spec j (S (S i))); lia.
Qed.

Lemma count_pass_next (i : nat) :
  (S i < n)%nat ->
  imap (during_count pcis i n) pcis
  = imap (during_count pcis (S i) (S (S i))) pcis.
Proof.
  intros Hi. apply imap_ext. intros j p Hj.
  pose proof (lookup_lt_Some _ _ _ Hj) as Hjn.
  unfold during_count. rewrite reach_end by done. do 2 f_equal.
  destruct (has p (take j pcis)); [done|]. do 2 f_equal.
  unfold counted.
  destruct (Nat.ltb_spec j i), (Nat.ltb_spec j (S i)); try lia; try done.
  - rewrite (proj2 (Nat.eqb_eq j i)) by lia.
    rewrite !take_ge; [done| |]; rewrite length_drop; lia.
  - rewrite (proj2 (Nat.eqb_neq j i)) by lia.
    destruct (Nat.eqb_spec j (S i)) as [->|]; [|done].
    by rewrite Nat.sub_diag.
Qed.

Lemma copy_pass_next (i : nat) :
  (S i < n)%nat ->
  imap (during_copy pcis i n) pcis
  = imap (during_copy pcis (S i) (S (S i))) pcis.
Proof.
  intros Hi. apply imap_ext. intros j p Hj.
  pose proof (lookup_lt_Some _ _ _ Hj) as Hjn.
  unfold during_copy. by rewrite reach_end.
Qed.

Lemma reach_start (j : nat) : reach 0 1 j = 0%nat.
Proof. unfold reach. destruct (Nat.ltb_spec j 1); lia. Qed.

Lemma reach_last (j : nat) : (j < n)%nat -> reach (n - 1)%nat n j = j.
Proof.
  intros Hj. unfold reach. rewrite (proj2 (Nat.ltb_lt j n)) by done. lia.
Qed.

(** What the two passes leave in [ses]. *)
Lemma count_instances_spec :
  count_instances (new_ses <$> pcis)
  = imap (fun j p => mk_ses p (b2z (has p (take j pcis))) (occ p pcis)) pcis.
Proof.
  destruct (decide (n = 0)%nat) as [Hz|Hnz].
  { apply length_zero_iff_nil in Hz. by rewrite Hz. }
  unfold count_instances. rewrite length_fmap.
  assert (new_ses <$> pcis = imap (during_count pcis 0 1) pcis) as ->.
  { apply list_eq. intros j. rewrite list_lookup_fmap, list_lookup_imap.
    destruct (pcis !! j) as [p|] eqn:Hj; [|done].
    cbn [fmap option_fmap option_map]. unfold new_ses, during_count.
    rewrite reach_start. cbn [take]. do 2 f_equal.
    unfold counted. cbn [Nat.ltb Nat.leb].
    destruct (has p (take j pcis)); [done|].
    destruct (Nat.eqb_spec j 0); cbn [Nat.sub take]; done. }
  rewrite (for_i_spec count_step (during_count pcis) count_step_spec
             count_pass_next) by lia.
  assert (imap (during_count pcis (n - 1)%nat n) pcis
          = imap (during_copy pcis 0 1) pcis) as ->.
  { apply imap_ext. intros j p Hj.
    pose proof (lookup_lt_Some _ _ _ Hj) as Hjn.
    unfold during_count, during_copy.
    rewrite reach_last, reach_start by done. cbn [take].
    change (has p []) with false. cbn iota. do 2 f_equal.
    destruct (has p (take j pcis)); [done|]. do 2 f_equal.
    unfold counted. destruct (Nat.ltb_spec j (n - 1)%nat).
    - apply take_ge. rewrite length_drop. lia.
    - rewrite !drop_ge by lia. by rewrite take_nil. }
  rewrite (for_i_spec copy_step (during_copy pcis) copy_step_spec
             copy_pass_next) by lia.
  apply imap_ext. intros j p Hj.
  pose proof (lookup_lt_Some _ _ _ Hj) as Hjn.
  unfold during_copy. rewrite reach_last by done. f_equal.
  destruct (has p (take j pcis)) eqn:Hseen; [done|].
  symmetry. by apply occ_first.
Qed.

(** X23.  After the two passes of [main] over the sessions, session [j]
    on device [p] has [inscount] equal to the number of sessions on [p],
    and [ins] equal to 0 if it is the first session on [p] and to 1
    otherwise: an instance number above 1 is never given. *)
Theorem mcd_instance_numbers (j : nat) (p : Z) :
  pcis !! j = Some p ->
  count_instances (new_ses <$> pcis) !! j
  = Some (mk_ses p (b2z (has p (take j pcis))) (occ p pcis)).
Proof.
  intros Hj. rewrite count_instances_spec, list_lookup_imap, Hj. done.
Qed.

(** X24.  Every session on a device after the first gets the same
    instance number and count, so the third session on a device works on
    the very queues of the second in [test_session]. *)
Theorem mcd_later_instances_share_queues (b c : nat) (p ns_qcount : Z) :
  pcis !! b = Some p -> pcis !! c = Some p ->
  has p (take b pcis) = true -> has p (take c pcis) = true ->
  exists sb sc,
    count_instances (new_ses <$> pcis) !! b = Some sb
    /\ count_instances (new_ses <$> pcis) !! c = Some sc
    /\ ins sb = 1 /\ ins sc = 1
    /\ session_queues ns_qcount sb = session_queues ns_qcount sc.
Proof.
  intros Hb Hc Hsb Hsc.
  rewrite count_instances_spec, !list_lookup_imap, Hb, Hc.
  cbn [fmap option_fmap option_map]. rewrite Hsb, Hsc.
  by eexists _, _.
Qed.

End McdFacts.

(** Four sessions, three of them on device 01:00.0. *)
Lemma mcd_instance_numbers_witness :
  McdTest.count_instances (McdTest.new_ses <$> [65536; 65536; 131072; 65536])
    !! 3%nat
  = Some (McdTest.mk_ses 65536
            (McdTest.b2z
               (McdTest.has 65536 (take 3 [65536; 65536; 131072; 65536])))
            (McdTest.occ 65536 [65536; 65536; 131072; 65536])).
Proof.
  apply (mcd_instance_numbers [65536; 65536; 131072; 65536] ltac:(cbn; lia)
           3%nat 65536).
  reflexivity.
Defined.

Lemma mcd_later_instances_share_queues_witness :
  exists sb sc,
    McdTest.count_instances (McdTest.new_ses <$> [65536; 65536; 131072; 65536])
      !! 1%nat = Some sb
    /\ McdTest.count_instances
         (McdTest.new_ses <$> [65536; 65536; 131072; 65536]) !! 3%nat
       = Some sc
    /\ McdTest.ins sb = 1 /\ McdTest.ins sc = 1
    /\ McdTest.session_queues 8 sb = McdTest.session_queues 8 sc.
Proof.
  apply (mcd_later_instances_share_queues [65536; 65536; 131072; 65536]
           ltac:(cbn; lia) 1%nat 3%nat 65536 8).
  - reflexivity.
  - reflexivity.
  - vm_compute. reflexivity.
  - vm_compute. reflexivity.
Defined.
